(** * fastapi-fsp: filtering, sorting and pagination for FastAPI + SQLModel

    A shallow embedding of the query-translation core of [fastapi_fsp]
    ([filters.py], [sorting.py], [pagination.py], [config.py], [models.py],
    the parsers and the pipeline of [fsp.py], [builder.py] and the boolean
    and search presets of [presets.py]) together with the properties of
    its specification (Part III) and further properties of the code
    (Part IV).

    Conventions of the embedding:
    - a Python [int] is a [Z]; a Python [str] is a [string] whose
      characters are the code points U+0000..U+00FF;
    - a Python [float] is a binary64 value, kept as sign, integer
      significand and binary exponent, with round-to-nearest-even written
      out on integers;
    - code that may raise returns a [Result]; [try]/[except] is
      [try_except]; an attribute probe on a duck-typed object is an [Attr];
    - the state of an engine instance (the column-type memo) is passed
      explicitly, and so is the list of a filter builder;
    - the query parameters of a request are the list of their decoded
      pairs; the one loop without a bound ([_parse_filters]) runs on fuel
      that is shown to suffice;
    - library functions the code calls but does not define
      ([datetime.fromisoformat], [dateutil.parser.parse]) are the methods
      of the class [DateLib]. *)

From Stdlib Require Import ZArith Lia Bool List String Ascii.
From stdpp Require Import base option list strings gmap sorting.

Local Open Scope string_scope.
Local Open Scope list_scope.
Local Open Scope Z_scope.

(* ================================================================== *)
(** * Part I: the Python fragment the code relies on                   *)
(* ================================================================== *)

Module Py.

(** ** Exceptions and fallible computations *)

(** The exception classes the code raises, catches or lets through.  All
    of them derive from [Exception]; [ParserError] (dateutil) derives from
    [ValueError]. *)
Inductive Exn : Type :=
  | AttributeError
  | NotImplementedError
  | ValueError
  | ParserError
  | OverflowError
  | TypeError
  | ZeroDivisionError
  | HTTPException (status_code : Z) (detail : string)
  | OtherException (name : string).

Definition is_AttributeError (e : Exn) : bool :=
  match e with AttributeError => true | _ => false end.

Definition is_NotImplementedError (e : Exn) : bool :=
  match e with NotImplementedError => true | _ => false end.

Definition is_ValueError (e : Exn) : bool :=
  match e with ValueError | ParserError => true | _ => false end.

(** [except Exception]: every modelled class is caught. *)
Definition is_Exception (e : Exn) : bool := true.

Inductive Result (A : Type) : Type :=
  | Ok (a : A)
  | Raise (e : Exn).
Arguments Ok {A} a.
Arguments Raise {A} e.

#[export] Instance Result_ret : MRet Result := fun A a => Ok a.
#[export] Instance Result_bind : MBind Result := fun A B f m =>
  match m with
  | Ok a => f a
  | Raise e => Raise e
  end.
#[export] Instance Result_fmap : FMap Result := fun A B f m =>
  match m with
  | Ok a => Ok (f a)
  | Raise e => Raise e
  end.

(** [try: body  except <classes>: handler]. *)
Definition try_except {A} (body : Result A) (catches : Exn -> bool)
    (handler : Result A) : Result A :=
  match body with
  | Ok a => Ok a
  | Raise e => if catches e then handler else Raise e
  end.

(** [[f(x) for x in xs]]: evaluated left to right, the first exception
    aborts the comprehension. *)
Fixpoint map_result {A B} (f : A -> Result B) (xs : list A) : Result (list B) :=
  match xs with
  | [] => Ok []
  | x :: xs' => y ← f x; ys ← map_result f xs'; Ok (y :: ys)
  end.

(** ** Attribute probes on duck-typed objects *)

(** What reading an attribute of an object does: the attribute is missing
    ([AttributeError]), has a value, or its descriptor raises. *)
Inductive Attr (A : Type) : Type :=
  | Absent
  | Present (a : A)
  | Fails (e : Exn).
Arguments Absent {A}.
Arguments Present {A} a.
Arguments Fails {A} e.

(** [obj.name] *)
Definition get_attr {A} (a : Attr A) : Result A :=
  match a with
  | Absent => Raise AttributeError
  | Present v => Ok v
  | Fails e => Raise e
  end.

(** [getattr(obj, "name", None)]: only [AttributeError] is replaced by the
    default. *)
Definition getattr_default {A} (a : Attr A) : Result (option A) :=
  match a with
  | Absent => Ok None
  | Present v => Ok (Some v)
  | Fails e => if is_AttributeError e then Ok None else Raise e
  end.

(** [hasattr(obj, "name")]: only [AttributeError] means "no". *)
Definition hasattr {A} (a : Attr A) : Result bool :=
  match a with
  | Absent => Ok false
  | Present _ => Ok true
  | Fails e => if is_AttributeError e then Ok false else Raise e
  end.

(** ** Strings *)

Definition code (c : ascii) : Z := Z.of_N (N_of_ascii c).

(** [str.isspace] on one character of U+0000..U+00FF. *)
Definition is_space (c : ascii) : bool :=
  let n := code c in
  ((9 <=? n) && (n <=? 13)) || ((28 <=? n) && (n <=? 32))
  || (n =? 133) || (n =? 160).

Fixpoint lstrip (s : string) : string :=
  match s with
  | EmptyString => EmptyString
  | String c s' => if is_space c then lstrip s' else s
  end.

Fixpoint rstrip (s : string) : string :=
  match s with
  | EmptyString => EmptyString
  | String c s' =>
      match rstrip s' with
      | EmptyString => if is_space c then EmptyString else String c EmptyString
      | t => String c t
      end
  end.

(** [s.strip()] *)
Definition strip (s : string) : string := rstrip (lstrip s).

Definition lower_char (c : ascii) : ascii :=
  let n := code c in
  if ((65 <=? n) && (n <=? 90))
     || ((192 <=? n) && (n <=? 222) && negb (n =? 215))
  then ascii_of_N (Z.to_N (n + 32))
  else c.

(** [s.lower()] *)
Fixpoint lower (s : string) : string :=
  match s with
  | EmptyString => EmptyString
  | String c s' => String (lower_char c) (lower s')
  end.

(** [s.split(sep)] for a one-character separator: never empty, keeps empty
    pieces. *)
Fixpoint split (sep : ascii) (s : string) : list string :=
  match s with
  | EmptyString => [EmptyString]
  | String c s' =>
      if Ascii.eqb c sep then EmptyString :: split sep s'
      else match split sep s' with
           | [] => [String c EmptyString]
           | p :: ps => String c p :: ps
           end
  end.

(** [sep.join(xs)] *)
Fixpoint join (sep : string) (xs : list string) : string :=
  match xs with
  | [] => EmptyString
  | [x] => x
  | x :: xs' => x +:+ sep +:+ join sep xs'
  end.

(** [x in {...}] for a set of strings. *)
Definition str_in (x : string) (xs : list string) : bool :=
  existsb (String.eqb x) xs.

(** [sorted(xs)] on strings: ascending, by code point. *)
Definition sorted (xs : list string) : list string := merge_sort String.le xs.

(** [bool(s)]: a string is truthy iff it is not empty. *)
Definition str_truthy (s : string) : bool :=
  match s with EmptyString => false | _ => true end.

(** ** Integers written as strings *)

(** White space as [int()] and [float()] skip it around a number: the
    white space of C and the Unicode spaces of U+0080..U+00FF, that is the
    white space of [str.strip] without U+001C..U+001F. *)
Definition is_number_space (c : ascii) : bool :=
  let n := code c in
  ((9 <=? n) && (n <=? 13)) || (n =? 32) || (n =? 133) || (n =? 160).

Fixpoint lstrip_by (space : ascii -> bool) (s : string) : string :=
  match s with
  | EmptyString => EmptyString
  | String c s' => if space c then lstrip_by space s' else s
  end.

Fixpoint rstrip_by (space : ascii -> bool) (s : string) : string :=
  match s with
  | EmptyString => EmptyString
  | String c s' =>
      match rstrip_by space s' with
      | EmptyString => if space c then EmptyString else String c EmptyString
      | t => String c t
      end
  end.

(** [s] without the characters of [space] at its two ends. *)
Definition strip_by (space : ascii -> bool) (s : string) : string :=
  rstrip_by space (lstrip_by space s).

Definition is_digit (c : ascii) : bool := (48 <=? code c) && (code c <=? 57).
Definition digit_val (c : ascii) : Z := code c - 48.

(** Reads [digit (["_"] digit)*] from the front of [s], continuing the
    decimal number [acc]; returns the number, how many digits were read and
    the rest of the string. *)
Fixpoint scan_digits (acc cnt : Z) (s : string) : Z * Z * string :=
  match s with
  | String c s' =>
      if is_digit c then scan_digits (10 * acc + digit_val c) (cnt + 1) s'
      else if Ascii.eqb c "_" then
        match s' with
        | String c2 s'' =>
            if is_digit c2
            then scan_digits (10 * acc + digit_val c2) (cnt + 1) s''
            else (acc, cnt, s)
        | EmptyString => (acc, cnt, s)
        end
      else (acc, cnt, s)
  | EmptyString => (acc, cnt, s)
  end.

(** A digit part has to start with a digit. *)
Definition digitpart (acc : Z) (s : string) : option (Z * Z * string) :=
  match s with
  | String c _ => if is_digit c then Some (scan_digits acc 0 s) else None
  | EmptyString => None
  end.

Definition sign (s : string) : bool * string :=
  match s with
  | String c s' =>
      if Ascii.eqb c "-" then (true, s')
      else if Ascii.eqb c "+" then (false, s')
      else (false, s)
  | EmptyString => (false, s)
  end.

(** [sys.int_info.default_max_str_digits] *)
Definition int_max_str_digits : Z := 4300.

(** [int(s)] for a string [s] (base 10). *)
Definition int_of_str (s : string) : Result Z :=
  let '(neg, u) := sign (strip_by is_number_space s) in
  match digitpart 0 u with
  | Some (v, cnt, EmptyString) =>
      if int_max_str_digits <? cnt then Raise ValueError
      else Ok (if neg then - v else v)
  | _ => Raise ValueError
  end.

(** ** Floats: binary64 with round-to-nearest-even *)

(** [FFin s m e] is the finite value [(-1)^s * m * 2^e]. *)
Inductive PyFloat : Type :=
  | FNan
  | FInf (negative : bool)
  | FFin (negative : bool) (m : Z) (e : Z).

(** Nearest integer to [n / d], ties to even ([0 <= n], [0 < d]). *)
Definition rne_div (n d : Z) : Z :=
  let q := n / d in
  let r := n mod d in
  if 2 * r <? d then q
  else if d <? 2 * r then q + 1
  else if Z.even q then q else q + 1.

(** The fraction [n / (d * 2^e)] on integers. *)
Definition scaled (n d e : Z) : Z * Z :=
  if 0 <=? e then (n, d * 2 ^ e) else (n * 2 ^ (- e), d).

(** [floor (log2 (n / d))] for [0 < n], [0 < d]. *)
Definition log2_quot (n d : Z) : Z :=
  let l := Z.log2 n - Z.log2 d in
  let '(n', d') := scaled n d l in
  if d' <=? n' then l else l - 1.

(** The binary64 value nearest to [n / d] ([0 <= n], [0 < d]) as
    significand and exponent; [None] when it exceeds the largest finite
    value.  53 bits of precision, least exponent -1074. *)
Definition round_b64 (n d : Z) : option (Z * Z) :=
  if n =? 0 then Some (0, 0)
  else
    let e := Z.max (log2_quot n d - 52) (-1074) in
    let '(n', d') := scaled n d e in
    let m := rne_div n' d' in
    if (971 <? e) || ((e =? 971) && (m =? 2 ^ 53)) then None
    else Some (m, e).

(** [a / b] on ints: the correctly rounded quotient. *)
Definition true_div (a b : Z) : Result PyFloat :=
  if b =? 0 then Raise ZeroDivisionError
  else
    match round_b64 (Z.abs a) (Z.abs b) with
    | Some (m, e) => Ok (FFin (xorb (a <? 0) (b <? 0)) m e)
    | None => Raise OverflowError
    end.

Definition signed (negative : bool) (m : Z) : Z := if negative then - m else m.

(** [math.ceil(x)] *)
Definition ceil (x : PyFloat) : Result Z :=
  match x with
  | FNan => Raise ValueError
  | FInf _ => Raise OverflowError
  | FFin s m e =>
      if 0 <=? e then Ok (signed s m * 2 ^ e)
      else Ok (- ((- signed s m) / 2 ^ (- e)))
  end.

(** [int(x)] for a float [x]: truncation towards zero. *)
Definition int_of_float (x : PyFloat) : Result Z :=
  match x with
  | FNan => Raise ValueError
  | FInf _ => Raise OverflowError
  | FFin s m e =>
      if 0 <=? e then Ok (signed s m * 2 ^ e)
      else Ok (Z.quot (signed s m) (2 ^ (- e)))
  end.

(** The exponent of a decimal literal: nothing, or [e|E [sign] digitpart]
    up to the end of the string.  [m] and [x] stand for [m * 10^x]. *)
Definition parse_exponent (m x : Z) (s : string) : option (Z * Z) :=
  match s with
  | EmptyString => Some (m, x)
  | String c s' =>
      if Ascii.eqb c "e" || Ascii.eqb c "E" then
        let '(eneg, r) := sign s' in
        match digitpart 0 r with
        | Some (ev, _, EmptyString) => Some (m, x + signed eneg ev)
        | _ => None
        end
      else None
  end.

(** [[digitpart] "." digitpart | digitpart ["."]], then the exponent. *)
Definition parse_decimal (s : string) : option (Z * Z) :=
  match digitpart 0 s with
  | Some (iv, _, rest) =>
      match rest with
      | String c rest' =>
          if Ascii.eqb c "." then
            match digitpart iv rest' with
            | Some (v, fc, rest'') => parse_exponent v (- fc) rest''
            | None => parse_exponent iv 0 rest'
            end
          else parse_exponent iv 0 rest
      | EmptyString => Some (iv, 0)
      end
  | None =>
      match s with
      | String c rest' =>
          if Ascii.eqb c "." then
            match digitpart 0 rest' with
            | Some (v, fc, rest'') => parse_exponent v (- fc) rest''
            | None => None
            end
          else None
      | EmptyString => None
      end
  end.

(** [float(s)] for a string [s]. *)
Definition float_of_str (s : string) : Result PyFloat :=
  let '(neg, u) := sign (strip_by is_number_space s) in
  let l := lower u in
  if str_in l ["inf"; "infinity"] then Ok (FInf neg)
  else if String.eqb l "nan" then Ok FNan
  else
    match parse_decimal u with
    | None => Raise ValueError
    | Some (m, x) =>
        match (if 0 <=? x then round_b64 (m * 10 ^ x) 1
               else round_b64 m (10 ^ (- x))) with
        | Some (m', e) => Ok (FFin neg m' e)
        | None => Ok (FInf neg)
        end
    end.

(** ** Integers printed as strings *)

Definition digit_char (d : Z) : ascii := ascii_of_N (Z.to_N (48 + d)).

(** The decimal digits of [n] put in front of [rest], for
    [0 <= n < 10 ^ fuel]. *)
Fixpoint decimal (fuel : nat) (n : Z) (rest : string) : string :=
  match fuel with
  | O => rest
  | S fuel' =>
      let rest' := String (digit_char (n mod 10)) rest in
      if n <? 10 then rest' else decimal fuel' (n / 10) rest'
  end.

(** [str(z)] for an int [z]; an int of more than
    [int_max_str_digits] digits is not converted. *)
Definition str_of_int (z : Z) : Result string :=
  let digits :=
    decimal (S (Z.to_nat (Z.log2 (Z.abs z)))) (Z.abs z) EmptyString in
  if int_max_str_digits <? Z.of_nat (String.length digits)
  then Raise ValueError
  else Ok (if z <? 0 then String "-" digits else digits).

End Py.

Import Py.

(** ** Values and types *)

(** The Python values a coerced filter value can be. *)
Inductive PyValue : Type :=
  | PyNone
  | PyBool (b : bool)
  | PyInt (z : Z)
  | PyFloatV (x : PyFloat)
  | PyStr (s : string)
  | PyDatetime (stamp : Z)
  | PyObject (repr : string).

(** The classes a column reports as its [python_type].  [TOther] is any
    other class: whether a [str] is an instance of it, and what calling it
    on a string does. *)
Inductive PyType : Type :=
  | TBool
  | TInt
  | TFloat
  | TStr
  | TDatetime
  | TOther (str_is_instance : bool) (construct : string -> Result PyValue).

(** [isinstance(raw, pytype)] for a string [raw]. *)
Definition isinstance_str (pytype : PyType) : bool :=
  match pytype with
  | TStr => true
  | TOther b _ => b
  | _ => false
  end.

(** [datetime.fromisoformat] and [dateutil.parser.parse]. *)
Class DateLib : Type := {
  fromisoformat : string -> Result PyValue;
  parse : string -> Result PyValue
}.

(* ================================================================== *)
(** * Part II: the program                                             *)
(* ================================================================== *)

(** ** models.py *)

Inductive FilterOperator : Type :=
  | EQ | NE | GT | GTE | LT | LTE
  | LIKE | NOT_LIKE | ILIKE | NOT_ILIKE
  | IN | NOT_IN
  | BETWEEN
  | IS_NULL | IS_NOT_NULL
  | STARTS_WITH | ENDS_WITH | CONTAINS.

#[export] Instance FilterOperator_eq_dec : EqDecision FilterOperator.
Proof. solve_decision. Defined.

(** The value of each member of the enumeration. *)
Definition FilterOperator_value (op : FilterOperator) : string :=
  match op with
  | EQ => "eq" | NE => "ne" | GT => "gt" | GTE => "gte" | LT => "lt"
  | LTE => "lte"
  | LIKE => "like" | NOT_LIKE => "not_like" | ILIKE => "ilike"
  | NOT_ILIKE => "not_ilike"
  | IN => "in" | NOT_IN => "not_in"
  | BETWEEN => "between"
  | IS_NULL => "is_null" | IS_NOT_NULL => "is_not_null"
  | STARTS_WITH => "starts_with" | ENDS_WITH => "ends_with"
  | CONTAINS => "contains"
  end.

Definition all_operators : list FilterOperator :=
  [EQ; NE; GT; GTE; LT; LTE; LIKE; NOT_LIKE; ILIKE; NOT_ILIKE; IN; NOT_IN;
   BETWEEN; IS_NULL; IS_NOT_NULL; STARTS_WITH; ENDS_WITH; CONTAINS].

(** [FilterOperator(s)]: the member whose value is [s]. *)
Definition FilterOperator_of_str (s : string) : Result FilterOperator :=
  match list_find (fun op => FilterOperator_value op = s) all_operators with
  | Some (_, op) => Ok op
  | None => Raise ValueError
  end.

Inductive SortingOrder : Type := ASC | DESC.

#[export] Instance SortingOrder_eq_dec : EqDecision SortingOrder.
Proof. solve_decision. Defined.

Module Filter.
Record t : Type := mk {
  field : string;
  operator : FilterOperator;
  value : string
}.
End Filter.

Module OrFilterGroup.
Record t : Type := mk { filters : list Filter.t }.
End OrFilterGroup.

Module PaginationQuery.
Record t : Type := mk { page : Z; per_page : Z }.
End PaginationQuery.

Module SortingQuery.
Record t : Type := mk { sort_by : string; order : SortingOrder }.
End SortingQuery.

Module Pagination.
Record t : Type := mk {
  total_items : option Z;
  per_page : Z;
  current_page : Z;
  total_pages : option Z
}.
End Pagination.

Module Meta.
Record t : Type := mk {
  pagination : Pagination.t;
  filters : option (list Filter.t);
  or_filters : option (list OrFilterGroup.t);
  sort : option SortingQuery.t
}.
End Meta.

Module Links.
Record t : Type := mk {
  self : string;
  first : string;
  next : option string;
  prev : option string;
  last : option string
}.
End Links.

Module PaginatedResponse.
(** One item of [data]: a bare column value, an instance of the mapped
    class with its column attributes, a result row of SQLAlchemy, or an
    instance of the namedtuple class [Row] that the window path makes. *)
Inductive item : Type :=
  | Scalar (v : PyValue)
  | Instance (attributes : list (string * PyValue))
  | SqlRow (fields : list (string * PyValue))
  | Tuple (fields : list (string * PyValue)).

Record t : Type := mk {
  data : list item;
  meta : Meta.t;
  links : Links.t
}.
End PaginatedResponse.

(** ** The query builder (SQLAlchemy) as far as the code uses it *)

(** How a column is stored. *)
Inductive StorageKind : Type :=
  | KText | KNumeric | KBoolean | KDatetime | KEnum | KOther.

(** A column handle: [id(column)], its key, its storage type, what
    [column.type.python_type] answers and whether it has an [ilike]
    method. *)
Record Column : Type := {
  col_id : Z;
  col_key : string;
  col_kind : StorageKind;
  python_type : Attr PyType;
  has_ilike : bool
}.

Inductive SqlExpr : Type :=
  | ECol (c : Column)
  | ELower (e : SqlExpr)
  | ECast (e : SqlExpr) (target : StorageKind).

Inductive Pred : Type :=
  | PEq (e : SqlExpr) (v : PyValue)
  | PNe (e : SqlExpr) (v : PyValue)
  | PGt (e : SqlExpr) (v : PyValue)
  | PGe (e : SqlExpr) (v : PyValue)
  | PLt (e : SqlExpr) (v : PyValue)
  | PLe (e : SqlExpr) (v : PyValue)
  | PLike (e : SqlExpr) (pattern : string)
  | PILike (e : SqlExpr) (pattern : string)
  | PNot (p : Pred)
  | PIn (e : SqlExpr) (vs : list PyValue)
  | PBetween (e : SqlExpr) (low high : PyValue)
  | PIsNull (e : SqlExpr)
  | PIsNotNull (e : SqlExpr)
  | POr (p q : Pred).

(** What [getattr(entity, name, None)] can find on a mapped class: a
    column element, or some other object, which may have a
    [__clause_element__] method. *)
Inductive EntityAttr : Type :=
  | EColumnElement (c : Column)
  | EObject (clause_element : Attr (Result Column)).

Record Entity : Type := {
  ent_getattr : string -> Attr (option EntityAttr)
}.

(** What a statement selects. SQLModel's [select] of one mapped class or
    of one column makes a [SelectOfScalar], any other [select] a [Select]
    of rows. (A statement that selects a mapped class next to other things
    is not modelled.) *)
Inductive Selection : Type :=
  | SelectEntity
  | SelectColumn
  | SelectColumns.

(** A [Select]: what it selects, its selected columns, the [entity] entry
    of each of its column descriptions, its WHERE conjuncts and its ORDER BY
    keys. *)
Record Select : Type := {
  selection : Selection;
  selected_columns : gmap string Column;
  column_descriptions : Attr (list (option Entity));
  whereclause : list Pred;
  order_by_clauses : list (SqlExpr * SortingOrder)
}.

(** [query.where] applied to the collected conditions: they are ANDed to
    the query. *)
Definition where_ (query : Select) (conditions : list Pred) : Select :=
  {| selection := selection query;
     selected_columns := selected_columns query;
     column_descriptions := column_descriptions query;
     whereclause := whereclause query ++ conditions;
     order_by_clauses := order_by_clauses query |}.

(** [query.order_by(key)] *)
Definition order_by (query : Select) (key : SqlExpr * SortingOrder) : Select :=
  {| selection := selection query;
     selected_columns := selected_columns query;
     column_descriptions := column_descriptions query;
     whereclause := whereclause query;
     order_by_clauses := order_by_clauses query ++ [key] |}.

(** ** filters.py *)

(** A filter strategy: column, raw value and pre-fetched Python type to a
    condition, [None] when the value is unusable. *)
Definition FilterStrategyFn : Type :=
  Column -> string -> option PyType -> Result (option Pred).

Definition is_bool (t : PyType) : bool :=
  match t with TBool => true | _ => false end.
Definition is_int (t : PyType) : bool :=
  match t with TInt => true | _ => false end.
Definition is_datetime (t : PyType) : bool :=
  match t with TDatetime => true | _ => false end.

(** [pytype(raw)]: calling the class on the string. *)
Definition call_type (pytype : PyType) (raw : string) : Result PyValue :=
  match pytype with
  | TBool => Ok (PyBool (str_truthy raw))
  | TInt => PyInt <$> int_of_str raw
  | TFloat => PyFloatV <$> float_of_str raw
  | TStr => Ok (PyStr raw)
  | TDatetime => Raise TypeError
  | TOther _ construct => construct raw
  end.

Section Coercion.
Context `{DateLib}.

Definition _coerce_value (column : Column) (raw : string)
    (pytype : option PyType) : Result PyValue :=
  pytype ← (match pytype with
            | None =>
                try_except (getattr_default (python_type column))
                  is_Exception (Ok None)
            | Some _ => Ok pytype
            end);
  match pytype with
  | None => Ok (PyStr raw)
  | Some pytype =>
      if isinstance_str pytype then Ok (PyStr raw)
      else
        let val := lower (strip raw) in
        if is_bool pytype && str_in val ["true"; "1"; "t"; "yes"; "y"]
        then Ok (PyBool true)
        else if is_bool pytype && str_in val ["false"; "0"; "f"; "no"; "n"]
        then Ok (PyBool false)
        else if is_int pytype then
          try_except (PyInt <$> int_of_str raw) is_ValueError
            (try_except (x ← float_of_str raw; PyInt <$> int_of_float x)
               is_ValueError (Ok (PyStr raw)))
        else if is_datetime pytype then
          try_except (fromisoformat raw)
            (fun e => is_ValueError e || is_AttributeError e)
            (try_except (parse raw) is_ValueError (Ok (PyStr raw)))
        else
          try_except (call_type pytype raw) is_Exception (Ok (PyStr raw))
  end.

Definition _split_values (raw : string) : list string :=
  strip <$> split "," raw.

Definition _ilike_supported (col : Column) : bool := has_ilike col.

Definition _strategy_eq : FilterStrategyFn := fun column raw pytype =>
  v ← _coerce_value column raw pytype; Ok (Some (PEq (ECol column) v)).

Definition _strategy_ne : FilterStrategyFn := fun column raw pytype =>
  v ← _coerce_value column raw pytype; Ok (Some (PNe (ECol column) v)).

Definition _strategy_gt : FilterStrategyFn := fun column raw pytype =>
  v ← _coerce_value column raw pytype; Ok (Some (PGt (ECol column) v)).

Definition _strategy_gte : FilterStrategyFn := fun column raw pytype =>
  v ← _coerce_value column raw pytype; Ok (Some (PGe (ECol column) v)).

Definition _strategy_lt : FilterStrategyFn := fun column raw pytype =>
  v ← _coerce_value column raw pytype; Ok (Some (PLt (ECol column) v)).

Definition _strategy_lte : FilterStrategyFn := fun column raw pytype =>
  v ← _coerce_value column raw pytype; Ok (Some (PLe (ECol column) v)).

Definition _strategy_like : FilterStrategyFn := fun column raw pytype =>
  Ok (Some (PLike (ECol column) raw)).

Definition _strategy_not_like : FilterStrategyFn := fun column raw pytype =>
  Ok (Some (PNot (PLike (ECol column) raw))).

Definition _strategy_ilike : FilterStrategyFn := fun column raw pytype =>
  if _ilike_supported column then Ok (Some (PILike (ECol column) raw))
  else Ok (Some (PLike (ELower (ECol column)) (lower raw))).

Definition _strategy_not_ilike : FilterStrategyFn := fun column raw pytype =>
  if _ilike_supported column then Ok (Some (PNot (PILike (ECol column) raw)))
  else Ok (Some (PNot (PLike (ELower (ECol column)) (lower raw)))).

Definition _strategy_in : FilterStrategyFn := fun column raw pytype =>
  vals ← map_result (fun v => _coerce_value column v pytype)
           (_split_values raw);
  Ok (Some (PIn (ECol column) vals)).

Definition _strategy_not_in : FilterStrategyFn := fun column raw pytype =>
  vals ← map_result (fun v => _coerce_value column v pytype)
           (_split_values raw);
  Ok (Some (PNot (PIn (ECol column) vals))).

Definition _strategy_between : FilterStrategyFn := fun column raw pytype =>
  let vals := _split_values raw in
  if decide (length vals = 2%nat) then
    low ← _coerce_value column (vals !!! 0%nat) pytype;
    high ← _coerce_value column (vals !!! 1%nat) pytype;
    Ok (Some (PBetween (ECol column) low high))
  else Ok None.

Definition _strategy_is_null : FilterStrategyFn := fun column raw pytype =>
  Ok (Some (PIsNull (ECol column))).

Definition _strategy_is_not_null : FilterStrategyFn := fun column raw pytype =>
  Ok (Some (PIsNotNull (ECol column))).

Definition _strategy_starts_with : FilterStrategyFn := fun column raw pytype =>
  let pattern := raw +:+ "%" in
  if _ilike_supported column then Ok (Some (PILike (ECol column) pattern))
  else Ok (Some (PLike (ELower (ECol column)) (lower pattern))).

Definition _strategy_ends_with : FilterStrategyFn := fun column raw pytype =>
  let pattern := "%" +:+ raw in
  if _ilike_supported column then Ok (Some (PILike (ECol column) pattern))
  else Ok (Some (PLike (ELower (ECol column)) (lower pattern))).

Definition _strategy_contains : FilterStrategyFn := fun column raw pytype =>
  let pattern := "%" +:+ raw +:+ "%" in
  if _ilike_supported column then Ok (Some (PILike (ECol column) pattern))
  else Ok (Some (PLike (ELower (ECol column)) (lower pattern))).

(** The strategy registry, a dict from operator to handler. *)
Definition Registry : Type := FilterOperator -> option FilterStrategyFn.

Definition FILTER_STRATEGIES : Registry := fun op =>
  Some match op with
       | EQ => _strategy_eq
       | NE => _strategy_ne
       | GT => _strategy_gt
       | GTE => _strategy_gte
       | LT => _strategy_lt
       | LTE => _strategy_lte
       | LIKE => _strategy_like
       | NOT_LIKE => _strategy_not_like
       | ILIKE => _strategy_ilike
       | NOT_ILIKE => _strategy_not_ilike
       | IN => _strategy_in
       | NOT_IN => _strategy_not_in
       | BETWEEN => _strategy_between
       | IS_NULL => _strategy_is_null
       | IS_NOT_NULL => _strategy_is_not_null
       | STARTS_WITH => _strategy_starts_with
       | ENDS_WITH => _strategy_ends_with
       | CONTAINS => _strategy_contains
       end.

End Coercion.

Module FilterEngine.

(** An engine instance: the unknown-field policy and the column-type memo,
    keyed by [id(column)]. *)
Record t : Type := mk {
  strict_mode : bool;
  _type_cache : gmap Z (option PyType)
}.

(** [FilterEngine(strict_mode)] *)
Definition __init__ (strict_mode : bool) : t :=
  {| strict_mode := strict_mode; _type_cache := ∅ |}.

Definition get_column_type (self : t) (column : Column)
    : Result (option PyType * t) :=
  let col_id := col_id column in
  self ← (match _type_cache self !! col_id with
          | None =>
              pytype ← try_except (getattr_default (python_type column))
                         (fun e => is_AttributeError e
                                   || is_NotImplementedError e)
                         (Ok None);
              Ok {| strict_mode := strict_mode self;
                    _type_cache := <[col_id := pytype]> (_type_cache self) |}
          | Some _ => Ok self
          end);
  Ok (default None (_type_cache self !! col_id), self).

Definition get_entity_attribute (query : Select) (field : string)
    : Result (option Column) :=
  try_except
    (column_descriptions ← get_attr (column_descriptions query);
     match column_descriptions with
     | [] => Ok None
     | d0 :: _ =>
         match d0 with
         | None => Ok None
         | Some entity =>
             attr ← getattr_default (ent_getattr entity field);
             match attr with
             | None | Some None => Ok None
             | Some (Some (EColumnElement c)) => Ok (Some c)
             | Some (Some (EObject clause_element)) =>
                 has ← hasattr clause_element;
                 if has : bool then
                   call ← get_attr clause_element;
                   c ← call;
                   Ok (Some c)
                 else Ok None
             end
         end
     end)
    is_Exception (Ok None).

Definition register_strategy (registry : Registry) (operator : FilterOperator)
    (strategy : FilterStrategyFn) : Registry :=
  fun op => if decide (op = operator) then Some strategy else registry op.

Definition build_filter_condition (registry : Registry) (column : Column)
    (f : Filter.t) (pytype : option PyType) : Result (option Pred) :=
  match registry (Filter.operator f) with
  | None => Ok None
  | Some strategy => strategy column (Filter.value f) pytype
  end.

(** [", ".join(sorted(columns_map.keys()))] *)
Definition available_fields (columns_map : gmap string Column) : string :=
  join ", " (sorted (map_to_list columns_map).*1).

(** The [for f in filters] loop of [apply_filters]: the conditions
    collected so far and the engine are carried along. *)
Fixpoint collect_conditions (self : t) (registry : Registry) (query : Select)
    (columns_map : gmap string Column) (filters : list Filter.t)
    (conditions : list Pred) : Result (list Pred * t) :=
  match filters with
  | [] => Ok (conditions, self)
  | f :: rest =>
      column ← (match columns_map !! Filter.field f with
                | None => get_entity_attribute query (Filter.field f)
                | Some c => Ok (Some c)
                end);
      match column with
      | None =>
          if strict_mode self then
            Raise (HTTPException 400
                     ("Unknown field '" +:+ Filter.field f
                      +:+ "'. Available fields: "
                      +:+ available_fields columns_map))
          else
            collect_conditions self registry query columns_map rest conditions
      | Some column =>
          '(pytype, self) ← get_column_type self column;
          condition ← build_filter_condition registry column f pytype;
          collect_conditions self registry query columns_map rest
            (match condition with
             | Some c => conditions ++ [c]
             | None => conditions
             end)
      end
  end.

Definition apply_filters (self : t) (registry : Registry) (query : Select)
    (columns_map : gmap string Column) (filters : option (list Filter.t))
    : Result (Select * t) :=
  match filters with
  | None | Some [] => Ok (query, self)
  | Some filters =>
      '(conditions, self) ←
        collect_conditions self registry query columns_map filters [];
      Ok (match conditions with
          | [] => query
          | _ => where_ query conditions
          end, self)
  end.

(** Modelled from the spec: the OR of the conditions of a group, which
    [apply_or_filter_groups] needs; for a non-empty list of conditions. *)
Definition or_ (c : Pred) (cs : list Pred) : Pred := foldl POr c cs.

(** Modelled from the spec: the loop over the groups of
    [apply_or_filter_groups].  Each member filter is resolved and built as
    in [apply_filters], with the same unknown-field policy; the conditions
    of a group are ORed; a group without a usable condition contributes
    nothing. *)
Fixpoint collect_groups (self : t) (registry : Registry) (query : Select)
    (columns_map : gmap string Column) (groups : list OrFilterGroup.t)
    (conditions : list Pred) : Result (list Pred * t) :=
  match groups with
  | [] => Ok (conditions, self)
  | g :: rest =>
      '(members, self) ←
        collect_conditions self registry query columns_map
          (OrFilterGroup.filters g) [];
      collect_groups self registry query columns_map rest
        (match members with
         | [] => conditions
         | c :: cs => conditions ++ [or_ c cs]
         end)
  end.

(** Modelled from the spec: [FilterEngine.apply_or_filter_groups], which
    [FSPManager._apply_or_filters] calls, is not in [filters.py].  Section
    4.3: a no-op without groups; otherwise the OR-condition of every group
    is ANDed to the query. *)
Definition apply_or_filter_groups (self : t) (registry : Registry)
    (query : Select) (columns_map : gmap string Column)
    (or_filters : option (list OrFilterGroup.t)) : Result (Select * t) :=
  match or_filters with
  | None | Some [] => Ok (query, self)
  | Some groups =>
      '(conditions, self) ←
        collect_groups self registry query columns_map groups [];
      Ok (match conditions with
          | [] => query
          | _ => where_ query conditions
          end, self)
  end.

End FilterEngine.

(** ** sorting.py *)

Module SortEngine.

Record t : Type := mk { strict_mode : bool }.

Definition apply_sort (self : t) (query : Select)
    (columns_map : gmap string Column) (sorting : option SortingQuery.t)
    : Result Select :=
  match sorting with
  | None => Ok query
  | Some sorting =>
      if negb (str_truthy (SortingQuery.sort_by sorting)) then Ok query
      else
        column ← (match columns_map !! SortingQuery.sort_by sorting with
                  | None =>
                      FilterEngine.get_entity_attribute query
                        (SortingQuery.sort_by sorting)
                  | Some c => Ok (Some c)
                  end);
        match column with
        | None =>
            if strict_mode self then
              Raise (HTTPException 400
                       ("Unknown sort field '" +:+ SortingQuery.sort_by sorting
                        +:+ "'. Available fields: "
                        +:+ FilterEngine.available_fields columns_map))
            else Ok query
        | Some column =>
            Ok (order_by query
                  (ECol column,
                   if decide (SortingQuery.order sorting = DESC)
                   then DESC else ASC))
        end
  end.

End SortEngine.

(** ** config.py *)

Module FSPConfig.

Record t : Type := mk {
  max_per_page : Z;
  default_per_page : Z;
  default_page : Z;
  min_per_page : Z;
  strict_mode : bool;
  allow_deep_pagination : bool;
  max_page : option Z
}.

(** The defaults of the dataclass. *)
Definition default : t :=
  {| max_per_page := 100; default_per_page := 10; default_page := 1;
     min_per_page := 1; strict_mode := false;
     allow_deep_pagination := true; max_page := None |}.

(** The validation every construction of an [FSPConfig] runs. *)
Definition __post_init__ (self : t) : Result unit :=
  if max_per_page self <? 1 then Raise ValueError
  else if default_per_page self <? 1 then Raise ValueError
  else if max_per_page self <? default_per_page self then Raise ValueError
  else if min_per_page self <? 1 then Raise ValueError
  else if max_per_page self <? min_per_page self then Raise ValueError
  else if default_page self <? 1 then Raise ValueError
  else if match max_page self with
          | Some m => m <? 1
          | None => false
          end then Raise ValueError
  else Ok ().

Definition validate_page (self : t) (page : Z) : Result Z :=
  if page <? 1 then Ok (default_page self)
  else
    match max_page self with
    | Some m =>
        if negb (allow_deep_pagination self) && (m <? page)
        then Raise ValueError
        else Ok page
    | None => Ok page
    end.

Definition validate_per_page (self : t) (per_page : Z) : Z :=
  if per_page <? min_per_page self then min_per_page self
  else if max_per_page self <? per_page then max_per_page self
  else per_page.

(** [FSPConfig(...)]: the dataclass stores its fields and runs
    [__post_init__]. *)
Definition __init__ (max_per_page default_per_page default_page min_per_page : Z)
    (strict_mode allow_deep_pagination : bool) (max_page : option Z)
    : Result t :=
  let self := mk max_per_page default_per_page default_page min_per_page
                strict_mode allow_deep_pagination max_page in
  _ ← __post_init__ self;
  Ok self.

End FSPConfig.

Module FSPPresets.

(** [FSPConfig()] *)
Definition default : Result FSPConfig.t :=
  FSPConfig.__init__ 100 10 1 1 false true None.

(** [FSPConfig(strict_mode=True)] *)
Definition strict : Result FSPConfig.t :=
  FSPConfig.__init__ 100 10 1 1 true true None.

Definition limited_pagination (max_page max_per_page : Z)
    : Result FSPConfig.t :=
  FSPConfig.__init__ max_per_page 10 1 1 false false (Some max_page).

Definition high_volume (max_per_page default_per_page : Z)
    : Result FSPConfig.t :=
  FSPConfig.__init__ max_per_page default_per_page 1 1 false true None.

End FSPPresets.

(** ** The database session as far as the code uses it *)

Record Dialect : Type := { name : Attr PyValue }.
Record Bind : Type := { dialect : Attr Dialect }.
Record SyncSession : Type := { sync_bind : Attr (option Bind) }.

(** A row as the database sends it: the values of the columns of the
    statement under their column names. *)
Definition Row : Type := list (string * PyValue).

(** A session: its [bind] and [sync_session] attributes, and the rows the
    database answers a query with, in the order of the query. *)
Record Session : Type := {
  bind : Attr (option Bind);
  sync_session : Attr (option SyncSession);
  rows_of : Select -> list Row
}.

(** A row of the window query: the columns of the subquery and the
    [_total_count] column. *)
Record WindowRow : Type := {
  columns : Row;
  _total_count : Z
}.

(** One result of [session.exec(query).all()]. For a [SelectOfScalar]
    SQLModel hands out the first element of every row: the instance of the
    mapped class, built from the columns of the row, or the bare value of
    the column. For any other statement it hands out the rows. (A row has
    at least one column.) *)
Definition exec_result (query : Select) (r : Row) : PaginatedResponse.item :=
  match selection query, r with
  | SelectEntity, _ => PaginatedResponse.Instance r
  | SelectColumn, (_, v) :: _ => PaginatedResponse.Scalar v
  | _, _ => PaginatedResponse.SqlRow r
  end.

(** [query.offset(offset).limit(limit)], executed, for an offset and a
    limit that are not negative (what a backend does with negative ones is
    not modelled: they count as 0). *)
Definition exec_offset_limit (session : Session) (query : Select)
    (offset limit : Z) : list Row :=
  take (Z.to_nat limit) (drop (Z.to_nat offset) (rows_of session query)).

(** [select(func.count()).select_from(query.subquery())], executed. *)
Definition exec_count (session : Session) (query : Select) : Z :=
  Z.of_nat (length (rows_of session query)).

(** [select(subq, over(func.count())).offset(offset).limit(limit)],
    executed: the window count is taken over all rows of the subquery,
    before OFFSET and LIMIT cut the page out. *)
Definition exec_window (session : Session) (query : Select)
    (offset limit : Z) : list WindowRow :=
  let all := rows_of session query in
  take (Z.to_nat limit) (drop (Z.to_nat offset)
    ((fun r => {| columns := r; _total_count := Z.of_nat (length all) |})
       <$> all)).

(** ** collections.namedtuple *)

Definition keywords : list string :=
  ["False"; "None"; "True"; "and"; "as"; "assert"; "async"; "await";
   "break"; "class"; "continue"; "def"; "del"; "elif"; "else"; "except";
   "finally"; "for"; "from"; "global"; "if"; "import"; "in"; "is";
   "lambda"; "nonlocal"; "not"; "or"; "pass"; "raise"; "return"; "try";
   "while"; "with"; "yield"].

Definition is_id_start (c : ascii) : bool :=
  let n := code c in
  ((65 <=? n) && (n <=? 90)) || ((97 <=? n) && (n <=? 122)) || (n =? 95)
  || (n =? 170) || (n =? 181) || (n =? 186)
  || ((192 <=? n) && (n <=? 255) && negb (n =? 215) && negb (n =? 247)).

Definition is_id_continue (c : ascii) : bool :=
  is_id_start c || is_digit c || (code c =? 183).

Fixpoint all_chars (p : ascii -> bool) (s : string) : bool :=
  match s with
  | EmptyString => true
  | String c s' => p c && all_chars p s'
  end.

(** [s.isidentifier()] *)
Definition isidentifier (s : string) : bool :=
  match s with
  | EmptyString => false
  | String c s' => is_id_start c && all_chars is_id_continue s'
  end.

Definition starts_with_underscore (s : string) : bool :=
  match s with
  | String c _ => Ascii.eqb c "_"
  | EmptyString => false
  end.

(** [namedtuple("Row", field_names)]: the field names have to be distinct
    identifiers that are no keywords and do not start with an underscore. *)
Definition namedtuple (field_names : list string) : Result (list string) :=
  if forallb (fun n => isidentifier n && negb (str_in n keywords)
                       && negb (starts_with_underscore n)) field_names
     && bool_decide (NoDup field_names)
  then Ok field_names
  else Raise ValueError.

(** [row._mapping[k]] *)
Definition mapping_get (r : Row) (k : string) : Result PyValue :=
  match list_find (fun kv => kv.1 = k) r with
  | Some (_, (_, v)) => Ok v
  | None => Raise (OtherException "KeyError")
  end.

(** ** pagination.py *)

(** The request: [str(request.url.include_query_params(page=p, per_page=n))]
    as a function of [p] and [n]. *)
Record Request : Type := {
  include_query_params : Z -> Z -> string
}.

(** [value == "postgresql"] *)
Definition eq_str (v : PyValue) (s : string) : bool :=
  match v with
  | PyStr t => String.eqb t s
  | _ => false
  end.

(** [getattr(obj, "name", None)] where the attribute itself may be [None]. *)
Definition getattr_none {A} (a : Attr (option A)) : Result (option A) :=
  v ← getattr_default a;
  Ok (match v with
      | Some (Some x) => Some x
      | _ => None
      end).

Definition _detect_postgresql (session : Session) : Result bool :=
  returned ←
    try_except
      (bind ← getattr_none (bind session);
       match bind with
       | Some bind =>
           dialect ← get_attr (dialect bind);
           name ← get_attr (name dialect);
           Ok (Some (eq_str name "postgresql"))
       | None =>
           sync_session ← getattr_none (sync_session session);
           match sync_session with
           | Some sync_session =>
               bind ← getattr_none (sync_bind sync_session);
               match bind with
               | Some bind =>
                   dialect ← get_attr (dialect bind);
                   name ← get_attr (name dialect);
                   Ok (Some (eq_str name "postgresql"))
               | None => Ok None
               end
           | None => Ok None
           end
       end)
      is_Exception (Ok None);
  Ok (default false returned).

Module PaginationEngine.

Record t : Type := mk {
  pagination : PaginationQuery.t;
  request : Request;
  use_window_function : option bool
}.

Definition _should_use_window_function (self : t) (session : Session)
    : Result bool :=
  match use_window_function self with
  | Some b => Ok b
  | None => _detect_postgresql session
  end.

Definition offset (self : t) : Z :=
  (PaginationQuery.page (pagination self) - 1)
  * PaginationQuery.per_page (pagination self).

Definition paginate (self : t) (query : Select) (session : Session)
    : list PaginatedResponse.item :=
  exec_result query
    <$> exec_offset_limit session query (offset self)
          (PaginationQuery.per_page (pagination self)).

Definition _count_total_static (query : Select) (session : Session) : Z :=
  exec_count session query.

Definition count_total (self : t) (query : Select) (session : Session) : Z :=
  _count_total_static query session.

Definition _paginate_with_window (self : t) (query : Select)
    (session : Session) : Result (list PaginatedResponse.item * Z) :=
  let rows := exec_window session query (offset self)
                (PaginationQuery.per_page (pagination self)) in
  match rows with
  | [] => Ok ([], 0)
  | row0 :: _ =>
      let total := _total_count row0 in
      if decide (S (length (columns row0)) = 2%nat) then
        data ← map_result
                 (fun row =>
                    match columns row with
                    | (_, v) :: _ => Ok (PaginatedResponse.Scalar v)
                    | [] => Raise (OtherException "IndexError")
                    end) rows;
        Ok (data, total)
      else
        let col_names :=
          filter (fun k => k ≠ "_total_count")
                 ((columns row0).*1 ++ ["_total_count"]) in
        fields ← namedtuple col_names;
        data ← map_result
                 (fun row =>
                    values ← map_result (mapping_get (columns row)) col_names;
                    Ok (PaginatedResponse.Tuple (zip fields values))) rows;
        Ok (data, total)
  end.

Definition paginate_with_count (self : t) (query : Select)
    (session : Session) : Result (list PaginatedResponse.item * Z) :=
  window ← _should_use_window_function self session;
  if window : bool then _paginate_with_window self query session
  else
    let total := count_total self query session in
    let data := paginate self query session in
    Ok (data, total).

Definition build_response (self : t) (total_items : option Z)
    (data_page : list PaginatedResponse.item)
    (filters : option (list Filter.t)) (sorting : option SortingQuery.t)
    : Result PaginatedResponse.t :=
  let per_page := PaginationQuery.per_page (pagination self) in
  let current_page := PaginationQuery.page (pagination self) in
  total_pages ← (match total_items with
                 | Some total_items =>
                     quotient ← true_div total_items per_page;
                     pages ← ceil quotient;
                     Ok (Z.max 1 pages)
                 | None => Ok 1
                 end);
  let url := include_query_params (request self) in
  let first_url := url 1 per_page in
  let last_url := url total_pages per_page in
  let next_url :=
    if current_page <? total_pages
    then Some (url (current_page + 1) per_page) else None in
  let prev_url :=
    if 1 <? current_page
    then Some (url (current_page - 1) per_page) else None in
  let self_url := url current_page per_page in
  Ok {| PaginatedResponse.data := data_page;
        PaginatedResponse.meta :=
          {| Meta.pagination :=
               {| Pagination.total_items := total_items;
                  Pagination.per_page := per_page;
                  Pagination.current_page := current_page;
                  Pagination.total_pages := Some total_pages |};
             Meta.filters := filters;
             Meta.or_filters := None;
             Meta.sort := sorting |};
        PaginatedResponse.links :=
          {| Links.self := self_url;
             Links.first := first_url;
             Links.last := Some last_url;
             Links.next := next_url;
             Links.prev := prev_url |} |}.

(** An argument passed by keyword to [build_response]. *)
Inductive Arg : Type :=
  | ATotal (total_items : option Z)
  | AData (data_page : list PaginatedResponse.item)
  | AFilters (filters : option (list Filter.t))
  | AOrFilters (or_filters : option (list OrFilterGroup.t))
  | ASorting (sorting : option SortingQuery.t).

(** The parameters in the signature of [build_response], after [self]. *)
Definition build_response_params : list string :=
  ["total_items"; "data_page"; "filters"; "sorting"].

Definition kwarg (kwargs : list (string * Arg)) (name : string) : option Arg :=
  snd <$> (snd <$> list_find (fun kv => kv.1 = name) kwargs).

(** A call of [self.build_response] with keyword arguments: a keyword that
    is not a parameter, a keyword given twice or a missing required
    argument is a [TypeError]; [filters] and [sorting] default to [None]. *)
Definition call_build_response (self : t) (kwargs : list (string * Arg))
    : Result PaginatedResponse.t :=
  if negb (forallb (fun kv => str_in kv.1 build_response_params) kwargs)
     || negb (bool_decide (NoDup kwargs.*1))
  then Raise TypeError
  else
    match kwarg kwargs "total_items", kwarg kwargs "data_page" with
    | Some (ATotal total_items), Some (AData data_page) =>
        match default (AFilters None) (kwarg kwargs "filters"),
              default (ASorting None) (kwarg kwargs "sorting") with
        | AFilters filters, ASorting sorting =>
            build_response self total_items data_page filters sorting
        | _, _ => Raise TypeError
        end
    | _, _ => Raise TypeError
    end.

End PaginationEngine.

(** ** fsp.py *)

(** [request.query_params] (Starlette's immutable multi-dict): the decoded
    [key=value] pairs of the query string, in their order. *)
Definition QueryParams : Type := list (string * string).

(** [query_params.get(key)]: the last value given for the key. *)
Definition qp_get (query_params : QueryParams) (key : string) : option string :=
  snd <$> last (filter (fun kv => kv.1 = key) query_params).

(** [query_params.getlist(key)]: every value given for the key. *)
Definition qp_getlist (query_params : QueryParams) (key : string)
    : list string :=
  (filter (fun kv => kv.1 = key) query_params).*2.

(** The operator string is turned into a [FilterOperator]; the fields of
    [Filter] are plain strings, so its validation has nothing to reject. *)
Definition _parse_one_filter_at (i : Z) (field operator value : string)
    : Result Filter.t :=
  try_except
    (op ← FilterOperator_of_str operator; Ok (Filter.mk field op value))
    is_ValueError
    (index ← str_of_int i;
     Raise (HTTPException 400
              ("Invalid operator '" +:+ operator +:+ "' at index " +:+ index
               +:+ "."))).

(** The comprehension over [enumerate(zip(fields, operators, values))],
    from index [i] on. *)
Fixpoint parse_each (i : Z) (triples : list (string * string * string))
    : Result (list Filter.t) :=
  match triples with
  | [] => Ok []
  | (field, operator, value) :: rest =>
      f ← _parse_one_filter_at i field operator value;
      fs ← parse_each (i + 1) rest;
      Ok (f :: fs)
  end.

Definition _parse_array_of_filters (fields operators values : list string)
    : Result (list Filter.t) :=
  if negb (bool_decide (length fields = length operators)
           && bool_decide (length operators = length values))
  then Raise (HTTPException 400
                "Mismatched filter parameters in array format.")
  else parse_each 0 (zip (zip fields operators) values).

(** The key [filters[<index>][<part>]] *)
Definition indexed_key (index part : string) : string :=
  "filters[" +:+ index +:+ "][" +:+ part +:+ "]".

(** The [while True] loop of [_parse_filters], from index [i] on, with the
    filters appended so far; [None] when [fuel] rounds did not reach the
    [break] or a [raise]. *)
Fixpoint parse_indexed (fuel : nat) (query_params : QueryParams) (i : Z)
    (filters : list Filter.t) : option (Result (list Filter.t)) :=
  match fuel with
  | O => None
  | S fuel' =>
      match str_of_int i with
      | Raise e => Some (Raise e)
      | Ok index =>
          match qp_get query_params (indexed_key index "field") with
          | None => Some (Ok filters)
          | Some field =>
              match qp_get query_params (indexed_key index "operator"),
                    qp_get query_params (indexed_key index "value") with
              | Some operator, Some value =>
                  match _parse_one_filter_at i field operator value with
                  | Ok f =>
                      parse_indexed fuel' query_params (i + 1)
                        (filters ++ [f])
                  | Raise e => Some (Raise e)
                  end
              | _, _ =>
                  Some (Raise (HTTPException 400
                          ("Incomplete filter at index " +:+ index
                           +:+ ". Missing operator or value.")))
              end
          end
      end
  end.

(** [_parse_filters(request)], on [request.query_params].  Every round of
    the loop that goes on has read a key of its own, so one round more
    than there are parameters always ends it ([parse_indexed_ends]); the
    [RecursionError] stands for a loop that did not end and never shows. *)
Definition _parse_filters (query_params : QueryParams)
    : Result (option (list Filter.t)) :=
  match parse_indexed (S (length query_params)) query_params 0 [] with
  | None => Raise (OtherException "RecursionError")
  | Some indexed =>
      filters ← indexed;
      match filters with
      | _ :: _ => Ok (Some filters)
      | [] =>
          filters ← _parse_array_of_filters
                      (qp_getlist query_params "field")
                      (qp_getlist query_params "operator")
                      (qp_getlist query_params "value");
          match filters with
          | _ :: _ => Ok (Some filters)
          | [] => Ok None
          end
      end
  end.

(** [_parse_search(request)], on [request.query_params]. *)
Definition _parse_search (query_params : QueryParams)
    : Result (option (list OrFilterGroup.t)) :=
  match qp_get query_params "search" with
  | None | Some EmptyString => Ok None
  | Some search =>
      match qp_get query_params "search_fields" with
      | None | Some EmptyString =>
          Raise (HTTPException 400
                   ("'search_fields' is required when 'search' is provided. "
                    +:+ "Specify comma-separated field names, "
                    +:+ "e.g. search_fields=name,email"))
      | Some search_fields_raw =>
          let fields :=
            strip <$> filter (fun f => str_truthy (strip f) = true)
                        (split "," search_fields_raw) in
          match fields with
          | [] =>
              Raise (HTTPException 400
                       "'search_fields' must contain at least one field name.")
          | _ =>
              let filters :=
                (fun field => Filter.mk field CONTAINS search) <$> fields in
              Ok (Some [OrFilterGroup.mk filters])
          end
      end
  end.

Definition _parse_sort (sort_by : option string) (order : SortingOrder)
    : option SortingQuery.t :=
  match sort_by with
  | None | Some EmptyString => None
  | Some sort_by => Some (SortingQuery.mk sort_by order)
  end.

Definition _parse_pagination (page per_page : Z) : PaginationQuery.t :=
  PaginationQuery.mk page per_page.

Module FSPManager.

Record t : Type := mk {
  request : Request;
  filters : option (list Filter.t);
  or_filters : option (list OrFilterGroup.t);
  sorting : option SortingQuery.t;
  pagination : PaginationQuery.t;
  _filter_engine : FilterEngine.t;
  _sort_engine : SortEngine.t;
  _pagination_engine : PaginationEngine.t
}.

Definition __init__ (request : Request) (filters : option (list Filter.t))
    (sorting : option SortingQuery.t) (pagination : PaginationQuery.t)
    (or_filters : option (list OrFilterGroup.t)) (strict_mode : bool)
    (use_window_function : option bool) : t :=
  {| request := request;
     filters := filters;
     or_filters := or_filters;
     sorting := sorting;
     pagination := pagination;
     _filter_engine := FilterEngine.__init__ strict_mode;
     _sort_engine := SortEngine.mk strict_mode;
     _pagination_engine :=
       PaginationEngine.mk pagination request use_window_function |}.

Definition with_filter_engine (self : t) (engine : FilterEngine.t) : t :=
  {| request := request self;
     filters := filters self;
     or_filters := or_filters self;
     sorting := sorting self;
     pagination := pagination self;
     _filter_engine := engine;
     _sort_engine := _sort_engine self;
     _pagination_engine := _pagination_engine self |}.

(** [generate_response]; [registry] is the module-level strategy dict at
    the time of the call.  The manager comes back with the memo of its
    filter engine as the call left it. *)
Definition generate_response (registry : Registry) (self : t)
    (query : Select) (session : Session)
    : Result (PaginatedResponse.t * t) :=
  let columns_map := selected_columns query in
  '(query, engine) ←
    FilterEngine.apply_filters (_filter_engine self) registry query
      columns_map (filters self);
  '(query, engine) ←
    FilterEngine.apply_or_filter_groups engine registry query columns_map
      (or_filters self);
  let self := with_filter_engine self engine in
  query ← SortEngine.apply_sort (_sort_engine self) query columns_map
            (sorting self);
  '(data_page, total_items) ←
    PaginationEngine.paginate_with_count (_pagination_engine self) query
      session;
  response ←
    PaginationEngine.call_build_response (_pagination_engine self)
      [("total_items", PaginationEngine.ATotal (Some total_items));
       ("data_page", PaginationEngine.AData data_page);
       ("filters", PaginationEngine.AFilters (filters self));
       ("or_filters", PaginationEngine.AOrFilters (or_filters self));
       ("sorting", PaginationEngine.ASorting (sorting self))];
  Ok (response, self).

(** The [strict_mode] property and its setter, which writes to both
    engines. *)
Definition strict_mode (self : t) : bool :=
  FilterEngine.strict_mode (_filter_engine self).

Definition set_strict_mode (self : t) (value : bool) : t :=
  {| request := request self;
     filters := filters self;
     or_filters := or_filters self;
     sorting := sorting self;
     pagination := pagination self;
     _filter_engine :=
       FilterEngine.mk value (FilterEngine._type_cache (_filter_engine self));
     _sort_engine := SortEngine.mk value;
     _pagination_engine := _pagination_engine self |}.

(** [apply_config], for a manager whose [pagination] is the object its
    pagination engine holds, as [__init__] leaves it: the new page and
    per_page show in both. *)
Definition apply_config (self : t) (config : FSPConfig.t) : Result t :=
  let self := set_strict_mode self (FSPConfig.strict_mode config) in
  page ← FSPConfig.validate_page config
            (PaginationQuery.page (pagination self));
  let per_page := FSPConfig.validate_per_page config
                    (PaginationQuery.per_page (pagination self)) in
  let pagination := PaginationQuery.mk page per_page in
  Ok {| request := request self;
        filters := filters self;
        or_filters := or_filters self;
        sorting := sorting self;
        pagination := pagination;
        _filter_engine := _filter_engine self;
        _sort_engine := _sort_engine self;
        _pagination_engine :=
          PaginationEngine.mk pagination
            (PaginationEngine.request (_pagination_engine self))
            (PaginationEngine.use_window_function
               (_pagination_engine self)) |}.

Definition set_filters (self : t) (filters : option (list Filter.t)) : t :=
  {| request := request self;
     filters := filters;
     or_filters := or_filters self;
     sorting := sorting self;
     pagination := pagination self;
     _filter_engine := _filter_engine self;
     _sort_engine := _sort_engine self;
     _pagination_engine := _pagination_engine self |}.

Definition set_or_filters (self : t)
    (or_filters : option (list OrFilterGroup.t)) : t :=
  {| request := request self;
     filters := filters self;
     or_filters := or_filters;
     sorting := sorting self;
     pagination := pagination self;
     _filter_engine := _filter_engine self;
     _sort_engine := _sort_engine self;
     _pagination_engine := _pagination_engine self |}.

Definition set_sorting (self : t) (sorting : option SortingQuery.t) : t :=
  {| request := request self;
     filters := filters self;
     or_filters := or_filters self;
     sorting := sorting;
     pagination := pagination self;
     _filter_engine := _filter_engine self;
     _sort_engine := _sort_engine self;
     _pagination_engine := _pagination_engine self |}.

Definition with_filters (self : t) (new : option (list Filter.t)) : t :=
  match new with
  | None | Some [] => self
  | Some new =>
      match filters self with
      | None | Some [] => set_filters self (Some new)
      | Some old => set_filters self (Some (old ++ new))
      end
  end.

Definition with_or_filters (self : t)
    (new : option (list OrFilterGroup.t)) : t :=
  match new with
  | None | Some [] => self
  | Some new =>
      match or_filters self with
      | None | Some [] => set_or_filters self (Some new)
      | Some old => set_or_filters self (Some (old ++ new))
      end
  end.

(** A [SortingQuery] is a truthy object, so only [None] is skipped. *)
Definition with_sorting (self : t) (new : option SortingQuery.t) : t :=
  match new with
  | None => self
  | Some _ => set_sorting self new
  end.

End FSPManager.

(** ** builder.py *)

(** What the builder methods take as a value: a [str], an [int], a
    [float], a [bool], a [date] or a [datetime].  A float carries what
    [str] prints for it, a date or datetime what [isoformat()] returns. *)
Inductive BuilderValue : Type :=
  | VStr (s : string)
  | VInt (z : Z)
  | VFloat (printed : string)
  | VBool (b : bool)
  | VDate (isoformat : string)
  | VDatetime (isoformat : string).

Module FilterBuilder.

Record t : Type := mk { _filters : list Filter.t }.

(** [FilterBuilder()] *)
Definition __init__ : t := {| _filters := [] |}.

Definition add_filter (self : t) (field : string) (operator : FilterOperator)
    (value : string) : t :=
  {| _filters := _filters self ++ [Filter.mk field operator value] |}.

Definition add_filters (self : t) (filters : list Filter.t) : t :=
  {| _filters := _filters self ++ filters |}.

Definition build (self : t) : option (list Filter.t) :=
  match _filters self with
  | [] => None
  | fs => Some fs
  end.

Definition __len__ (self : t) : Z := Z.of_nat (length (_filters self)).

Definition __bool__ (self : t) : bool :=
  match _filters self with
  | [] => false
  | _ => true
  end.

End FilterBuilder.

Module FieldBuilder.

(** A field builder refers to its parent [FilterBuilder], a shared
    object: every method below takes the state of the parent at the time
    of the call and hands back the parent as the call leaves it. *)
Record t : Type := mk { _field : string }.

(** [FieldBuilder(filter_builder, field)], which is what
    [filter_builder.where(field)] returns. *)
Definition __init__ (field : string) : t := {| _field := field |}.

Definition _add_filter (self : t) (parent : FilterBuilder.t)
    (operator : FilterOperator) (value : string) : FilterBuilder.t :=
  {| FilterBuilder._filters :=
       FilterBuilder._filters parent
       ++ [Filter.mk (_field self) operator value] |}.

Definition _to_str (value : BuilderValue) : Result string :=
  match value with
  | VBool b => Ok (if b then "true" else "false")
  | VDatetime isoformat => Ok isoformat
  | VDate isoformat => Ok isoformat
  | VStr s => Ok s
  | VInt z => str_of_int z
  | VFloat printed => Ok printed
  end.

Definition eq (self : t) (parent : FilterBuilder.t) (value : BuilderValue)
    : Result FilterBuilder.t :=
  s ← _to_str value; Ok (_add_filter self parent EQ s).

Definition ne (self : t) (parent : FilterBuilder.t) (value : BuilderValue)
    : Result FilterBuilder.t :=
  s ← _to_str value; Ok (_add_filter self parent NE s).

Definition gt (self : t) (parent : FilterBuilder.t) (value : BuilderValue)
    : Result FilterBuilder.t :=
  s ← _to_str value; Ok (_add_filter self parent GT s).

Definition gte (self : t) (parent : FilterBuilder.t) (value : BuilderValue)
    : Result FilterBuilder.t :=
  s ← _to_str value; Ok (_add_filter self parent GTE s).

Definition lt (self : t) (parent : FilterBuilder.t) (value : BuilderValue)
    : Result FilterBuilder.t :=
  s ← _to_str value; Ok (_add_filter self parent LT s).

Definition lte (self : t) (parent : FilterBuilder.t) (value : BuilderValue)
    : Result FilterBuilder.t :=
  s ← _to_str value; Ok (_add_filter self parent LTE s).

Definition like (self : t) (parent : FilterBuilder.t) (pattern : string)
    : FilterBuilder.t := _add_filter self parent LIKE pattern.
Definition not_like (self : t) (parent : FilterBuilder.t) (pattern : string)
    : FilterBuilder.t := _add_filter self parent NOT_LIKE pattern.
Definition ilike (self : t) (parent : FilterBuilder.t) (pattern : string)
    : FilterBuilder.t := _add_filter self parent ILIKE pattern.
Definition not_ilike (self : t) (parent : FilterBuilder.t) (pattern : string)
    : FilterBuilder.t := _add_filter self parent NOT_ILIKE pattern.

Definition in_ (self : t) (parent : FilterBuilder.t)
    (values : list BuilderValue) : Result FilterBuilder.t :=
  strs ← map_result _to_str values;
  Ok (_add_filter self parent IN (join "," strs)).

Definition not_in (self : t) (parent : FilterBuilder.t)
    (values : list BuilderValue) : Result FilterBuilder.t :=
  strs ← map_result _to_str values;
  Ok (_add_filter self parent NOT_IN (join "," strs)).

Definition between (self : t) (parent : FilterBuilder.t)
    (low high : BuilderValue) : Result FilterBuilder.t :=
  l ← _to_str low;
  h ← _to_str high;
  Ok (_add_filter self parent BETWEEN (l +:+ "," +:+ h)).

Definition is_null (self : t) (parent : FilterBuilder.t) : FilterBuilder.t :=
  _add_filter self parent IS_NULL "".
Definition is_not_null (self : t) (parent : FilterBuilder.t)
    : FilterBuilder.t := _add_filter self parent IS_NOT_NULL "".
Definition starts_with (self : t) (parent : FilterBuilder.t) (prefix : string)
    : FilterBuilder.t := _add_filter self parent STARTS_WITH prefix.
Definition ends_with (self : t) (parent : FilterBuilder.t) (suffix : string)
    : FilterBuilder.t := _add_filter self parent ENDS_WITH suffix.
Definition contains (self : t) (parent : FilterBuilder.t) (substring : string)
    : FilterBuilder.t := _add_filter self parent CONTAINS substring.

End FieldBuilder.

(** ** presets.py *)

Module CommonFilters.

Definition active (deleted_field : string) : list Filter.t :=
  [Filter.mk deleted_field EQ "false"].

Definition deleted (deleted_field : string) : list Filter.t :=
  [Filter.mk deleted_field EQ "true"].

(** [start] and [end]: [None], or a datetime, which carries what
    [isoformat()] returns. *)
Definition date_range (date_field : string) (start end_ : option string)
    : Result (list Filter.t) :=
  match start, end_ with
  | None, None => Raise ValueError
  | _, _ =>
      let filters := [] in
      let filters :=
        match start with
        | Some isoformat => filters ++ [Filter.mk date_field GTE isoformat]
        | None => filters
        end in
      let filters :=
        match end_ with
        | Some isoformat => filters ++ [Filter.mk date_field LTE isoformat]
        | None => filters
        end in
      Ok filters
  end.

Definition not_null (field : string) : list Filter.t :=
  [Filter.mk field IS_NOT_NULL ""].

Definition is_null (field : string) : list Filter.t :=
  [Filter.mk field IS_NULL ""].

Definition enabled (enabled_field : string) : list Filter.t :=
  [Filter.mk enabled_field EQ "true"].

Definition disabled (enabled_field : string) : list Filter.t :=
  [Filter.mk enabled_field EQ "false"].

Definition operator_map : list (string * FilterOperator) :=
  [("contains", CONTAINS); ("starts_with", STARTS_WITH);
   ("ends_with", ENDS_WITH)].

Definition search (field term match_type : string) : Result (list Filter.t) :=
  match snd <$> (snd <$> list_find (fun kv => kv.1 = match_type)
                           operator_map) with
  | None => Raise ValueError
  | Some operator => Ok [Filter.mk field operator term]
  end.

End CommonFilters.

(** ** The words of the specification *)

(** [ceil(a / b)] on exact quotients, for [0 < b]. *)
Definition exact_ceil_div (a b : Z) : Z := - ((- a) / b).

(** A field resolves to a stored column, else to a computed attribute of
    the entity of the query, else to nothing. *)
Definition resolves (query : Select) (columns_map : gmap string Column)
    (field : string) : bool :=
  match columns_map !! field with
  | Some _ => true
  | None =>
      match FilterEngine.get_entity_attribute query field with
      | Ok (Some _) => true
      | _ => false
      end
  end.

(** Whether the field of a filter resolves. *)
Definition known_filter (query : Select) (columns_map : gmap string Column)
    (f : Filter.t) : bool :=
  resolves query columns_map (Filter.field f).

(** The column a field resolves to: the stored column of that name, else
    the computed attribute of that name of the entity of the query. *)
Definition resolved_column (query : Select)
    (columns_map : gmap string Column) (field : string) : option Column :=
  match columns_map !! field with
  | Some c => Some c
  | None =>
      match FilterEngine.get_entity_attribute query field with
      | Ok (Some c) => Some c
      | _ => None
      end
  end.

(** What a filter on a known field adds to the query when the engine is
    left with the memo [cache]: the condition, if any, that the strategy of
    its operator builds for the column of its field and the type that the
    memo holds for that column. *)
Definition built_condition (registry : Registry) (query : Select)
    (columns_map : gmap string Column) (cache : gmap Z (option PyType))
    (f : Filter.t) (condition : option Pred) : Prop :=
  exists column,
    resolved_column query columns_map (Filter.field f) = Some column
    /\ FilterEngine.build_filter_condition registry column f
         (default None (cache !! col_id column)) = Ok condition.

(** The expression a condition matches a pattern against. *)
Fixpoint matched_operand (p : Pred) : option SqlExpr :=
  match p with
  | PLike e _ | PILike e _ => Some e
  | PNot q => matched_operand q
  | _ => None
  end.

(** What the pattern strategies match against: the column itself where it
    has [ilike], else its lower-cased form. *)
Definition pattern_operand (column : Column) : SqlExpr :=
  if has_ilike column then ECol column else ELower (ECol column).

(** Whether an expression casts anything to text. *)
Fixpoint casts_to_text (e : SqlExpr) : bool :=
  match e with
  | ECol _ => false
  | ELower e' => casts_to_text e'
  | ECast e' target =>
      match target with
      | KText => true
      | _ => casts_to_text e'
      end
  end.

(** The dialect name the detection reads: off [session.bind], or, when the
    session has no bind, off [session.sync_session.bind]. *)
Definition bind_dialect_name (b : Bind) (n : PyValue) : Prop :=
  exists d, dialect b = Present d /\ name d = Present n.

Definition has_no_bind (session : Session) : Prop :=
  bind session = Absent \/ bind session = Present None
  \/ bind session = Fails AttributeError.

Definition reads_dialect_name (session : Session) (n : PyValue) : Prop :=
  (exists b, bind session = Present (Some b) /\ bind_dialect_name b n)
  \/ (has_no_bind session
      /\ exists ss b, sync_session session = Present (Some ss)
                      /\ sync_bind ss = Present (Some b)
                      /\ bind_dialect_name b n).

(** The rows of the requested page. *)
Definition page_rows (self : PaginationEngine.t) (query : Select)
    (session : Session) : list Row :=
  exec_offset_limit session query (PaginationEngine.offset self)
    (PaginationQuery.per_page (PaginationEngine.pagination self)).

(** Every row of a result carries the same column names. *)
Definition uniform_rows (names : list string) (rows : list Row) : Prop :=
  Forall (fun r : Row => r.*1 = names) rows.

(** What the window path makes of a row of the subquery: the bare value
    of a row of one column, an instance of its namedtuple class of any
    other row. *)
Definition window_item (r : Row) : PaginatedResponse.item :=
  match r with
  | [(_, v)] => PaginatedResponse.Scalar v
  | _ => PaginatedResponse.Tuple r
  end.

(** The values that an item of a page carries, in the order of the
    columns. *)
Definition item_values (i : PaginatedResponse.item) : list PyValue :=
  match i with
  | PaginatedResponse.Scalar v => [v]
  | PaginatedResponse.Instance fields
  | PaginatedResponse.SqlRow fields
  | PaginatedResponse.Tuple fields => fields.*2
  end.

(** ** Notions the further properties are stated with *)

(** How often a character occurs in a string. *)
Fixpoint count_char (c : ascii) (s : string) : nat :=
  match s with
  | EmptyString => O
  | String c' s' => (if Ascii.eqb c' c then 1 else 0) + count_char c s'
  end.

(** A string without surrounding white space and without a comma: a piece
    of a comma-separated value that is read back as it was written. *)
Definition plain (s : string) : Prop :=
  strip s = s /\ count_char "," s = O.

(** The value a column of Python type [pytype] holds for a builder value
    of that type. *)
Definition python_value (pytype : PyType) (value : BuilderValue)
    : option PyValue :=
  match pytype, value with
  | TInt, VInt z => Some (PyInt z)
  | TBool, VBool b => Some (PyBool b)
  | TStr, VStr s => Some (PyStr s)
  | _, _ => None
  end.

(** Whether a builder value can stand in a comma-separated list: an int,
    a bool, or a plain string. *)
Definition listable (value : BuilderValue) : Prop :=
  match value with
  | VStr s => plain s
  | VInt _ | VBool _ => True
  | _ => False
  end.

(** The comparison each of the six comparison operators stands for. *)
Definition comparison (operator : FilterOperator)
    : option (SqlExpr -> PyValue -> Pred) :=
  match operator with
  | EQ => Some PEq
  | NE => Some PNe
  | GT => Some PGt
  | GTE => Some PGe
  | LT => Some PLt
  | LTE => Some PLe
  | _ => None
  end.

(** The builder method of each comparison operator. *)
Definition comparison_method (operator : FilterOperator)
    : option (FieldBuilder.t -> FilterBuilder.t -> BuilderValue
              -> Result FilterBuilder.t) :=
  match operator with
  | EQ => Some FieldBuilder.eq
  | NE => Some FieldBuilder.ne
  | GT => Some FieldBuilder.gt
  | GTE => Some FieldBuilder.gte
  | LT => Some FieldBuilder.lt
  | LTE => Some FieldBuilder.lte
  | _ => None
  end.

(** How the engine learns the Python type of a column: it is handed over,
    or read off the column. *)
Definition typed_as (column : Column) (pytype : PyType)
    (given : option PyType) : Prop :=
  given = Some pytype
  \/ (given = None /\ python_type column = Present pytype).

(** A string that is empty or starts with a character that is no white
    space. *)
Definition starts_clean (s : string) : Prop :=
  match s with
  | EmptyString => True
  | String c _ => is_space c = false
  end.

(** The filters of a manager or a builder result, [None] read as no
    filters. *)
Definition filter_list {A} (filters : option (list A)) : list A :=
  default [] filters.

(** The query parameters hold filter [f] at index [i] of the indexed
    format. *)
Definition filter_at (query_params : QueryParams) (i : Z) (f : Filter.t)
    : Prop :=
  exists index,
    str_of_int i = Ok index
    /\ qp_get query_params (indexed_key index "field")
       = Some (Filter.field f)
    /\ qp_get query_params (indexed_key index "operator")
       = Some (FilterOperator_value (Filter.operator f))
    /\ qp_get query_params (indexed_key index "value")
       = Some (Filter.value f).

(** The query parameters have no field at index [i] of the indexed
    format. *)
Definition no_filter_at (query_params : QueryParams) (i : Z) : Prop :=
  exists index,
    str_of_int i = Ok index
    /\ qp_get query_params (indexed_key index "field") = None.

(** The key of the field at index [i] of the indexed format. *)
Definition field_key (i : Z) : string :=
  match str_of_int i with
  | Ok index => indexed_key index "field"
  | Raise _ => EmptyString
  end.

(** The pagination engine of a request for page [page]. *)
Definition engine_at (request : Request) (use_window_function : option bool)
    (page per_page : Z) : PaginationEngine.t :=
  PaginationEngine.mk (PaginationQuery.mk page per_page) request
    use_window_function.

(** The simple format of the query string for a list of filters:
    [field=..&operator=..&value=..] once for each filter. *)
Definition simple_params (filters : list Filter.t) : QueryParams :=
  filters ≫= fun f =>
    [("field", Filter.field f);
     ("operator", FilterOperator_value (Filter.operator f));
     ("value", Filter.value f)].

(** The three strings of a filter. *)
Definition triple (f : Filter.t) : string * string * string :=
  (Filter.field f, FilterOperator_value (Filter.operator f), Filter.value f).

(** The field names that a value of [search_fields] lists: its pieces
    between the commas, in their order, without the white space around them
    and without the pieces that are empty then. *)
Definition search_field_names (raw : string) : list string :=
  filter (fun name => name <> "") (strip <$> split "," raw).

(** ** Example data: the model of the test-suite *)

Module Fixture.

(** A date library that rejects every string; the closed examples below
    use no date columns. *)
Definition no_dates : DateLib :=
  {| fromisoformat := fun _ => Raise ValueError;
     parse := fun _ => Raise ParserError |}.

Definition id_col : Column :=
  {| col_id := 1; col_key := "id"; col_kind := KNumeric;
     python_type := Present TInt; has_ilike := true |}.
Definition name_col : Column :=
  {| col_id := 2; col_key := "name"; col_kind := KText;
     python_type := Present TStr; has_ilike := true |}.
Definition age_col : Column :=
  {| col_id := 3; col_key := "age"; col_kind := KNumeric;
     python_type := Present TInt; has_ilike := true |}.
Definition active_col : Column :=
  {| col_id := 4; col_key := "active"; col_kind := KBoolean;
     python_type := Present TBool; has_ilike := true |}.

(** The [age] column on a backend without a native [ilike]. *)
Definition age_col_plain : Column :=
  {| col_id := 3; col_key := "age"; col_kind := KNumeric;
     python_type := Present TInt; has_ilike := false |}.

Definition columns_map : gmap string Column :=
  <["id" := id_col]> (<["name" := name_col]> (<["age" := age_col]>
    (<["active" := active_col]> ∅))).

(** The mapped class: its columns are instrumented attributes, anything
    else is missing. *)
Definition entity : Entity :=
  {| ent_getattr := fun field =>
       match columns_map !! field with
       | Some c => Present (Some (EObject (Present (Ok c))))
       | None => Absent
       end |}.

(** [select(Model)] *)
Definition query : Select :=
  {| selection := SelectEntity;
     selected_columns := columns_map;
     column_descriptions := Present [Some entity];
     whereclause := [];
     order_by_clauses := [] |}.

Definition item_row (i : Z) : Row :=
  [("id", PyInt (i + 1)); ("name", PyStr "Item"); ("age", PyInt (20 + i));
   ("active", PyBool true)].

(** Fifteen rows, as the pagination tests seed them. *)
Definition fifteen_rows : list Row :=
  item_row <$> [0; 1; 2; 3; 4; 5; 6; 7; 8; 9; 10; 11; 12; 13; 14].

(** A session on a PostgreSQL database that answers every query with the
    fifteen rows. *)
Definition pg_session : Session :=
  {| bind := Present (Some {| dialect :=
                Present {| name := Present (PyStr "postgresql") |} |});
     sync_session := Absent;
     rows_of := fun _ => fifteen_rows |}.

(** A bare object: no [bind], no [sync_session]. *)
Definition bare_session : Session :=
  {| bind := Absent; sync_session := Absent;
     rows_of := fun _ => fifteen_rows |}.

Definition request : Request :=
  {| include_query_params := fun page per_page =>
       "http://example.com?page=1&per_page=10" |}.

(** [select(Model.name)] *)
Definition name_query : Select :=
  {| selection := SelectColumn;
     selected_columns := {["name" := name_col]};
     column_descriptions := Present [Some entity];
     whereclause := [];
     order_by_clauses := [] |}.

(** A session that answers every query with two names. *)
Definition name_session : Session :=
  {| bind := Absent; sync_session := Absent;
     rows_of := fun _ => [[("name", PyStr "a")]; [("name", PyStr "b")]] |}.

(** Two filters of the test-suite on the model of the test-suite. *)
Definition two_filters : list Filter.t :=
  [Filter.mk "age" GTE "30"; Filter.mk "active" EQ "true"].

(** The query string of the docstring, with a third filter behind a gap
    and a filter in the simple format, which are not read. *)
Definition indexed_example : QueryParams :=
  [("filters[0][field]", "age"); ("filters[0][operator]", "gte");
   ("filters[0][value]", "18");
   ("filters[1][field]", "name"); ("filters[1][operator]", "ilike");
   ("filters[1][value]", "joy");
   ("filters[3][field]", "id"); ("filters[3][operator]", "eq");
   ("filters[3][value]", "7");
   ("field", "active"); ("operator", "eq"); ("value", "true")].

End Fixture.

(* ================================================================== *)
(** * Part III: properties                                             *)
(* ================================================================== *)

(** ** The embedding on the inputs of the test-suite *)

Example split_values_trims :
  _split_values "a, b , c" = ["a"; "b"; "c"]
  /\ _split_values "" = [""]
  /\ _split_values "a,b,,c" = ["a"; "b"; ""; "c"].
Proof. repeat split. Qed.

Example coerce_integer_with_float_string :
  _coerce_value (H := Fixture.no_dates) Fixture.age_col "42" None
  = Ok (PyInt 42)
  /\ _coerce_value (H := Fixture.no_dates) Fixture.age_col "42.0" None
     = Ok (PyInt 42)
  /\ _coerce_value (H := Fixture.no_dates) Fixture.age_col "abc" None
     = Ok (PyStr "abc").
Proof. repeat split. Qed.

(** [int] and [float] skip blanks around a number, but not the separators
    U+001C to U+001F, which [str.strip] removes. *)
Example number_white_space :
  int_of_str " 12 " = Ok 12
  /\ float_of_str " inf " = Ok (FInf false)
  /\ strip (String "031"%char "12") = "12"
  /\ int_of_str (String "031"%char "12") = Raise ValueError
  /\ float_of_str (String "031"%char "inf") = Raise ValueError.
Proof. repeat split. Qed.

Example coerce_boolean_variations :
  Forall (fun raw => _coerce_value (H := Fixture.no_dates) Fixture.active_col
                       raw None = Ok (PyBool true))
    ["true"; "True"; "TRUE"; "1"; "yes"; "Yes"; "y"; "Y"; "t"; "T"]
  /\ Forall (fun raw => _coerce_value (H := Fixture.no_dates)
                          Fixture.active_col raw None = Ok (PyBool false))
       ["false"; "False"; "FALSE"; "0"; "no"; "No"; "n"; "N"; "f"; "F"].
Proof.
  split; repeat first [apply List.Forall_nil | apply List.Forall_cons];
    reflexivity.
Qed.

Example between_via_strategy :
  FilterEngine.build_filter_condition (FILTER_STRATEGIES (H := Fixture.no_dates))
    Fixture.age_col (Filter.mk "age" BETWEEN "20,40") None
  = Ok (Some (PBetween (ECol Fixture.age_col) (PyInt 20) (PyInt 40)))
  /\ FilterEngine.build_filter_condition
       (FILTER_STRATEGIES (H := Fixture.no_dates))
       Fixture.age_col (Filter.mk "age" BETWEEN "20") None
     = Ok None.
Proof. split; reflexivity. Qed.

Example paginate_last_page :
  let engine page :=
    PaginationEngine.mk (PaginationQuery.mk page 5) Fixture.request None in
  length (PaginationEngine.paginate (engine 3) Fixture.query
            Fixture.bare_session) = 5%nat
  /\ PaginationEngine.count_total (engine 3) Fixture.query
       Fixture.bare_session = 15
  /\ PaginationEngine.paginate (engine 1) Fixture.query Fixture.bare_session
     ++ PaginationEngine.paginate (engine 2) Fixture.query Fixture.bare_session
     ++ PaginationEngine.paginate (engine 3) Fixture.query Fixture.bare_session
     = PaginatedResponse.Instance <$> Fixture.fifteen_rows.
Proof. repeat split. Qed.

Example detect_postgresql_on_mocks :
  _detect_postgresql Fixture.pg_session = Ok true
  /\ _detect_postgresql Fixture.bare_session = Ok false
  /\ _detect_postgresql
       {| bind := Absent;
          sync_session := Present (Some {| sync_bind := bind Fixture.pg_session |});
          rows_of := fun _ => [] |} = Ok true
  /\ _detect_postgresql
       {| bind := Present (Some {| dialect :=
                     Present {| name := Present (PyStr "mysql") |} |});
          sync_session := Absent;
          rows_of := fun _ => [] |} = Ok false.
Proof. repeat split. Qed.

Example build_response_basic :
  (fun response =>
     Pagination.total_pages (Meta.pagination (PaginatedResponse.meta response)))
  <$> PaginationEngine.build_response
        (PaginationEngine.mk (PaginationQuery.mk 1 10) Fixture.request None)
        (Some 25) [] None None
  = Ok (Some 3)
  /\ (fun response =>
        Pagination.total_pages
          (Meta.pagination (PaginatedResponse.meta response)))
     <$> PaginationEngine.build_response
           (PaginationEngine.mk (PaginationQuery.mk 1 10) Fixture.request None)
           (Some 0) [] None None
     = Ok (Some 1).
Proof. split; vm_compute; reflexivity. Qed.

(** ** The monad of fallible computations *)

Lemma bind_Ok {A B} (a : A) (f : A -> Result B) : Ok a ≫= f = f a.
Proof. reflexivity. Qed.

Lemma bind_Raise {A B} (e : Exn) (f : A -> Result B) : Raise e ≫= f = Raise e.
Proof. reflexivity. Qed.

(** ** config.py: [validate_per_page] *)

Lemma post_init_bounds (cfg : FSPConfig.t) :
  FSPConfig.__post_init__ cfg = Ok () ->
  1 <= FSPConfig.min_per_page cfg <= FSPConfig.max_per_page cfg.
Proof.
  unfold FSPConfig.__post_init__.
  repeat (case_match; try discriminate); lia.
Qed.

(** C10: for a constructed configuration and any [per_page],
    [validate_per_page] answers a value between [min_per_page] and
    [max_per_page]: the lower bound for a smaller request, the upper bound for
    a larger one, the request itself when it is in range; validating twice
    changes nothing. *)
Theorem validate_per_page_clamps (cfg : FSPConfig.t) (per_page : Z) :
  FSPConfig.__post_init__ cfg = Ok () ->
  let lo := FSPConfig.min_per_page cfg in
  let hi := FSPConfig.max_per_page cfg in
  let v := FSPConfig.validate_per_page cfg per_page in
  lo <= v <= hi
  /\ (per_page < lo -> v = lo)
  /\ (hi < per_page -> v = hi)
  /\ (lo <= per_page <= hi -> v = per_page)
  /\ FSPConfig.validate_per_page cfg v = v.
Proof.
  intros Hcfg lo hi v. apply post_init_bounds in Hcfg.
  subst lo hi v. unfold FSPConfig.validate_per_page.
  repeat case_match; lia.
Qed.

Lemma validate_per_page_clamps_witness :
  FSPConfig.__post_init__ FSPConfig.default = Ok ()
  /\ FSPConfig.validate_per_page FSPConfig.default 500 = 100.
Proof.
  split; [reflexivity |].
  destruct (validate_per_page_clamps FSPConfig.default 500 eq_refl)
    as (_ & _ & Hhi & _).
  apply Hhi. simpl. lia.
Defined.

(** ** filters.py: coercion *)

Section CoercionProperties.
Context `{DateLib}.

(** The target type of a coercion: the pre-fetched type, else what the
    column reports. *)
Lemma coerce_target (column : Column) (raw : string) (t : PyType) :
  python_type column = Present t ->
  _coerce_value column raw None = _coerce_value column raw (Some t).
Proof. intros Ht. unfold _coerce_value. rewrite Ht. reflexivity. Qed.

Lemma coerce_bool_value (column : Column) (raw : string) :
  _coerce_value column raw (Some TBool) =
  Ok (PyBool
        (let val := lower (strip raw) in
         if str_in val ["true"; "1"; "t"; "yes"; "y"] then true
         else if str_in val ["false"; "0"; "f"; "no"; "n"] then false
         else str_truthy raw)).
Proof.
  unfold _coerce_value. cbn -[str_in lower strip].
  repeat case_match; reflexivity.
Qed.

(** C8: on a boolean target type, [_coerce_value] always answers a
    boolean, never the raw string: a string whose trimmed lower-case form
    is in neither word list goes through [bool(raw)], so it coerces to
    [True] unless it is empty, and to [False] when it is empty. *)
Theorem coerce_bool_never_raw (column : Column) (raw : string)
    (pytype : option PyType) :
  pytype = Some TBool \/ (pytype = None /\ python_type column = Present TBool) ->
  let val := lower (strip raw) in
  (exists b, _coerce_value column raw pytype = Ok (PyBool b))
  /\ _coerce_value column raw pytype <> Ok (PyStr raw)
  /\ (str_in val ["true"; "1"; "t"; "yes"; "y"] = false ->
      str_in val ["false"; "0"; "f"; "no"; "n"] = false ->
      (raw <> "" -> _coerce_value column raw pytype = Ok (PyBool true))
      /\ (raw = "" -> _coerce_value column raw pytype = Ok (PyBool false))).
Proof.
  intros Hty val.
  assert (Heq : _coerce_value column raw pytype
                = _coerce_value column raw (Some TBool)).
  { destruct Hty as [-> | [-> Hcol]]; [reflexivity |].
    by apply coerce_target. }
  subst val. rewrite Heq, coerce_bool_value. cbv zeta.
  split; [eauto |]. split; [discriminate |].
  intros -> ->. split.
  - intros Hne. destruct raw; [done | reflexivity].
  - intros ->. reflexivity.
Qed.

(** C2: on an integer target type a raw value that [int] rejects and
    [float] reads as an infinity is not returned unchanged: [int] of the
    infinity raises [OverflowError], which no handler of [_coerce_value]
    catches. *)
Theorem coerce_int_inf_raises (column : Column) (raw : string)
    (negative : bool) :
  int_of_str raw = Raise ValueError ->
  float_of_str raw = Ok (FInf negative) ->
  _coerce_value column raw (Some TInt) = Raise OverflowError.
Proof.
  intros Hint Hfloat. unfold _coerce_value.
  cbn -[str_in lower strip int_of_str float_of_str].
  by rewrite Hint, Hfloat.
Qed.

Lemma int_of_str_raises (s : string) (e : Exn) :
  int_of_str s = Raise e -> e = ValueError.
Proof.
  unfold int_of_str. repeat case_match; congruence.
Qed.

Lemma float_of_str_raises (s : string) (e : Exn) :
  float_of_str s = Raise e -> e = ValueError.
Proof.
  unfold float_of_str. repeat case_match; congruence.
Qed.

(** On an integer target type coercion answers an integer or the raw
    string, and the one exception it lets through is [OverflowError]. *)
Lemma coerce_int_outcomes (column : Column) (raw : string) :
  (exists z, _coerce_value column raw (Some TInt) = Ok (PyInt z))
  \/ _coerce_value column raw (Some TInt) = Ok (PyStr raw)
  \/ _coerce_value column raw (Some TInt) = Raise OverflowError.
Proof.
  unfold _coerce_value.
  cbn -[str_in lower strip int_of_str float_of_str].
  destruct (int_of_str raw) as [z | e] eqn:Hint; cbn; [eauto |].
  apply int_of_str_raises in Hint as ->. cbn.
  destruct (float_of_str raw) as [x | e] eqn:Hfloat; cbn.
  - destruct x as [| negative | negative m e]; cbn; [eauto | eauto |].
    destruct (0 <=? e); cbn; eauto.
  - apply float_of_str_raises in Hfloat as ->. cbn. eauto.
Qed.

(** Apart from integer and datetime targets, coercion never raises. *)
Lemma coerce_total_other (column : Column) (raw : string)
    (pytype : option PyType) :
  pytype <> Some TInt -> pytype <> Some TDatetime ->
  (pytype = None -> python_type column <> Present TInt
                    /\ python_type column <> Present TDatetime) ->
  exists v, _coerce_value column raw pytype = Ok v.
Proof.
  intros Hint Hdt Hcol. unfold _coerce_value.
  destruct pytype as [t |].
  - cbn -[str_in lower strip].
    destruct t; try congruence; cbn -[str_in lower strip];
      repeat case_match; eauto;
      unfold try_except; repeat case_match; eauto; discriminate.
  - destruct (Hcol eq_refl) as [Hi Hd].
    destruct (python_type column) as [| t | e]; cbn -[str_in lower strip].
    + eauto.
    + destruct t; try congruence; cbn -[str_in lower strip];
        repeat case_match; eauto;
        unfold try_except; repeat case_match; eauto; discriminate.
    + destruct (is_AttributeError e); cbn; eauto.
Qed.

End CoercionProperties.

(** ["inf"] on an integer column. *)
Lemma coerce_int_inf_raises_witness :
  _coerce_value (H := Fixture.no_dates) Fixture.age_col "inf" (Some TInt)
  = Raise OverflowError.
Proof.
  apply (coerce_int_inf_raises (H := Fixture.no_dates) Fixture.age_col "inf"
           false); reflexivity.
Defined.

Lemma coerce_bool_never_raw_witness :
  _coerce_value (H := Fixture.no_dates) Fixture.active_col " " None
  = Ok (PyBool true).
Proof.
  destruct (coerce_bool_never_raw (H := Fixture.no_dates)
              Fixture.active_col " " None) as (_ & _ & Hfall).
  - right. split; reflexivity.
  - destruct (Hfall eq_refl eq_refl) as [Htrue _].
    apply Htrue. discriminate.
Defined.

(** ** filters.py: operator strategies *)

Section StrategyProperties.
Context `{DateLib}.

Lemma pattern_operand_no_cast (column : Column) :
  casts_to_text (pattern_operand column) = false.
Proof. unfold pattern_operand. destruct (has_ilike column); reflexivity. Qed.

(** C4: whatever the storage type of the column, the conditions of
    [ilike], [not_ilike], [starts_with], [ends_with] and [contains] match
    the pattern against the column itself, or against [lower(column)]
    where the column has no [ilike]; none of them casts the column to
    text. *)
Theorem pattern_strategies_never_cast (column : Column) (raw : string)
    (pytype : option PyType) :
  Forall (fun strategy : FilterStrategyFn =>
            exists p,
              strategy column raw pytype = Ok (Some p)
              /\ matched_operand p = Some (pattern_operand column)
              /\ casts_to_text (pattern_operand column) = false)
    [_strategy_ilike; _strategy_not_ilike; _strategy_starts_with;
     _strategy_ends_with; _strategy_contains].
Proof.
  repeat first [apply List.Forall_nil | apply List.Forall_cons];
    unfold _strategy_ilike, _strategy_not_ilike, _strategy_starts_with,
      _strategy_ends_with, _strategy_contains, _ilike_supported,
      pattern_operand;
    destruct (has_ilike column); eexists;
    (split; [reflexivity | split; reflexivity]).
Qed.

(** [contains "3"] on the integer column [age] without [ilike]:
    [lower(age) LIKE '%3%'], no cast. *)
Example contains_on_integer_column :
  _strategy_contains Fixture.age_col_plain "3" None
  = Ok (Some (PLike (ELower (ECol Fixture.age_col_plain)) "%3%")).
Proof. reflexivity. Qed.

Lemma split_values_length_2 (raw : string) :
  length (_split_values raw) = 2%nat ->
  exists v0 v1, _split_values raw = [v0; v1].
Proof.
  destruct (_split_values raw) as [| v0 [| v1 [| v2 vs]]]; try discriminate.
  eauto.
Qed.

(** C5, as the code has it: [between] answers [None], without an error,
    exactly when the split of the raw value does not have two elements; a
    condition is built only from a split into two elements, whose
    coercions are the bounds of the range, empty or not. *)
Theorem between_needs_two_elements (column : Column) (raw : string)
    (pytype : option PyType) :
  (_strategy_between column raw pytype = Ok None
   <-> length (_split_values raw) <> 2%nat)
  /\ (forall p, _strategy_between column raw pytype = Ok (Some p) ->
        exists v0 v1 low high,
          _split_values raw = [v0; v1]
          /\ _coerce_value column v0 pytype = Ok low
          /\ _coerce_value column v1 pytype = Ok high
          /\ p = PBetween (ECol column) low high)
  /\ (forall v0 v1 low high,
        _split_values raw = [v0; v1] ->
        _coerce_value column v0 pytype = Ok low ->
        _coerce_value column v1 pytype = Ok high ->
        _strategy_between column raw pytype
        = Ok (Some (PBetween (ECol column) low high))).
Proof.
  unfold _strategy_between.
  destruct (decide (length (_split_values raw) = 2%nat)) as [Hlen | Hlen].
  - destruct (split_values_length_2 raw Hlen) as (v0 & v1 & Hvals).
    rewrite Hvals. cbn.
    destruct (_coerce_value column v0 pytype) as [low | e0] eqn:H0; cbn;
      [destruct (_coerce_value column v1 pytype) as [high | e1] eqn:H1; cbn |].
    + split; [split; [discriminate | intros Hne; by destruct Hne] |].
      split.
      * intros p [= <-]. exists v0, v1, low, high. done.
      * intros ? ? ? ? [= <- <-] Hl Hh. congruence.
    + split; [split; [discriminate | intros Hne; by destruct Hne] |].
      split; [discriminate |].
      intros ? ? ? ? [= <- <-] Hl Hh. congruence.
    + split; [split; [discriminate | intros Hne; by destruct Hne] |].
      split; [discriminate |].
      intros ? ? ? ? [= <- <-] Hl Hh. congruence.
  - split; [split; [done | done] |].
    split; [discriminate |].
    intros ? ? ? ? Hvals. rewrite Hvals in Hlen. by destruct Hlen.
Qed.

End StrategyProperties.

(** The raw value ["20,"] splits into ["20"] and the empty string, and
    [between] builds a range from the two. *)
Lemma between_empty_bound_counterexample :
  ~ Forall (fun v => v <> "") (_split_values "20,")
  /\ _strategy_between (H := Fixture.no_dates) Fixture.age_col "20," None
     = Ok (Some (PBetween (ECol Fixture.age_col) (PyInt 20) (PyStr ""))).
Proof.
  split; [| reflexivity].
  intros Hall. cbn in Hall.
  apply Forall_cons_1 in Hall as [_ Hall].
  apply Forall_cons_1 in Hall as [Hne _]. by apply Hne.
Qed.

Lemma between_needs_two_elements_witness :
  _strategy_between (H := Fixture.no_dates) Fixture.age_col "20" None = Ok None
  /\ _strategy_between (H := Fixture.no_dates) Fixture.age_col "20,40" None
     = Ok (Some (PBetween (ECol Fixture.age_col) (PyInt 20) (PyInt 40))).
Proof.
  destruct (between_needs_two_elements (H := Fixture.no_dates)
              Fixture.age_col "20" None) as [[_ Hnone] _].
  destruct (between_needs_two_elements (H := Fixture.no_dates)
              Fixture.age_col "20,40" None) as (_ & _ & Hbuilt).
  split.
  - apply Hnone. cbn. lia.
  - apply (Hbuilt "20" "40"); reflexivity.
Defined.

(** ** pagination.py: dialect detection *)

Lemma bind_dialect_name_spec (b : Bind) :
  (dialect ← get_attr (dialect b);
   name ← get_attr (name dialect);
   Ok (Some (eq_str name "postgresql")))
  = Ok (Some true)
  <-> bind_dialect_name b (PyStr "postgresql").
Proof.
  unfold bind_dialect_name. destruct b as [[| d | e]]; cbn.
  - split; [discriminate | intros (d & [=] & _)].
  - destruct d as [[| n | e]]; cbn.
    + split; [discriminate | intros (d & [= <-] & [=])].
    + split.
      * intros [= Heq]. exists {| name := Present n |}. split; [done |].
        cbn. destruct n; try discriminate.
        apply String.eqb_eq in Heq. by subst.
      * intros (d & [= <-] & [= ->]). reflexivity.
    + split; [discriminate | intros (d & [= <-] & [=])].
  - split; [discriminate | intros (d & [=] & _)].
Qed.



Lemma reads_with_bind (session : Session) (b : Bind) (n : PyValue) :
  bind session = Present (Some b) ->
  reads_dialect_name session n <-> bind_dialect_name b n.
Proof.
  intros Hb. unfold reads_dialect_name, has_no_bind. rewrite Hb. split.
  - intros [(b' & [= <-] & Hn) | ([[=] | [[=] | [=]]] & _)]. done.
  - intros Hn. left. eauto.
Qed.

Lemma reads_without_bind (session : Session) (n : PyValue) :
  has_no_bind session ->
  reads_dialect_name session n
  <-> exists ss b, sync_session session = Present (Some ss)
                   /\ sync_bind ss = Present (Some b)
                   /\ bind_dialect_name b n.
Proof.
  intros Hno. unfold reads_dialect_name. split.
  - intros [(b & Hb & _) | [_ Hsync]]; [| done].
    destruct Hno as [Hno | [Hno | Hno]]; congruence.
  - intros Hsync. by right.
Qed.

Lemma reads_bind_raises (session : Session) (e : Exn) (n : PyValue) :
  bind session = Fails e -> e <> AttributeError ->
  ~ reads_dialect_name session n.
Proof.
  intros Hb He [(b & Hb' & _) | [[Hno | [Hno | Hno]] _]]; congruence.
Qed.

(** The fallback of the detection on [session.sync_session]. *)
Lemma detect_by_sync_session (session : Session) :
  (sync_session ← getattr_none (sync_session session);
   match sync_session with
   | Some sync_session =>
       bind ← getattr_none (sync_bind sync_session);
       match bind with
       | Some bind =>
           dialect ← get_attr (dialect bind);
           name ← get_attr (name dialect);
           Ok (Some (eq_str name "postgresql"))
       | None => Ok None
       end
   | None => Ok None
   end) = Ok (Some true)
  <-> exists ss b, sync_session session = Present (Some ss)
                   /\ sync_bind ss = Present (Some b)
                   /\ bind_dialect_name b (PyStr "postgresql").
Proof.
  destruct (sync_session session) as [| [ss |] | e]; cbn;
    try (split; [discriminate | intros (? & ? & [=] & _)]).
  - destruct (sync_bind ss) as [| [b |] | e] eqn:Hsb; cbn;
      try (split; [discriminate | intros (? & ? & [= <-] & ? & _); congruence]).
    + rewrite bind_dialect_name_spec. split; [eauto |].
      intros (ss' & b' & [= <-] & Hb' & Hn). congruence.
    + destruct (is_AttributeError e); cbn;
        (split; [discriminate | intros (? & ? & [= <-] & ? & _); congruence]).
  - destruct (is_AttributeError e); cbn;
      (split; [discriminate | intros (? & ? & [=] & _)]).
Qed.

Lemma try_except_some_true (body : Result (option bool)) :
  (returned ← try_except body is_Exception (Ok None);
   Ok (default false returned)) = Ok true
  <-> body = Ok (Some true).
Proof. destruct body as [[[|] |] | e]; cbn; split; congruence. Qed.

Lemma detect_postgresql_true (session : Session) :
  _detect_postgresql session = Ok true
  <-> reads_dialect_name session (PyStr "postgresql").
Proof.
  unfold _detect_postgresql. rewrite try_except_some_true.
  destruct (bind session) as [| [b |] | e] eqn:Hbind; cbn.
  - rewrite detect_by_sync_session, reads_without_bind; [done | by left].
  - by rewrite bind_dialect_name_spec, (reads_with_bind session b).
  - rewrite detect_by_sync_session, reads_without_bind;
      [done | by right; left].
  - destruct e; cbn;
      try (split; [discriminate |];
           intros Hr; by eapply reads_bind_raises in Hr).
    rewrite detect_by_sync_session, reads_without_bind;
      [done | by right; right].
Qed.

Lemma detect_postgresql_returns (session : Session) :
  exists b, _detect_postgresql session = Ok b.
Proof.
  unfold _detect_postgresql, try_except.
  repeat case_match; cbn; eauto; discriminate.
Qed.

(** C9: [_detect_postgresql] answers for every session, without raising;
    it answers [True] exactly when it read the dialect name "postgresql"
    off the bind of the session, or off the bind of its [sync_session] when
    the session has no bind; in every other case (a missing bind,
    [sync_session] or dialect, a probe that raises) it answers [False],
    and a pagination engine left on auto-detection then takes the
    two-query path. *)
Theorem detect_postgresql_total (session : Session) :
  (exists b, _detect_postgresql session = Ok b)
  /\ (_detect_postgresql session = Ok true
      <-> reads_dialect_name session (PyStr "postgresql"))
  /\ (~ reads_dialect_name session (PyStr "postgresql") ->
      _detect_postgresql session = Ok false
      /\ forall self query,
           PaginationEngine.use_window_function self = None ->
           PaginationEngine.paginate_with_count self query session
           = Ok (PaginationEngine.paginate self query session,
                 PaginationEngine.count_total self query session)).
Proof.
  split; [apply detect_postgresql_returns |].
  split; [apply detect_postgresql_true |].
  intros Hno.
  assert (Hfalse : _detect_postgresql session = Ok false).
  { destruct (detect_postgresql_returns session) as [[|] Hb]; [| done].
    by apply detect_postgresql_true in Hb. }
  split; [done |].
  intros self query Hauto.
  unfold PaginationEngine.paginate_with_count,
    PaginationEngine._should_use_window_function.
  by rewrite Hauto, Hfalse.
Qed.

Lemma detect_postgresql_total_witness :
  _detect_postgresql Fixture.bare_session = Ok false.
Proof.
  destruct (detect_postgresql_total Fixture.bare_session)
    as (_ & _ & Hfalse).
  apply Hfalse.
  intros [(b & [=] & _) | (_ & ss & b & [=] & _)].
Defined.

(** ** pagination.py: the two ways to paginate and count *)

Section WindowAndFallback.
Variables (self : PaginationEngine.t) (query : Select) (session : Session).

Lemma exec_window_rows :
  exec_window session query (PaginationEngine.offset self)
    (PaginationQuery.per_page (PaginationEngine.pagination self))
  = (fun r => {| columns := r; _total_count := exec_count session query |})
      <$> page_rows self query session.
Proof.
  unfold exec_window, page_rows, exec_offset_limit, exec_count.
  by rewrite fmap_take, fmap_drop.
Qed.

(** On an empty page the window path reports a total of 0. *)
Lemma window_on_empty_page :
  page_rows self query session = [] ->
  PaginationEngine._paginate_with_window self query session = Ok ([], 0).
Proof.
  intros Hempty. unfold PaginationEngine._paginate_with_window.
  by rewrite exec_window_rows, Hempty.
Qed.

(** A page past the last one is empty although the query has rows: the
    window path then reports 0 rows in total, the two-query path the
    number of rows. *)
Lemma window_past_last_page :
  Z.of_nat (length (rows_of session query)) <= PaginationEngine.offset self ->
  PaginationEngine._paginate_with_window self query session = Ok ([], 0)
  /\ PaginationEngine.paginate self query session = []
  /\ PaginationEngine.count_total self query session
     = Z.of_nat (length (rows_of session query)).
Proof.
  intros Hpast.
  assert (Hempty : page_rows self query session = []).
  { unfold page_rows, exec_offset_limit.
    rewrite drop_ge; [by rewrite take_nil | lia]. }
  split; [by apply window_on_empty_page |].
  split; [| reflexivity].
  unfold PaginationEngine.paginate. fold (page_rows self query session).
  by rewrite Hempty.
Qed.

Lemma window_item_single (k : string) (v : PyValue) :
  window_item [(k, v)] = PaginatedResponse.Scalar v.
Proof. reflexivity. Qed.

Lemma window_item_tuple (r : Row) :
  length r <> 1%nat -> window_item r = PaginatedResponse.Tuple r.
Proof. destruct r as [| [k v] [| kv r]]; cbn; done. Qed.

Lemma first_values (total : Z) (rows : list Row) :
  Forall (fun r : Row => length r = 1%nat) rows ->
  map_result
    (fun row : WindowRow =>
       match columns row with
       | (_, v) :: _ => Ok (PaginatedResponse.Scalar v)
       | [] => Raise (OtherException "IndexError")
       end)
    ((fun r => {| columns := r; _total_count := total |}) <$> rows)
  = Ok (window_item <$> rows).
Proof.
  induction 1 as [| r rows Hr _ IH]; [reflexivity |].
  destruct r as [| [k v] [| kv r]]; try discriminate.
  cbn. rewrite IH. reflexivity.
Qed.

Lemma mapping_get_values (r : Row) :
  NoDup r.*1 -> map_result (mapping_get r) r.*1 = Ok r.*2.
Proof.
  intros Hnd.
  assert (Hall : forall ks vs,
            Forall2 (fun k v => mapping_get r k = Ok v) ks vs ->
            map_result (mapping_get r) ks = Ok vs).
  { induction 1 as [| k v ks vs Hk _ IH]; [reflexivity |].
    cbn. rewrite Hk. cbn. rewrite IH. reflexivity. }
  apply Hall. clear Hall.
  apply Forall2_fmap. apply Forall_Forall2_diag.
  apply Forall_forall. intros [k v] Hin. cbn.
  unfold mapping_get.
  destruct (list_find (fun kv : string * PyValue => kv.1 = k) r)
    as [[i [k' v']] |] eqn:Hfind.
  - apply list_find_Some in Hfind as (Hi & Hk & _). cbn in Hk. subst k'.
    apply list_elem_of_lookup in Hin as [j Hj].
    assert (i = j) as ->.
    { eapply NoDup_lookup; [exact Hnd | |];
        rewrite list_lookup_fmap; [by rewrite Hi | by rewrite Hj]. }
    congruence.
  - apply list_find_None in Hfind.
    rewrite Forall_forall in Hfind. by destruct (Hfind _ Hin).
Qed.

Lemma named_rows (names : list string) (total : Z) (rows : list Row) :
  NoDup names -> uniform_rows names rows ->
  map_result
    (fun row : WindowRow =>
       values ← map_result (mapping_get (columns row)) names;
       Ok (PaginatedResponse.Tuple (zip names values)))
    ((fun r => {| columns := r; _total_count := total |}) <$> rows)
  = Ok (PaginatedResponse.Tuple <$> rows).
Proof.
  intros Hnd. induction 1 as [| r rows Hr _ IH]; [reflexivity |].
  cbn. rewrite <- Hr at 1. rewrite mapping_get_values by by rewrite Hr.
  cbn. rewrite IH. cbn. rewrite <- Hr, zip_fst_snd. reflexivity.
Qed.

Lemma namedtuple_fields (names : list string) :
  namedtuple names = Ok names ->
  NoDup names
  /\ filter (fun k => k <> "_total_count") (names ++ ["_total_count"]) = names.
Proof.
  unfold namedtuple. case_match eqn:Hok; [intros _ | discriminate].
  apply andb_prop in Hok as [Hvalid Hnd].
  apply bool_decide_eq_true in Hnd. split; [done |].
  rewrite filter_app. cbn.
  rewrite decide_False by (intros Hne; by apply Hne).
  rewrite app_nil_r.
  rewrite forallb_forall in Hvalid.
  induction names as [| k names IH]; [reflexivity |].
  rewrite filter_cons. rewrite decide_True.
  - f_equal. apply IH.
    + intros x Hx. apply Hvalid. by right.
    + by apply NoDup_cons_1_2 in Hnd.
  - intros ->. specialize (Hvalid "_total_count" (or_introl eq_refl)).
    discriminate.
Qed.

(** On a page that has rows the window path answers the rows of the page,
    as bare values or as named tuples, and the total of the two-query
    path. *)
Lemma window_on_nonempty_page (names : list string) :
  uniform_rows names (rows_of session query) ->
  length names = 1%nat \/ namedtuple names = Ok names ->
  page_rows self query session <> [] ->
  PaginationEngine._paginate_with_window self query session
  = Ok (window_item <$> page_rows self query session,
        PaginationEngine.count_total self query session).
Proof.
  intros Huni Hnames Hpage.
  assert (Hsub : uniform_rows names (page_rows self query session)).
  { unfold page_rows, exec_offset_limit, uniform_rows.
    apply Forall_take, Forall_drop, Huni. }
  unfold PaginationEngine._paginate_with_window,
    PaginationEngine.count_total, PaginationEngine._count_total_static.
  rewrite exec_window_rows.
  destruct (page_rows self query session) as [| r0 rows] eqn:Hrows; [done |].
  set (window_row := fun r : Row =>
         {| columns := r; _total_count := exec_count session query |}).
  assert (Hw : window_row <$> r0 :: rows
               = window_row r0 :: (window_row <$> rows)) by reflexivity.
  rewrite Hw at 1. cbv beta iota. clear Hw. subst window_row.
  cbn [columns _total_count].
  pose proof (Forall_inv Hsub) as Hr0. cbn in Hr0.
  assert (Hlen0 : length r0 = length names)
    by (by rewrite <- Hr0, length_fmap).
  destruct (decide (S (length r0) = 2%nat)) as [Hone | Hmany].
  - rewrite first_values; [reflexivity |].
    eapply Forall_impl; [exact Hsub |].
    intros r Hr. cbn in Hr.
    rewrite <- (length_fmap fst), Hr. lia.
  - destruct Hnames as [Hnames | Hnames]; [lia |].
    apply namedtuple_fields in Hnames as Hfields.
    destruct Hfields as [Hnd Hfilter].
    rewrite Hr0, Hfilter, Hnames, bind_Ok.
    rewrite named_rows by done. rewrite bind_Ok. f_equal. f_equal.
    apply Forall_fmap_ext. eapply Forall_impl; [exact Hsub |].
    intros r Hr. cbn in Hr. symmetry. apply window_item_tuple.
    rewrite <- (length_fmap fst), Hr. lia.
Qed.

(** A row of the page carries the same values on both paths. *)
Lemma item_values_agree (names : list string) (r : Row) :
  (selection query = SelectColumn -> length names = 1%nat) ->
  r.*1 = names ->
  item_values (window_item r) = item_values (exec_result query r).
Proof.
  intros Hone <-. unfold exec_result.
  destruct (selection query); destruct r as [| [k v] [| kv r]]; try reflexivity;
    specialize (Hone eq_refl); discriminate.
Qed.

(** A row of the page is the same item on both paths only for a statement
    that selects a single column. *)
Lemma window_item_exec_result (r : Row) :
  window_item r = exec_result query r -> selection query = SelectColumn.
Proof.
  unfold exec_result.
  destruct (selection query); destruct r as [| [k v] [| kv r]];
    cbn; congruence.
Qed.

End WindowAndFallback.

(** A column whose name is a keyword: the window path cannot name the
    fields of its rows, the two-query path answers the page. *)
Example window_rejects_keyword_column :
  let rows : list Row :=
    [[("id", PyInt 1); ("class", PyStr "a")];
     [("id", PyInt 2); ("class", PyStr "b")]] in
  let session :=
    {| bind := Absent; sync_session := Absent; rows_of := fun _ => rows |} in
  let engine window :=
    PaginationEngine.mk (PaginationQuery.mk 1 10) Fixture.request
      (Some window) in
  PaginationEngine.paginate_with_count (engine true) Fixture.query session
  = Raise ValueError
  /\ PaginationEngine.paginate_with_count (engine false) Fixture.query session
     = Ok (PaginatedResponse.Instance <$> rows, 2).
Proof. split; reflexivity. Qed.

(** [select(Model.name)], a statement of one column: both paths hand out
    the bare names. *)
Example window_agrees_on_single_column :
  let engine window :=
    PaginationEngine.mk (PaginationQuery.mk 1 10) Fixture.request
      (Some window) in
  let names :=
    [PaginatedResponse.Scalar (PyStr "a");
     PaginatedResponse.Scalar (PyStr "b")] in
  PaginationEngine.paginate_with_count (engine true) Fixture.name_query
    Fixture.name_session
  = Ok (names, 2)
  /\ PaginationEngine.paginate_with_count (engine false) Fixture.name_query
       Fixture.name_session
     = Ok (names, 2).
Proof. split; reflexivity. Qed.

(** C1: on a page past the last page of a query that has rows, the two
    paths of [paginate_with_count] answer different pairs: the window path
    no rows and a total of 0, the two-query path no rows and the number of
    rows of the query. *)
Theorem window_and_fallback_differ_past_last_page
    (pagination : PaginationQuery.t) (request : Request) (query : Select)
    (session : Session) :
  let window := PaginationEngine.mk pagination request (Some true) in
  let fallback := PaginationEngine.mk pagination request (Some false) in
  let total := Z.of_nat (length (rows_of session query)) in
  rows_of session query <> [] ->
  total <= (PaginationQuery.page pagination - 1)
           * PaginationQuery.per_page pagination ->
  PaginationEngine.paginate_with_count window query session = Ok ([], 0)
  /\ PaginationEngine.paginate_with_count fallback query session
     = Ok ([], total)
  /\ 0 < total.
Proof.
  intros window fallback total Hrows Hpast.
  destruct (window_past_last_page window query session Hpast)
    as (Hwindow & _ & _).
  destruct (window_past_last_page fallback query session Hpast)
    as (_ & Hpage & Hcount).
  split; [exact Hwindow |]. split.
  - unfold PaginationEngine.paginate_with_count. cbn [mbind Result_bind
      PaginationEngine._should_use_window_function
      PaginationEngine.use_window_function fallback].
    by rewrite Hpage, Hcount.
  - subst total. destruct (rows_of session query); [done | cbn; lia].
Qed.

(** Page 4 of fifteen rows, five to a page. *)
Lemma window_and_fallback_differ_past_last_page_witness :
  let pagination := PaginationQuery.mk 4 5 in
  PaginationEngine.paginate_with_count
    (PaginationEngine.mk pagination Fixture.request (Some true))
    Fixture.query Fixture.pg_session
  = Ok ([], 0)
  /\ PaginationEngine.paginate_with_count
       (PaginationEngine.mk pagination Fixture.request (Some false))
       Fixture.query Fixture.pg_session
     = Ok ([], 15).
Proof.
  destruct (window_and_fallback_differ_past_last_page
              (PaginationQuery.mk 4 5) Fixture.request Fixture.query
              Fixture.pg_session) as (Hwindow & Hfallback & _).
  - discriminate.
  - cbn. lia.
  - split; [exact Hwindow | exact Hfallback].
Defined.

(** ** Floats: the ceiling of a rounded quotient *)

Lemma rne_div_bounds (n d : Z) :
  0 < d -> n / d <= rne_div n d <= n / d + 1.
Proof. intros Hd. unfold rne_div. repeat case_match; lia. Qed.

Lemma rne_div_exact (n d : Z) :
  0 < d -> n mod d = 0 -> rne_div n d = n / d.
Proof.
  intros Hd Hr. unfold rne_div. rewrite Hr.
  destruct (2 * 0 <? d) eqn:Hlt; [reflexivity | lia].
Qed.

Lemma rne_div_up (n d : Z) :
  d < 2 * (n mod d) -> rne_div n d = n / d + 1.
Proof.
  intros Hr. unfold rne_div.
  destruct (2 * (n mod d) <? d) eqn:Hlt; [lia |].
  destruct (d <? 2 * (n mod d)) eqn:Hgt; [reflexivity | lia].
Qed.

(** The quotient of two positive integers lies between the powers of two its
    logarithm names. *)
Lemma log2_quot_ge (n d : Z) :
  0 < d <= n ->
  0 <= log2_quot n d /\ d * 2 ^ log2_quot n d <= n.
Proof.
  intros [Hd Hn]. unfold log2_quot, scaled.
  pose proof (Z.log2_spec n ltac:(lia)) as [Hn1 Hn2].
  pose proof (Z.log2_spec d Hd) as [Hd1 Hd2].
  pose proof (Z.log2_le_mono d n ltac:(lia)) as Hmono.
  pose proof (Z.log2_nonneg d) as Hld.
  set (ln := Z.log2 n) in *. set (ld := Z.log2 d) in *.
  destruct (0 <=? ln - ld) eqn:Hl; [| lia].
  destruct (d * 2 ^ (ln - ld) <=? n) eqn:Htest.
  - split; lia.
  - assert (Hl1 : 1 <= ln - ld).
    { destruct (decide (ln - ld = 0)) as [H0 | H0]; [| lia].
      rewrite H0 in Htest. change (2 ^ 0) with 1 in Htest. lia. }
    split; [lia |].
    assert (Hpow : 2 ^ Z.succ ld * 2 ^ (ln - ld - 1) = 2 ^ ln).
    { rewrite <- Z.pow_add_r by lia. f_equal. lia. }
    assert (0 < 2 ^ (ln - ld - 1)) by (apply Z.pow_pos_nonneg; lia).
    nia.
Qed.

Lemma log2_quot_le (n d : Z) :
  0 < d -> 0 < n -> log2_quot n d <= Z.log2 n.
Proof.
  intros Hd Hn. unfold log2_quot.
  pose proof (Z.log2_nonneg d).
  destruct (scaled n d _) as [n' d']. case_match; lia.
Qed.

(** Rounding a quotient below [2^53]: the exponent is not positive, the
    significand is the rounded quotient at that scale, and a quotient of at
    least 1 keeps 53 significant bits. *)
Lemma round_b64_small (a b : Z) :
  0 < a < 2 ^ 53 -> 1 <= b ->
  exists e,
    e <= 0
    /\ round_b64 a b = Some (rne_div (a * 2 ^ (- e)) b, e)
    /\ (b <= a -> 2 ^ 52 * b <= a * 2 ^ (- e)).
Proof.
  intros [Ha Hlt] Hb.
  set (e := Z.max (log2_quot a b - 52) (-1074)).
  assert (Hlog : Z.log2 a < 53) by (by apply Z.log2_lt_pow2).
  pose proof (log2_quot_le a b ltac:(lia) Ha) as Hle.
  assert (He : e <= 0) by lia.
  exists e. split; [done |]. split.
  - unfold round_b64. fold e.
    destruct (a =? 0) eqn:H0; [lia |].
    assert (Hscaled : scaled a b e = (a * 2 ^ (- e), b) \/
                      (e = 0 /\ scaled a b e = (a, b * 2 ^ 0))).
    { unfold scaled. destruct (0 <=? e) eqn:Hs; [right | left; done].
      assert (e = 0) as -> by lia. done. }
    destruct Hscaled as [-> | [He0 ->]].
    + destruct (971 <? e) eqn:H1; [lia |].
      destruct (e =? 971) eqn:H2; [lia |]. reflexivity.
    + rewrite He0. cbn [Z.ltb Z.eqb Z.compare orb andb].
      change (2 ^ 0) with 1. change (2 ^ (- 0)) with 1.
      by rewrite !Z.mul_1_r.
  - intros Hge.
    destruct (log2_quot_ge a b ltac:(lia)) as [HL0 HL].
    assert (e = log2_quot a b - 52) as -> by lia.
    set (L := log2_quot a b) in *.
    assert (Hpow : 2 ^ L * 2 ^ (- (L - 52)) = 2 ^ 52).
    { rewrite <- Z.pow_add_r by lia. f_equal. lia. }
    assert (0 < 2 ^ (- (L - 52))) by (apply Z.pow_pos_nonneg; lia).
    nia.
Qed.

(** [-((-m) / s)] is the ceiling of [m / s]. *)
Lemma ceil_div_unique (m s c : Z) :
  0 < s -> (c - 1) * s < m <= c * s -> - ((- m) / s) = c.
Proof.
  intros Hs [Hlo Hhi].
  assert (Hq : (- m) / s = - c); [| lia].
  symmetry. apply (Z.div_unique_pos (- m) s (- c) (c * s - m)); lia.
Qed.

Lemma ceil_div_bounds (m s : Z) :
  0 < s -> 0 <= m <= s -> 0 <= - ((- m) / s) <= 1.
Proof.
  intros Hs [Hlo Hhi].
  destruct (decide (m = 0)) as [-> | Hm].
  - rewrite (ceil_div_unique 0 s 0); lia.
  - rewrite (ceil_div_unique m s 1); lia.
Qed.

(** Rounding to 53 bits does not move the ceiling of a quotient below
    [2^53], except that a quotient below 1 may round to 0 or to 1. *)
Lemma ceil_rounded (a b s : Z) :
  0 < a < 2 ^ 53 -> 1 <= b -> 1 <= s ->
  (b <= a -> 2 ^ 52 * b <= a * s) ->
  Z.max 1 (- ((- rne_div (a * s) b) / s)) = Z.max 1 (exact_ceil_div a b).
Proof.
  intros [Ha Hlt] Hb Hs Hprec. unfold exact_ceil_div.
  pose proof (Z.div_mod a b ltac:(lia)) as Hab.
  pose proof (Z.mod_pos_bound a b ltac:(lia)) as Hr.
  set (k := a / b) in *. set (r := a mod b) in *.
  assert (Hk : 0 <= k) by (apply Z.div_pos; lia).
  destruct (decide (r = 0)) as [Hr0 | Hr0].
  - (* the quotient is an integer *)
    assert (Ha' : a = k * b) by lia.
    assert (Hexact : a * s = (k * s) * b) by lia.
    rewrite (rne_div_exact (a * s) b);
      [| lia | rewrite Hexact; apply Z.mod_mul; lia].
    rewrite Hexact, Z.div_mul by lia.
    rewrite (ceil_div_unique (k * s) s k) by lia.
    rewrite (ceil_div_unique a b k) by lia.
    reflexivity.
  - rewrite (ceil_div_unique a b (k + 1)) by lia.
    pose proof (Z.div_mod (a * s) b ltac:(lia)) as Hq.
    pose proof (Z.mod_pos_bound (a * s) b ltac:(lia)) as Hr'.
    pose proof (rne_div_bounds (a * s) b ltac:(lia)) as Hm.
    set (q := a * s / b) in *. set (r' := (a * s) mod b) in *.
    set (m := rne_div (a * s) b) in *.
    assert (Hq_lo : k * s <= q) by nia.
    assert (Hq_hi : q < (k + 1) * s) by nia.
    destruct (decide (k = 0)) as [Hk0 | Hk0].
    + pose proof (ceil_div_bounds m s ltac:(lia) ltac:(nia)). lia.
    + assert (Hup : k * s < m).
      { destruct (decide (q = k * s)) as [Hq_eq | Hq_ne]; [| lia].
        assert (Hge : b <= a) by nia.
        specialize (Hprec Hge).
        assert (Hr_eq : r' = r * s) by nia.
        assert (b < 2 * s) by nia.
        subst m. rewrite (rne_div_up (a * s) b); fold q r'; [lia | nia]. }
      rewrite (ceil_div_unique m s (k + 1)); [reflexivity | lia |].
      replace (k + 1 - 1) with k by lia. lia.
Qed.

(** [total_pages] as [build_response] computes it, for a count below
    [2^53]. *)
Lemma total_pages_exact (total_items per_page : Z) :
  0 <= total_items < 2 ^ 53 -> 1 <= per_page ->
  (quotient ← true_div total_items per_page;
   pages ← ceil quotient;
   Ok (Z.max 1 pages))
  = Ok (Z.max 1 (exact_ceil_div total_items per_page)).
Proof.
  intros [Ha Hlt] Hb. unfold true_div.
  destruct (per_page =? 0) eqn:H0; [lia |].
  rewrite (Z.abs_eq total_items), (Z.abs_eq per_page) by lia.
  destruct (total_items <? 0) eqn:Hneg; [lia |].
  destruct (per_page <? 0) eqn:Hnegb; [lia |].
  destruct (decide (total_items = 0)) as [-> | Hpos].
  - cbn. unfold exact_ceil_div. by rewrite Z.div_0_l by lia.
  - destruct (round_b64_small total_items per_page ltac:(lia) Hb)
      as (e & He & -> & Hprec).
    rewrite bind_Ok. cbn [ceil xorb signed].
    assert (Hs : 1 <= 2 ^ (- e)).
    { pose proof (Z.pow_pos_nonneg 2 (- e)). lia. }
    pose proof (ceil_rounded total_items per_page (2 ^ (- e))
                  ltac:(lia) Hb Hs Hprec) as Hceil.
    destruct (0 <=? e) eqn:Hsign; rewrite bind_Ok.
    + assert (e = 0) as -> by lia.
      change (2 ^ (- 0)) with 1 in *. change (2 ^ 0) with 1.
      rewrite !Z.mul_1_r in *.
      rewrite <- Hceil. f_equal. f_equal.
      rewrite Z.div_1_r. lia.
    + by rewrite Hceil.
Qed.

(** ** fsp.py and pagination.py: the response *)

Section Response.
Context `{DateLib}.

(** [generate_response] passes [or_filters] by keyword, [build_response]
    has no such parameter: the call is a [TypeError]. *)
Lemma generate_response_call (self : PaginationEngine.t)
    (total_items : option Z) (data_page : list PaginatedResponse.item)
    (filters : option (list Filter.t))
    (or_filters : option (list OrFilterGroup.t))
    (sorting : option SortingQuery.t) :
  PaginationEngine.call_build_response self
    [("total_items", PaginationEngine.ATotal total_items);
     ("data_page", PaginationEngine.AData data_page);
     ("filters", PaginationEngine.AFilters filters);
     ("or_filters", PaginationEngine.AOrFilters or_filters);
     ("sorting", PaginationEngine.ASorting sorting)]
  = Raise TypeError.
Proof. reflexivity. Qed.

(** C3: no call of [generate_response] returns a response: where
    filtering, sorting and pagination went through, the call of
    [build_response] with the keyword [or_filters] raises [TypeError];
    and a response [build_response] does build carries no OR-groups in
    its meta block. *)
Theorem generate_response_raises (registry : Registry) (self : FSPManager.t)
    (query : Select) (session : Session) :
  (exists e, FSPManager.generate_response registry self query session = Raise e)
  /\ (forall (pe : PaginationEngine.t) total_items data_page filters sorting,
        match PaginationEngine.build_response pe total_items data_page
                filters sorting with
        | Ok response =>
            Meta.or_filters (PaginatedResponse.meta response) = None
        | Raise _ => True
        end).
Proof.
  split.
  - unfold FSPManager.generate_response.
    destruct (FilterEngine.apply_filters _ _ _ _ _) as [[q1 e1] | ex];
      [| by eexists].
    rewrite bind_Ok.
    destruct (FilterEngine.apply_or_filter_groups _ _ _ _ _) as [[q2 e2] | ex];
      [| by eexists].
    rewrite bind_Ok. cbv zeta.
    destruct (SortEngine.apply_sort _ _ _ _) as [q3 | ex]; [| by eexists].
    rewrite bind_Ok.
    destruct (PaginationEngine.paginate_with_count _ _ _) as [[data total] | ex];
      [| by eexists].
    rewrite bind_Ok, generate_response_call. by eexists.
  - intros. unfold PaginationEngine.build_response.
    destruct total_items as [total_items |]; [| done].
    destruct (true_div _ _) as [quotient | ex]; [| done].
    rewrite bind_Ok.
    destruct (ceil quotient) as [pages | ex]; done.
Qed.

(** A search over [name] on the first page of the fifteen rows. *)
Example generate_response_with_search :
  let search :=
    [OrFilterGroup.mk [Filter.mk "name" CONTAINS "Item"]] in
  FSPManager.generate_response FILTER_STRATEGIES
    (FSPManager.__init__ Fixture.request None None (PaginationQuery.mk 1 10)
       (Some search) false None)
    Fixture.query Fixture.bare_session
  = Raise TypeError.
Proof. vm_compute. reflexivity. Qed.

End Response.

(** ** filters.py and sorting.py: unknown fields *)

Section UnknownFields.
Variables (registry : Registry) (query : Select)
  (columns_map : gmap string Column).


Lemma get_column_type_strict_mode (self self' : FilterEngine.t)
    (column : Column) (pytype : option PyType) :
  FilterEngine.get_column_type self column = Ok (pytype, self') ->
  FilterEngine.strict_mode self' = FilterEngine.strict_mode self.
Proof.
  unfold FilterEngine.get_column_type.
  destruct (FilterEngine._type_cache self !! col_id column).
  - rewrite bind_Ok. by intros [= _ <-].
  - destruct (try_except _ _ _) as [t | e]; [| discriminate].
    rewrite !bind_Ok. by intros [= _ <-].
Qed.

(** The lookup of a field, as both engines do it. *)
Lemma resolves_false (field : string) :
  resolves query columns_map field = false ->
  (match columns_map !! field with
   | None => FilterEngine.get_entity_attribute query field
   | Some c => Ok (Some c)
   end) = Ok None.
Proof.
  unfold resolves. destruct (columns_map !! field); [discriminate |].
  assert (Hok : exists r, FilterEngine.get_entity_attribute query field = Ok r).
  { unfold FilterEngine.get_entity_attribute, try_except.
    repeat case_match; eauto; discriminate. }
  destruct Hok as [[c |] ->]; [discriminate | done].
Qed.

Lemma resolves_true (field : string) :
  resolves query columns_map field = true ->
  exists c,
    (match columns_map !! field with
     | None => FilterEngine.get_entity_attribute query field
     | Some c => Ok (Some c)
     end) = Ok (Some c).
Proof.
  unfold resolves. destruct (columns_map !! field) as [c |]; [by eexists |].
  destruct (FilterEngine.get_entity_attribute query field) as [[c |] | e];
    try discriminate.
  by eexists.
Qed.

Lemma collect_conditions_strict_mode (filters : list Filter.t) :
  forall self conditions conditions' self',
    FilterEngine.collect_conditions self registry query columns_map filters
      conditions = Ok (conditions', self') ->
    FilterEngine.strict_mode self' = FilterEngine.strict_mode self.
Proof.
  induction filters as [| f filters IH]; intros self conds conds' self'.
  - by intros [= _ <-].
  - cbn [FilterEngine.collect_conditions].
    destruct (match columns_map !! Filter.field f with
              | None => _ | Some c => _ end) as [[column |] | e];
      rewrite ?bind_Ok, ?bind_Raise; try discriminate.
    + destruct (FilterEngine.get_column_type self column)
        as [[pytype self1] | e] eqn:Htype; [| discriminate].
      rewrite bind_Ok.
      destruct (FilterEngine.build_filter_condition _ _ _ _) as [cond | e];
        [| discriminate].
      rewrite bind_Ok. intros Hrest. apply IH in Hrest.
      rewrite Hrest. by eapply get_column_type_strict_mode.
    + destruct (FilterEngine.strict_mode self) eqn:Hmode; [discriminate |].
      intros Hrest. apply IH in Hrest. congruence.
Qed.

(** The loop over a list in two parts. *)
Lemma collect_conditions_app (pre post : list Filter.t) :
  forall self conditions,
    FilterEngine.collect_conditions self registry query columns_map
      (pre ++ post) conditions
    = '(conditions', self') ←
        FilterEngine.collect_conditions self registry query columns_map pre
          conditions;
      FilterEngine.collect_conditions self' registry query columns_map post
        conditions'.
Proof.
  induction pre as [| f pre IH]; intros self conds; [reflexivity |].
  cbn [app FilterEngine.collect_conditions].
  destruct (match columns_map !! Filter.field f with
            | None => _ | Some c => _ end) as [[column |] | e];
    rewrite ?bind_Ok, ?bind_Raise; try reflexivity.
  - destruct (FilterEngine.get_column_type self column)
      as [[pytype self1] | e]; [| reflexivity].
    rewrite !bind_Ok.
    destruct (FilterEngine.build_filter_condition _ _ _ _) as [cond | e];
      [| reflexivity].
    rewrite !bind_Ok. apply IH.
  - destruct (FilterEngine.strict_mode self); [reflexivity | apply IH].
Qed.

(** In lenient mode the loop does not see the filters on unknown fields. *)
Lemma collect_conditions_lenient (filters : list Filter.t) :
  forall self conditions,
    FilterEngine.strict_mode self = false ->
    FilterEngine.collect_conditions self registry query columns_map filters
      conditions
    = FilterEngine.collect_conditions self registry query columns_map
        (List.filter (known_filter query columns_map) filters) conditions.
Proof.
  induction filters as [| f filters IH]; intros self conds Hlenient;
    [reflexivity |].
  cbn [List.filter].
  destruct (known_filter query columns_map f) eqn:Hf;
    unfold known_filter in Hf.
  - cbn [FilterEngine.collect_conditions].
    destruct (resolves_true _ Hf) as [column ->]. rewrite !bind_Ok.
    destruct (FilterEngine.get_column_type self column)
      as [[pytype self1] | e] eqn:Htype; [| reflexivity].
    rewrite !bind_Ok.
    destruct (FilterEngine.build_filter_condition _ _ _ _) as [cond | e];
      [| reflexivity].
    rewrite !bind_Ok. apply IH.
    apply get_column_type_strict_mode in Htype. congruence.
  - cbn [FilterEngine.collect_conditions].
    rewrite (resolves_false _ Hf), bind_Ok, Hlenient. by apply IH.
Qed.

Lemma apply_filters_lenient (self : FilterEngine.t) (filters : list Filter.t) :
  FilterEngine.strict_mode self = false ->
  FilterEngine.apply_filters self registry query columns_map (Some filters)
  = FilterEngine.apply_filters self registry query columns_map
      (Some (List.filter (known_filter query columns_map) filters)).
Proof.
  intros Hlenient. unfold FilterEngine.apply_filters.
  destruct filters as [| f filters]; [reflexivity |].
  rewrite (collect_conditions_lenient (f :: filters)) by done.
  destruct (List.filter (known_filter query columns_map) (f :: filters));
    reflexivity.
Qed.

Lemma filter_none_known (filters : list Filter.t) :
  Forall (fun f => known_filter query columns_map f = false) filters ->
  List.filter (known_filter query columns_map) filters = [].
Proof.
  induction 1 as [| f filters Hf _ IH]; [reflexivity |].
  cbn [List.filter]. by rewrite Hf.
Qed.

Lemma apply_filters_strict (self : FilterEngine.t) (pre post : list Filter.t)
    (f : Filter.t) :
  FilterEngine.strict_mode self = true ->
  (exists r, FilterEngine.apply_filters self registry query columns_map
               (Some pre) = Ok r) ->
  known_filter query columns_map f = false ->
  FilterEngine.apply_filters self registry query columns_map
    (Some (pre ++ f :: post))
  = Raise (HTTPException 400
             ("Unknown field '" +:+ Filter.field f
              +:+ "'. Available fields: "
              +:+ FilterEngine.available_fields columns_map)).
Proof.
  intros Hstrict [r Hpre] Hf.
  assert (Hcollect : exists conditions self',
            FilterEngine.collect_conditions self registry query columns_map
              pre [] = Ok (conditions, self')).
  { destruct pre as [| f0 pre]; [by eexists _, _ |].
    unfold FilterEngine.apply_filters in Hpre.
    destruct (FilterEngine.collect_conditions _ _ _ _ _ _) as [[c s] | e];
      [by eexists _, _ | discriminate]. }
  destruct Hcollect as (conditions & self' & Hcollect).
  unfold FilterEngine.apply_filters.
  destruct (pre ++ f :: post) as [| f0 rest] eqn:Hlist;
    [by destruct pre |].
  rewrite <- Hlist, collect_conditions_app, Hcollect, bind_Ok.
  cbn [FilterEngine.collect_conditions].
  rewrite (resolves_false _ Hf), bind_Ok.
  apply collect_conditions_strict_mode in Hcollect.
  by rewrite Hcollect, Hstrict.
Qed.

Lemma lookup_known (field : string) (column : Column) :
  (match columns_map !! field with
   | None => FilterEngine.get_entity_attribute query field
   | Some c => Ok (Some c)
   end) = Ok (Some column) ->
  resolves query columns_map field = true
  /\ resolved_column query columns_map field = Some column.
Proof.
  unfold resolves, resolved_column.
  destruct (columns_map !! field) as [c |]; [by intros [= ->] |].
  by intros ->.
Qed.

Lemma lookup_unknown (field : string) :
  (match columns_map !! field with
   | None => FilterEngine.get_entity_attribute query field
   | Some c => Ok (Some c)
   end) = Ok None ->
  resolves query columns_map field = false.
Proof.
  unfold resolves.
  destruct (columns_map !! field) as [c |]; [discriminate |].
  by intros ->.
Qed.

Lemma get_column_type_entry (self self' : FilterEngine.t) (column : Column)
    (pytype : option PyType) :
  FilterEngine.get_column_type self column = Ok (pytype, self') ->
  FilterEngine._type_cache self' !! col_id column = Some pytype
  /\ FilterEngine._type_cache self ⊆ FilterEngine._type_cache self'.
Proof.
  unfold FilterEngine.get_column_type.
  destruct (FilterEngine._type_cache self !! col_id column) as [t |] eqn:Hhit.
  - rewrite bind_Ok, Hhit. by intros [= <- <-].
  - destruct (try_except _ _ _) as [t | e]; [| discriminate].
    rewrite !bind_Ok. cbn [FilterEngine._type_cache].
    rewrite lookup_insert_eq. intros [= <- <-].
    cbn [FilterEngine._type_cache].
    split; [by rewrite lookup_insert_eq | by apply insert_subseteq].
Qed.

(** What the loop collects: behind the conditions it starts with, the
    condition of every filter on a known field, in the order of the
    filters. *)
Lemma collect_conditions_built (filters : list Filter.t) :
  forall self conditions conditions' self',
    FilterEngine.collect_conditions self registry query columns_map filters
      conditions = Ok (conditions', self') ->
    FilterEngine._type_cache self ⊆ FilterEngine._type_cache self'
    /\ exists built,
         Forall2
           (built_condition registry query columns_map
              (FilterEngine._type_cache self'))
           (List.filter (known_filter query columns_map) filters) built
         /\ conditions' = conditions ++ omap id built.
Proof.
  induction filters as [| f filters IH]; intros self conds conds' self'.
  { intros [= <- <-]. split; [done |]. exists [].
    split; [constructor | by rewrite app_nil_r]. }
  cbn [FilterEngine.collect_conditions List.filter]. unfold known_filter at 1.
  destruct (match columns_map !! Filter.field f with
            | None => _ | Some c => _ end) as [[column |] | e] eqn:Hlookup;
    rewrite ?bind_Ok, ?bind_Raise; try discriminate.
  - apply lookup_known in Hlookup as [-> Hcolumn].
    destruct (FilterEngine.get_column_type self column)
      as [[pytype self1] | e] eqn:Htype; [| discriminate].
    rewrite bind_Ok.
    destruct (FilterEngine.build_filter_condition _ _ _ _) as [cond | e]
      eqn:Hcond; [| discriminate].
    rewrite bind_Ok. intros Hrest.
    apply IH in Hrest as (Hcache & built & Hbuilt & ->).
    apply get_column_type_entry in Htype as [Hentry Hgrows].
    split; [by etransitivity |].
    exists (cond :: built). split.
    + constructor; [| done]. exists column. split; [done |].
      by rewrite (lookup_weaken _ _ _ _ Hentry Hcache).
    + destruct cond as [c |]; [by rewrite <- app_assoc | done].
  - apply lookup_unknown in Hlookup as ->.
    destruct (FilterEngine.strict_mode self); [discriminate |].
    apply IH.
Qed.

Lemma apply_filters_built (self self' : FilterEngine.t) (query' : Select)
    (filters : list Filter.t) :
  FilterEngine.apply_filters self registry query columns_map (Some filters)
  = Ok (query', self') ->
  exists built,
    Forall2
      (built_condition registry query columns_map
         (FilterEngine._type_cache self'))
      (List.filter (known_filter query columns_map) filters) built
    /\ query' = match omap id built with
                | [] => query
                | conditions => where_ query conditions
                end.
Proof.
  unfold FilterEngine.apply_filters.
  destruct filters as [| f filters].
  { intros [= <- <-]. exists []. split; [constructor | done]. }
  destruct (FilterEngine.collect_conditions _ _ _ _ _ _) as [[c s] | e]
    eqn:Hcollect; [| discriminate].
  rewrite bind_Ok. intros [= <- <-].
  apply collect_conditions_built in Hcollect as (_ & built & Hbuilt & ->).
  exists built. split; [done |]. cbn [app]. by destruct (omap id built).
Qed.

Lemma available_fields_sorted :
  let names := sorted (map_to_list columns_map).*1 in
  FilterEngine.available_fields columns_map = join ", " names
  /\ Sorted String.le names
  /\ NoDup names
  /\ forall k, k ∈ names <-> is_Some (columns_map !! k).
Proof.
  intros names. subst names. unfold sorted.
  split; [reflexivity |].
  split; [apply (Sorted_merge_sort String.le) |].
  split.
  - rewrite merge_sort_Permutation. apply NoDup_fst_map_to_list.
  - intros k. rewrite merge_sort_Permutation, list_elem_of_fmap. split.
    + intros [[k' c] [-> Hin]]. apply elem_of_map_to_list in Hin.
      by eexists.
    + intros [c Hc]. exists (k, c). split; [done |].
      by apply elem_of_map_to_list.
Qed.

(** C6, as the code has it: a filter or a sort key on a field that
    resolves to neither a stored column nor a computed attribute.  In strict
    mode [apply_filters] raises, at the first such filter after filters that
    went through, a 400 error whose message names the field and lists the
    stored-column names, each once, in ascending order; [apply_sort] does
    the same for a sort key whose field name is not empty.  A sort key with
    an empty field name is no sort key: [apply_sort] hands the query back in
    either mode.  In lenient mode [apply_filters] behaves as if the filter
    were not in the list, so the query comes back unchanged when no filter
    is known, and [apply_sort] hands the query back.  Whenever
    [apply_filters] answers, the query it answers is the given one with the
    condition of every filter on a known field attached, in the order of
    the filters. *)
Theorem unknown_field_policy :
  let names := sorted (map_to_list columns_map).*1 in
  let unknown_field := fun field =>
    HTTPException 400
      ("Unknown field '" +:+ field +:+ "'. Available fields: "
       +:+ join ", " names) in
  let unknown_sort_field := fun field =>
    HTTPException 400
      ("Unknown sort field '" +:+ field +:+ "'. Available fields: "
       +:+ join ", " names) in
  (Sorted String.le names /\ NoDup names
   /\ forall k, k ∈ names <-> is_Some (columns_map !! k))
  /\ (forall self pre f post,
        FilterEngine.strict_mode self = true ->
        (exists r, FilterEngine.apply_filters self registry query columns_map
                     (Some pre) = Ok r) ->
        known_filter query columns_map f = false ->
        FilterEngine.apply_filters self registry query columns_map
          (Some (pre ++ f :: post))
        = Raise (unknown_field (Filter.field f)))
  /\ (forall self sorting,
        SortEngine.strict_mode self = true ->
        SortingQuery.sort_by sorting <> "" ->
        resolves query columns_map (SortingQuery.sort_by sorting) = false ->
        SortEngine.apply_sort self query columns_map (Some sorting)
        = Raise (unknown_sort_field (SortingQuery.sort_by sorting)))
  /\ (forall self order,
        SortEngine.apply_sort self query columns_map
          (Some (SortingQuery.mk "" order))
        = Ok query)
  /\ (forall self filters,
        FilterEngine.strict_mode self = false ->
        FilterEngine.apply_filters self registry query columns_map
          (Some filters)
        = FilterEngine.apply_filters self registry query columns_map
            (Some (List.filter (known_filter query columns_map) filters)))
  /\ (forall self filters,
        FilterEngine.strict_mode self = false ->
        Forall (fun f => known_filter query columns_map f = false) filters ->
        FilterEngine.apply_filters self registry query columns_map
          (Some filters)
        = Ok (query, self))
  /\ (forall self sorting,
        SortEngine.strict_mode self = false ->
        resolves query columns_map (SortingQuery.sort_by sorting) = false ->
        SortEngine.apply_sort self query columns_map (Some sorting)
        = Ok query)
  /\ (forall self filters query' self',
        FilterEngine.apply_filters self registry query columns_map
          (Some filters)
        = Ok (query', self') ->
        exists built,
          Forall2
            (built_condition registry query columns_map
               (FilterEngine._type_cache self'))
            (List.filter (known_filter query columns_map) filters) built
          /\ query' = match omap id built with
                      | [] => query
                      | conditions => where_ query conditions
                      end).
Proof.
  intros names unknown_field unknown_sort_field.
  destruct available_fields_sorted as (Hjoin & Hsorted & Hnodup & Hnames).
  fold names in Hjoin, Hsorted, Hnodup, Hnames.
  split; [done |].
  split; [| split; [| split; [| split; [| split; [| split]]]]].
  - intros self pre f post Hstrict Hpre Hf. subst unknown_field. cbv beta.
    rewrite <- Hjoin. by apply apply_filters_strict.
  - intros self sorting Hstrict Hkey Hf. unfold SortEngine.apply_sort.
    destruct (SortingQuery.sort_by sorting) as [| c key] eqn:Hsort_by;
      [done |].
    cbn [str_truthy negb]. rewrite (resolves_false _ Hf), bind_Ok, Hstrict.
    subst unknown_sort_field. cbv beta. by rewrite <- Hjoin.
  - reflexivity.
  - intros self filters Hlenient. by apply apply_filters_lenient.
  - intros self filters Hlenient Hnone.
    rewrite apply_filters_lenient by done.
    by rewrite filter_none_known.
  - intros self sorting Hlenient Hf. unfold SortEngine.apply_sort.
    destruct (negb (str_truthy (SortingQuery.sort_by sorting))); [done |].
    by rewrite (resolves_false _ Hf), bind_Ok, Hlenient.
  - intros self filters query' self'. apply apply_filters_built.
Qed.

End UnknownFields.

(** The model of the test-suite: strict and lenient mode on a list with an
    unknown field between two known ones, and on the unknown field alone. *)
Lemma unknown_field_policy_witness :
  let registry := FILTER_STRATEGIES (H := Fixture.no_dates) in
  let adults := Filter.mk "age" GTE "18" in
  let bad := Filter.mk "unknown" EQ "x" in
  let active := Filter.mk "active" EQ "true" in
  let by_unknown := SortingQuery.mk "unknown" ASC in
  FilterEngine.apply_filters (FilterEngine.__init__ true) registry
    Fixture.query Fixture.columns_map (Some [adults; bad; adults])
  = Raise (HTTPException 400
             "Unknown field 'unknown'. Available fields: active, age, id, name")
  /\ FilterEngine.apply_filters (FilterEngine.__init__ false) registry
       Fixture.query Fixture.columns_map (Some [bad])
     = Ok (Fixture.query, FilterEngine.__init__ false)
  /\ SortEngine.apply_sort (SortEngine.mk true) Fixture.query
       Fixture.columns_map (Some by_unknown)
     = Raise (HTTPException 400
                "Unknown sort field 'unknown'. Available fields: active, age, id, name")
  /\ SortEngine.apply_sort (SortEngine.mk false) Fixture.query
       Fixture.columns_map (Some by_unknown)
     = Ok Fixture.query
  /\ exists self',
       FilterEngine.apply_filters (FilterEngine.__init__ false) registry
         Fixture.query Fixture.columns_map (Some [adults; bad; active])
       = Ok (where_ Fixture.query
               [PGe (ECol Fixture.age_col) (PyInt 18);
                PEq (ECol Fixture.active_col) (PyBool true)], self').
Proof.
  intros registry adults bad active by_unknown.
  assert (Hpre : exists r,
            FilterEngine.apply_filters (FilterEngine.__init__ true) registry
              Fixture.query Fixture.columns_map (Some [adults]) = Ok r).
  { destruct (FilterEngine.apply_filters _ _ _ _ _) as [r | e] eqn:Hpre;
      [by eexists |].
    vm_compute in Hpre. discriminate. }
  assert (Hbad : known_filter Fixture.query Fixture.columns_map bad = false)
    by (vm_compute; reflexivity).
  assert (Hkey : resolves Fixture.query Fixture.columns_map
                   (SortingQuery.sort_by by_unknown) = false)
    by (vm_compute; reflexivity).
  assert (Hknown : List.filter (known_filter Fixture.query Fixture.columns_map)
                     [adults; bad; active] = [adults; active])
    by (vm_compute; reflexivity).
  assert (Hage : resolved_column Fixture.query Fixture.columns_map "age"
                 = Some Fixture.age_col) by (vm_compute; reflexivity).
  assert (Hactive : resolved_column Fixture.query Fixture.columns_map "active"
                    = Some Fixture.active_col) by (vm_compute; reflexivity).
  destruct (unknown_field_policy registry Fixture.query Fixture.columns_map)
    as (_ & Hstrict & Hstrict_sort & _ & _ & Hlenient & Hlenient_sort
        & Hbuilt).
  split; [| split; [| split; [| split]]].
  - etransitivity;
      [exact (Hstrict (FilterEngine.__init__ true) [adults] bad [adults]
                eq_refl Hpre Hbad) |].
    vm_compute. reflexivity.
  - rewrite (Hlenient (FilterEngine.__init__ false) [bad] eq_refl);
      [reflexivity |].
    by apply List.Forall_cons.
  - etransitivity;
      [exact (Hstrict_sort (SortEngine.mk true) by_unknown eq_refl
                ltac:(discriminate) Hkey) |].
    vm_compute. reflexivity.
  - exact (Hlenient_sort (SortEngine.mk false) by_unknown eq_refl Hkey).
  - destruct (FilterEngine.apply_filters (FilterEngine.__init__ false)
                registry Fixture.query Fixture.columns_map
                (Some [adults; bad; active])) as [[query' self'] | e]
      eqn:Hrun; [| vm_compute in Hrun; discriminate].
    exists self'. do 2 f_equal.
    assert (Hint : FilterEngine._type_cache self' !! 3 = Some (Some TInt)
                   /\ FilterEngine._type_cache self' !! 4
                      = Some (Some TBool)).
    { pose proof Hrun as Hmemo. vm_compute in Hmemo.
      injection Hmemo as _ <-. split; reflexivity. }
    destruct Hint as [Hint Hbool].
    destruct (Hbuilt _ _ _ _ Hrun) as (built & Hconditions & ->).
    rewrite Hknown in Hconditions.
    apply Forall2_cons_inv_l in Hconditions
      as (first & rest & (c1 & Hc1 & Hfirst) & Hconditions & ->).
    apply Forall2_cons_inv_l in Hconditions
      as (second & rest' & (c2 & Hc2 & Hsecond) & Hconditions & ->).
    apply Forall2_nil_inv_l in Hconditions as ->.
    cbn [Filter.field adults active] in Hc1, Hc2.
    rewrite Hage in Hc1. rewrite Hactive in Hc2.
    injection Hc1 as <-. injection Hc2 as <-.
    cbn [col_id Fixture.age_col Fixture.active_col] in Hfirst, Hsecond.
    rewrite Hint in Hfirst. rewrite Hbool in Hsecond.
    vm_compute in Hfirst. vm_compute in Hsecond.
    injection Hfirst as <-. injection Hsecond as <-.
    reflexivity.
Defined.

(** A sort key with an empty field name resolves to nothing, and in strict
    mode [apply_sort] hands the query back without an error. *)
Lemma unknown_field_policy_counterexample :
  resolves Fixture.query Fixture.columns_map
    (SortingQuery.sort_by (SortingQuery.mk "" ASC)) = false
  /\ SortEngine.apply_sort (SortEngine.mk true) Fixture.query
       Fixture.columns_map (Some (SortingQuery.mk "" ASC))
     = Ok Fixture.query.
Proof. split; reflexivity. Qed.

(** ** pagination.py: pages and links *)

(** C7, as the code has it: for a count of items below [2^53] and a page
    size of at least 1, [build_response] answers a response whose
    [total_pages] is [max(1, ceil(total_items / per_page))], so at least 1,
    with a [next] link exactly when the current page is below [total_pages]
    and a [prev] link exactly when the current page is above 1. *)
Theorem build_response_pages (self : PaginationEngine.t) (total_items : Z)
    (data_page : list PaginatedResponse.item)
    (filters : option (list Filter.t)) (sorting : option SortingQuery.t) :
  let per_page := PaginationQuery.per_page (PaginationEngine.pagination self) in
  let current_page := PaginationQuery.page (PaginationEngine.pagination self) in
  let total_pages := Z.max 1 (exact_ceil_div total_items per_page) in
  0 <= total_items < 2 ^ 53 -> 1 <= per_page ->
  exists response,
    PaginationEngine.build_response self (Some total_items) data_page filters
      sorting = Ok response
    /\ Pagination.total_pages
         (Meta.pagination (PaginatedResponse.meta response))
       = Some total_pages
    /\ 1 <= total_pages
    /\ (total_items = 0 -> total_pages = 1)
    /\ (is_Some (Links.next (PaginatedResponse.links response))
        <-> current_page < total_pages)
    /\ (is_Some (Links.prev (PaginatedResponse.links response))
        <-> 1 < current_page).
Proof.
  intros per_page current_page total_pages Hitems Hsize.
  unfold PaginationEngine.build_response. fold per_page current_page.
  rewrite (total_pages_exact total_items per_page) by done.
  fold total_pages. rewrite bind_Ok.
  eexists. split; [reflexivity |]. cbn.
  split; [reflexivity |]. split; [lia |]. split.
  - intros ->. subst total_pages. unfold exact_ceil_div.
    rewrite Z.div_0_l by lia. reflexivity.
  - split.
    + destruct (current_page <? total_pages) eqn:Hnext.
      * split; [lia | by eexists].
      * split; [by intros [? [=]] | lia].
    + destruct (1 <? current_page) eqn:Hprev.
      * split; [lia | by eexists].
      * split; [by intros [? [=]] | lia].
Qed.

Lemma build_response_pages_witness :
  exists response,
    PaginationEngine.build_response
      (PaginationEngine.mk (PaginationQuery.mk 1 10) Fixture.request None)
      (Some 25) [] None None = Ok response
    /\ Pagination.total_pages
         (Meta.pagination (PaginatedResponse.meta response)) = Some 3.
Proof.
  destruct (build_response_pages
              (PaginationEngine.mk (PaginationQuery.mk 1 10) Fixture.request
                 None) 25 [] None None)
    as (response & Hresponse & Hpages & _); [cbn; lia | cbn; lia |].
  exists response. split; [exact Hresponse | exact Hpages].
Defined.

(** [2^53 + 1] items, one to a page: the float quotient is [2^53], and so
    is [total_pages], one short of the exact ceiling. *)
Lemma build_response_pages_counterexample :
  exists response,
    PaginationEngine.build_response
      (PaginationEngine.mk (PaginationQuery.mk 1 1) Fixture.request None)
      (Some 9007199254740993) [] None None = Ok response
    /\ Pagination.total_pages
         (Meta.pagination (PaginatedResponse.meta response))
       = Some 9007199254740992
    /\ Z.max 1 (exact_ceil_div 9007199254740993 1) = 9007199254740993.
Proof.
  eexists. split; [vm_compute; reflexivity |].
  split; reflexivity.
Qed.

(* ================================================================== *)
(** * Part IV: further properties of the code                          *)
(* ================================================================== *)

(** ** Printing and reading integers *)

Lemma digit_char_spec (d : Z) :
  0 <= d < 10 ->
  is_digit (digit_char d) = true /\ digit_val (digit_char d) = d
  /\ is_space (digit_char d) = false
  /\ Ascii.eqb (digit_char d) "," = false
  /\ Ascii.eqb (digit_char d) "-" = false
  /\ Ascii.eqb (digit_char d) "+" = false.
Proof.
  intros Hd.
  assert (Hcases : d = 0 \/ d = 1 \/ d = 2 \/ d = 3 \/ d = 4 \/ d = 5 \/ d = 6
                   \/ d = 7 \/ d = 8 \/ d = 9) by lia.
  repeat destruct Hcases as [-> | Hcases]; try subst d; by vm_compute.
Qed.

(** The shape of a printed number: [k] digits in front of [rest], which
    read back as [n]. *)
Lemma decimal_spec (fuel : nat) :
  forall n rest,
    (0 < fuel)%nat -> 0 <= n < 10 ^ Z.of_nat fuel ->
    exists k,
      1 <= k <= Z.of_nat fuel
      /\ n < 10 ^ k
      /\ String.length (decimal fuel n rest)
         = (Z.to_nat k + String.length rest)%nat
      /\ forall acc cnt,
           scan_digits acc cnt (decimal fuel n rest)
           = scan_digits (acc * 10 ^ k + n) (cnt + k) rest.
Proof.
  induction fuel as [| fuel IH]; intros n rest Hpos Hn; [lia |]. clear Hpos.
  cbn [decimal]. destruct (n <? 10) eqn:Hsmall.
  - apply Z.ltb_lt in Hsmall. exists 1.
    destruct (digit_char_spec (n mod 10)) as (Hdig & Hval & _);
      [apply Z.mod_pos_bound; lia |].
    rewrite Z.mod_small in * by lia.
    split; [lia |]. split; [change (10 ^ 1) with 10; lia |].
    split; [reflexivity |].
    intros acc cnt. cbn [scan_digits]. rewrite Hdig, Hval.
    change (10 ^ 1) with 10. f_equal; lia.
  - apply Z.ltb_ge in Hsmall.
    assert (Hfuel : (0 < fuel)%nat).
    { destruct fuel; [| lia]. change (10 ^ Z.of_nat 1) with 10 in Hn. lia. }
    destruct (IH (n / 10) (String (digit_char (n mod 10)) rest) Hfuel)
      as (k & Hk & Hlt & Hlen & Hscan).
    { split; [apply Z.div_pos; lia |].
      apply Z.div_lt_upper_bound; [lia |].
      replace (Z.of_nat (S fuel)) with (1 + Z.of_nat fuel) in Hn by lia.
      rewrite Z.pow_add_r in Hn by lia. lia. }
    exists (k + 1).
    destruct (digit_char_spec (n mod 10)) as (Hdig & Hval & _);
      [apply Z.mod_pos_bound; lia |].
    pose proof (Z.div_mod n 10 ltac:(lia)) as Hdm.
    pose proof (Z.mod_pos_bound n 10 ltac:(lia)) as Hmod.
    split; [lia |]. split; [| split].
    + rewrite Z.pow_add_r by lia. change (10 ^ 1) with 10. lia.
    + rewrite Hlen. cbn [String.length]. lia.
    + intros acc cnt. rewrite Hscan. cbn [scan_digits].
      rewrite Hdig, Hval. rewrite Z.pow_add_r by lia. change (10 ^ 1) with 10.
      f_equal; lia.
Qed.

Lemma decimal_fuel (n : Z) :
  0 <= n -> n < 10 ^ Z.of_nat (S (Z.to_nat (Z.log2 n))).
Proof.
  intros Hn. destruct (decide (n = 0)) as [-> | Hpos]; [by vm_compute |].
  pose proof (Z.log2_nonneg n) as Hlog.
  replace (Z.of_nat (S (Z.to_nat (Z.log2 n)))) with (Z.log2 n + 1) by lia.
  pose proof (Z.log2_spec n ltac:(lia)) as [_ Hup].
  replace (Z.succ (Z.log2 n)) with (Z.log2 n + 1) in Hup by lia.
  eapply Z.lt_le_trans; [exact Hup |].
  apply Z.pow_le_mono_l. lia.
Qed.

(** A lower bound on the printed number, from its number of digits. *)
Lemma decimal_lower (fuel : nat) :
  forall n rest,
    (0 < fuel)%nat -> 0 <= n < 10 ^ Z.of_nat fuel ->
    10 ^ (Z.of_nat (String.length (decimal fuel n rest))
          - Z.of_nat (String.length rest) - 1) <= Z.max 1 n.
Proof.
  induction fuel as [| fuel IH]; intros n rest Hpos Hn; [lia |]. clear Hpos.
  cbn [decimal]. destruct (n <? 10) eqn:Hsmall.
  - cbn [String.length].
    replace (Z.of_nat (S (String.length rest)) - Z.of_nat (String.length rest)
             - 1) with 0 by lia.
    change (10 ^ 0) with 1. lia.
  - apply Z.ltb_ge in Hsmall.
    assert (Hfuel : (0 < fuel)%nat).
    { destruct fuel; [| lia]. change (10 ^ Z.of_nat 1) with 10 in Hn. lia. }
    assert (Hdiv : 0 <= n / 10 < 10 ^ Z.of_nat fuel).
    { split; [apply Z.div_pos; lia |].
      apply Z.div_lt_upper_bound; [lia |].
      replace (Z.of_nat (S fuel)) with (1 + Z.of_nat fuel) in Hn by lia.
      rewrite Z.pow_add_r in Hn by lia. lia. }
    specialize (IH (n / 10) (String (digit_char (n mod 10)) rest) Hfuel Hdiv).
    cbn [String.length] in IH.
    destruct (decimal_spec fuel (n / 10)
                (String (digit_char (n mod 10)) rest) Hfuel Hdiv)
      as (k & Hk & _ & Hlen & _).
    cbn [String.length] in Hlen. rewrite Hlen in *.
    replace (Z.of_nat (Z.to_nat k + S (String.length rest))
             - Z.of_nat (S (String.length rest)) - 1) with (k - 1) in IH by lia.
    replace (Z.of_nat (Z.to_nat k + S (String.length rest))
             - Z.of_nat (String.length rest) - 1) with ((k - 1) + 1) by lia.
    rewrite Z.pow_add_r by lia. change (10 ^ 1) with 10.
    assert (1 <= n / 10) by (apply Z.div_le_lower_bound; lia).
    pose proof (Z.div_mod n 10 ltac:(lia)) as Hdm.
    pose proof (Z.mod_pos_bound n 10 ltac:(lia)).
    lia.
Qed.

(** ** Strings: [strip], [split] and [join] *)

Lemma all_chars_impl (p q : ascii -> bool) (s : string) :
  (forall c, p c = true -> q c = true) ->
  all_chars p s = true -> all_chars q s = true.
Proof.
  intros Hpq. induction s as [| c s IH]; [done |]. cbn.
  intros [Hc Hs]%andb_prop. by rewrite (Hpq c Hc), IH.
Qed.

Lemma append_String (c : ascii) (s t : string) :
  String c s +:+ t = String c (s +:+ t).
Proof. reflexivity. Qed.

Lemma all_chars_app (p : ascii -> bool) (s t : string) :
  all_chars p (s +:+ t) = all_chars p s && all_chars p t.
Proof.
  induction s as [| c s IH]; [reflexivity |]. rewrite append_String. cbn [all_chars].
  by rewrite IH, andb_assoc.
Qed.

Lemma rstrip_no_space (s : string) :
  all_chars (fun c => negb (is_space c)) s = true -> rstrip s = s.
Proof.
  induction s as [| c s IH]; [done |]. cbn.
  intros [Hc Hs]%andb_prop. rewrite (IH Hs).
  apply negb_true_iff in Hc. rewrite Hc. by destruct s.
Qed.

Lemma strip_no_space (s : string) :
  all_chars (fun c => negb (is_space c)) s = true -> strip s = s.
Proof.
  intros Hs. unfold strip.
  assert (Hl : lstrip s = s).
  { destruct s as [| c s]; [done |]. cbn in *.
    apply andb_prop in Hs as [Hc _]. apply negb_true_iff in Hc.
    by rewrite Hc. }
  rewrite Hl. by apply rstrip_no_space.
Qed.

(** The white space that [int()] skips is white space of [str.strip]. *)
Lemma is_number_space_is_space (c : ascii) :
  is_number_space c = true -> is_space c = true.
Proof.
  destruct c as [[] [] [] [] [] [] [] []]; vm_compute; intros; done.
Qed.

Lemma rstrip_by_none (space : ascii -> bool) (s : string) :
  all_chars (fun c => negb (space c)) s = true -> rstrip_by space s = s.
Proof.
  induction s as [| c s IH]; [done |]. cbn.
  intros [Hc Hs]%andb_prop. rewrite (IH Hs).
  apply negb_true_iff in Hc. rewrite Hc. by destruct s.
Qed.

Lemma strip_by_none (space : ascii -> bool) (s : string) :
  all_chars (fun c => negb (space c)) s = true -> strip_by space s = s.
Proof.
  intros Hs. unfold strip_by.
  assert (Hl : lstrip_by space s = s).
  { destruct s as [| c s]; [done |]. cbn in *.
    apply andb_prop in Hs as [Hc _]. apply negb_true_iff in Hc.
    by rewrite Hc. }
  rewrite Hl. by apply rstrip_by_none.
Qed.

Lemma count_char_app (c : ascii) (s t : string) :
  count_char c (s +:+ t) = (count_char c s + count_char c t)%nat.
Proof.
  induction s as [| c' s IH]; [reflexivity |]. rewrite append_String. cbn [count_char].
  rewrite IH. lia.
Qed.

Lemma count_char_none (p : ascii -> bool) (c : ascii) (s : string) :
  p c = false -> all_chars p s = true -> count_char c s = O.
Proof.
  intros Hc. induction s as [| c' s IH]; [done |]. cbn.
  intros [Hc' Hs]%andb_prop. rewrite (IH Hs).
  destruct (Ascii.eqb_spec c' c) as [-> |]; [congruence | done].
Qed.

Lemma split_nonempty (sep : ascii) (s : string) : split sep s <> [].
Proof.
  destruct s as [| c s]; [done |]. cbn.
  destruct (Ascii.eqb c sep); [done |]. by destruct (split sep s).
Qed.

(** [split] makes one piece more than there are separators. *)
Lemma split_length (sep : ascii) (s : string) :
  length (split sep s) = S (count_char sep s).
Proof.
  induction s as [| c s IH]; [reflexivity |]. cbn [split count_char].
  destruct (Ascii.eqb c sep); cbn [length]; [by rewrite IH |].
  destruct (split sep s); cbn in *; lia.
Qed.

Lemma split_no_sep (sep : ascii) (s : string) :
  count_char sep s = O -> split sep s = [s].
Proof.
  induction s as [| c s IH]; [done |]. cbn [split count_char].
  destruct (Ascii.eqb c sep); [done |]. cbn. intros Hs. by rewrite (IH Hs).
Qed.

Lemma split_app (sep : ascii) (s t : string) :
  count_char sep s = O ->
  split sep (s +:+ String sep t) = s :: split sep t.
Proof.
  induction s as [| c s IH].
  - intros _. change ("" +:+ String sep t) with (String sep t).
    cbn [split]. by rewrite Ascii.eqb_refl.
  - rewrite append_String. cbn [split count_char].
    destruct (Ascii.eqb c sep); [done |]. cbn. intros Hs. by rewrite (IH Hs).
Qed.

(** No piece of [split] holds the separator. *)
Lemma split_pieces (sep : ascii) (s : string) :
  Forall (fun piece => count_char sep piece = O) (split sep s).
Proof.
  induction s as [| c s IH]; [by repeat constructor |]. cbn [split].
  destruct (Ascii.eqb c sep) eqn:Hc; [by constructor |].
  destruct (split sep s) as [| piece pieces].
  - repeat constructor. cbn. by rewrite Hc.
  - apply Forall_cons in IH as [Hpiece Hpieces].
    constructor; [| done]. cbn. by rewrite Hc.
Qed.

(** What was joined with a separator is what [split] finds again. *)
Lemma split_join (sep : ascii) (xs : list string) :
  xs <> [] ->
  Forall (fun x => count_char sep x = O) xs ->
  split sep (join (String sep EmptyString) xs) = xs.
Proof.
  intros Hne Hxs. induction Hxs as [| x xs Hx Hxs IH]; [done |].
  destruct xs as [| y ys]; [by apply split_no_sep |].
  change (join (String sep "") (x :: y :: ys))
    with (x +:+ String sep "" +:+ join (String sep "") (y :: ys)).
  change (String sep "" +:+ join (String sep "") (y :: ys))
    with (String sep (join (String sep "") (y :: ys))).
  rewrite split_app by done. f_equal. by apply IH.
Qed.

Lemma lstrip_count (c : ascii) (s : string) :
  (count_char c (lstrip s) <= count_char c s)%nat.
Proof.
  induction s as [| c' s IH]; [done |]. cbn [lstrip].
  destruct (is_space c'); [cbn; lia | done].
Qed.

Lemma rstrip_count (c : ascii) (s : string) :
  (count_char c (rstrip s) <= count_char c s)%nat.
Proof.
  induction s as [| c' s IH]; [done |]. cbn [rstrip].
  destruct (rstrip s) as [| c'' t] eqn:Ht.
  - destruct (is_space c'); cbn in *; lia.
  - cbn in *. lia.
Qed.

Lemma strip_count (c : ascii) (s : string) :
  (count_char c (strip s) <= count_char c s)%nat.
Proof.
  unfold strip. etransitivity; [apply rstrip_count | apply lstrip_count].
Qed.

Lemma rstrip_String (c : ascii) (s : string) :
  rstrip (String c s)
  = match rstrip s with
    | EmptyString => if is_space c then EmptyString else String c EmptyString
    | t => String c t
    end.
Proof. reflexivity. Qed.

Lemma rstrip_idemp (s : string) : rstrip (rstrip s) = rstrip s.
Proof.
  induction s as [| c s IH]; [done |]. rewrite rstrip_String.
  destruct (rstrip s) as [| c' t] eqn:Ht.
  - destruct (is_space c) eqn:Hc; [done |]. cbn. by rewrite Hc.
  - rewrite rstrip_String, IH. reflexivity.
Qed.

Lemma lstrip_starts_clean (s : string) : starts_clean (lstrip s).
Proof.
  induction s as [| c s IH]; [done |]. cbn [lstrip].
  by destruct (is_space c) eqn:Hc.
Qed.

Lemma rstrip_starts_clean (s : string) :
  starts_clean s -> starts_clean (rstrip s).
Proof.
  destruct s as [| c s]; [done |]. cbn. intros Hc.
  destruct (rstrip s); [by rewrite Hc | done].
Qed.

Lemma lstrip_clean (s : string) : starts_clean s -> lstrip s = s.
Proof. destruct s as [| c s]; [done |]. cbn. by intros ->. Qed.

Lemma strip_idemp (s : string) : strip (strip s) = strip s.
Proof.
  unfold strip.
  rewrite (lstrip_clean (rstrip (lstrip s)))
    by apply rstrip_starts_clean, lstrip_starts_clean.
  apply rstrip_idemp.
Qed.

(** ** builder.py and filters.py: what the builder writes, the engine reads *)

Lemma is_digit_plain (c : ascii) :
  is_digit c = true ->
  is_space c = false /\ Ascii.eqb c "," = false /\ Ascii.eqb c "-" = false
  /\ Ascii.eqb c "+" = false.
Proof.
  destruct c as [[] [] [] [] [] [] [] []]; vm_compute; intros; done.
Qed.

Lemma decimal_digits (fuel : nat) :
  forall n rest,
    0 <= n -> all_chars is_digit rest = true ->
    all_chars is_digit (decimal fuel n rest) = true.
Proof.
  induction fuel as [| fuel IH]; intros n rest Hn Hrest; [done |].
  cbn [decimal].
  assert (Hd : all_chars is_digit (String (digit_char (n mod 10)) rest) = true).
  { cbn [all_chars]. rewrite Hrest.
    destruct (digit_char_spec (n mod 10)) as (-> & _);
      [apply Z.mod_pos_bound; lia | done]. }
  destruct (n <? 10); [done |].
  apply IH; [apply Z.div_pos; lia | done].
Qed.

(** What [str] prints for an int: an optional minus sign and at most 4300
    digits, which read back as its absolute value. *)
Lemma str_of_int_spec (z : Z) (s : string) :
  str_of_int z = Ok s ->
  exists digits k,
    s = (if z <? 0 then String "-" digits else digits)
    /\ all_chars is_digit digits = true
    /\ 1 <= k <= int_max_str_digits
    /\ (exists d tl, digits = String d tl)
    /\ forall acc cnt,
         scan_digits acc cnt digits
         = (acc * 10 ^ k + Z.abs z, cnt + k, EmptyString).
Proof.
  unfold str_of_int.
  set (fuel := S (Z.to_nat (Z.log2 (Z.abs z)))).
  destruct (decimal_spec fuel (Z.abs z) EmptyString)
    as (k & Hk & _ & Hlen & Hscan);
    [subst fuel; lia | split; [lia | apply decimal_fuel; lia] |].
  cbn [String.length] in Hlen.
  destruct (int_max_str_digits <? _) eqn:Hmax; [discriminate |].
  apply Z.ltb_ge in Hmax. intros [= <-].
  exists (decimal fuel (Z.abs z) EmptyString), k.
  split; [reflexivity |].
  split; [apply decimal_digits; [lia | done] |].
  split; [lia |].
  split; [| intros acc cnt; by rewrite Hscan].
  destruct (decimal fuel (Z.abs z) EmptyString); [cbn in Hlen; lia | eauto].
Qed.

Lemma str_of_int_no_space (z : Z) (s : string) :
  str_of_int z = Ok s -> all_chars (fun c => negb (is_space c)) s = true.
Proof.
  intros (digits & k & -> & Hdigits & _)%str_of_int_spec.
  assert (all_chars (fun c => negb (is_space c)) digits = true).
  { eapply all_chars_impl; [| exact Hdigits].
    intros c (-> & _)%is_digit_plain. done. }
  destruct (z <? 0); [cbn [all_chars]; by rewrite H |  done].
Qed.

Lemma str_of_int_plain (z : Z) (s : string) :
  str_of_int z = Ok s -> plain s.
Proof.
  intros Hs. pose proof (str_of_int_no_space _ _ Hs) as Hclean.
  apply str_of_int_spec in Hs as (digits & k & -> & Hdigits & _).
  split; [by apply strip_no_space |].
  assert (Hcomma : count_char "," digits = O).
  { eapply (count_char_none is_digit); [by vm_compute | done]. }
  destruct (z <? 0); [cbn [count_char]; by rewrite Hcomma | done].
Qed.

(** [int] reads what [str] printed. *)
Lemma int_of_str_of_int (z : Z) (s : string) :
  str_of_int z = Ok s -> int_of_str s = Ok z.
Proof.
  intros Hs.
  assert (Hstrip : strip_by is_number_space s = s).
  { apply strip_by_none. eapply all_chars_impl; [| exact (str_of_int_no_space _ _ Hs)].
    intros c Hc. cbv beta in Hc. destruct (is_number_space c) eqn:Hn; [| done].
    by rewrite (is_number_space_is_space _ Hn) in Hc. }
  revert Hstrip. apply str_of_int_spec in Hs
    as (digits & k & -> & Hdigits & Hk & (d & tl & Hshape) & Hscan).
  intros Hstrip.
  unfold int_of_str. rewrite Hstrip.
  assert (Hd : is_digit d = true).
  { rewrite Hshape in Hdigits. cbn in Hdigits.
    by apply andb_prop in Hdigits as [-> _]. }
  destruct (is_digit_plain d Hd) as (_ & _ & Hminus & Hplus).
  assert (Hpart : digitpart 0 digits = Some (Z.abs z, k, EmptyString)).
  { unfold digitpart. rewrite Hshape, Hd, <- Hshape, Hscan. do 3 f_equal; lia. }
  destruct (z <? 0) eqn:Hneg.
  - cbn [sign]. change (Ascii.eqb "-" "-") with true. cbv iota.
    rewrite Hpart.
    destruct (int_max_str_digits <? k) eqn:Hmax; [lia |].
    f_equal. lia.
  - unfold sign. rewrite Hshape, Hminus, Hplus, <- Hshape, Hpart.
    destruct (int_max_str_digits <? k) eqn:Hmax; [lia |].
    f_equal. lia.
Qed.

(** Which ints [str] prints. *)
Lemma str_of_int_defined (z : Z) :
  (exists s, str_of_int z = Ok s) <-> Z.abs z < 10 ^ int_max_str_digits.
Proof.
  unfold str_of_int.
  set (fuel := S (Z.to_nat (Z.log2 (Z.abs z)))).
  assert (Hfuel : (0 < fuel)%nat) by (subst fuel; lia).
  assert (Hn : 0 <= Z.abs z < 10 ^ Z.of_nat fuel)
    by (split; [lia | apply decimal_fuel; lia]).
  destruct (decimal_spec fuel (Z.abs z) EmptyString Hfuel Hn)
    as (k & Hk & Hlt & Hlen & _).
  pose proof (decimal_lower fuel (Z.abs z) EmptyString Hfuel Hn) as Hlow.
  rewrite Hlen in *. cbn [String.length] in *.
  replace (Z.of_nat (Z.to_nat k + 0) - Z.of_nat 0 - 1) with (k - 1) in Hlow
    by lia.
  destruct (int_max_str_digits <? Z.of_nat (Z.to_nat k + 0)) eqn:Hmax.
  - apply Z.ltb_lt in Hmax. split; [by intros [s [=]] |].
    intros Habs. exfalso.
    assert (10 ^ int_max_str_digits <= 10 ^ (k - 1))
      by (apply Z.pow_le_mono_r; lia).
    assert (1 < 10 ^ int_max_str_digits).
    { apply Z.pow_gt_1; [lia | by vm_compute]. }
    lia.
  - apply Z.ltb_ge in Hmax. split; [intros _ | by eauto].
    eapply Z.lt_le_trans; [exact Hlt |].
    apply Z.pow_le_mono_r; lia.
Qed.

Section BuilderAndEngine.
Context `{DateLib}.

Lemma to_str_plain (pytype : PyType) (value : BuilderValue) (pv : PyValue)
    (s : string) :
  python_value pytype value = Some pv -> listable value ->
  FieldBuilder._to_str value = Ok s -> plain s.
Proof.
  destruct value as [t | z | | [] | |], pytype; try discriminate;
    cbn [FieldBuilder._to_str listable]; intros _ Hl Hs.
  - by injection Hs as <-.
  - by eapply str_of_int_plain.
  - injection Hs as <-. by vm_compute.
  - injection Hs as <-. by vm_compute.
Qed.

Lemma coerce_to_str (column : Column) (pytype : PyType)
    (given : option PyType) (value : BuilderValue) (pv : PyValue)
    (s : string) :
  typed_as column pytype given ->
  python_value pytype value = Some pv ->
  FieldBuilder._to_str value = Ok s ->
  _coerce_value column s given = Ok pv.
Proof.
  intros Htyped Hpv Hs.
  assert (Hgiven : _coerce_value column s given
                   = _coerce_value column s (Some pytype)).
  { destruct Htyped as [-> | [-> Hcol]]; [done |].
    unfold _coerce_value. by rewrite Hcol. }
  rewrite Hgiven. clear Hgiven Htyped.
  destruct value as [t | z | | b | |], pytype; try discriminate;
    cbn in Hpv, Hs; injection Hpv as <-.
  - by injection Hs as <-.
  - unfold _coerce_value. cbn. rewrite (int_of_str_of_int _ _ Hs). done.
  - injection Hs as <-. by destruct b.
Qed.
End BuilderAndEngine.

Lemma map_result_Forall2 {A B} (f : A -> Result B) (xs : list A)
    (ys : list B) :
  map_result f xs = Ok ys <-> Forall2 (fun x y => f x = Ok y) xs ys.
Proof.
  revert ys. induction xs as [| x xs IH]; intros ys; cbn [map_result].
  - split; [by intros [= <-] | by inversion 1].
  - destruct (f x) as [y | e] eqn:Hx; rewrite ?bind_Ok, ?bind_Raise.
    + destruct (map_result f xs) as [ys' | e] eqn:Hxs;
        rewrite ?bind_Ok, ?bind_Raise.
      * split.
        -- intros [= <-]. constructor; [done | by apply IH].
        -- inversion 1 as [| ? y' ? ys'' Hy Htl]; subst.
           apply IH in Htl. congruence.
      * split; [done |]. inversion 1 as [| ? y' ? ys'' Hy Htl]; subst.
        apply IH in Htl. discriminate.
    + split; [done |]. inversion 1; congruence.
Qed.

Lemma split_values_length (raw : string) :
  length (_split_values raw) = S (count_char "," raw).
Proof. unfold _split_values. by rewrite length_fmap, split_length. Qed.

Lemma split_values_plain (raw : string) : Forall plain (_split_values raw).
Proof.
  unfold _split_values.
  apply Forall_fmap. eapply Forall_impl; [apply (split_pieces ",") |].
  intros piece Hpiece. split; [apply strip_idemp |].
  cbv beta in Hpiece. pose proof (strip_count "," piece). lia.
Qed.

(** X1: [_split_values] makes one piece more than the value has commas,
    so at least one; every piece is stripped and holds no comma; a piece
    that is stripped already and holds no comma comes back as it is. *)
Theorem split_values_pieces (raw : string) :
  length (_split_values raw) = S (count_char "," raw)
  /\ Forall plain (_split_values raw)
  /\ (plain raw -> _split_values raw = [raw]).
Proof.
  split; [apply split_values_length |]. split; [apply split_values_plain |].
  intros [Hstrip Hcomma]. unfold _split_values.
  rewrite (split_no_sep "," raw Hcomma). cbn. by rewrite Hstrip.
Qed.

(** Plain pieces joined with commas are the pieces [_split_values] finds. *)
Lemma split_values_join (pieces : list string) :
  pieces <> [] -> Forall plain pieces ->
  _split_values (join "," pieces) = pieces.
Proof.
  intros Hne Hplain. unfold _split_values.
  rewrite (split_join "," pieces Hne).
  - apply list_eq. intros i. rewrite list_lookup_fmap.
    destruct (pieces !! i) as [piece |] eqn:Hi; [| done]. cbn.
    by destruct (Forall_lookup_1 _ _ _ _ Hplain Hi) as [-> _].
  - eapply Forall_impl; [exact Hplain |]. by intros piece [_ ?].
Qed.

Section BuilderRoundTrips.
Context `{DateLib}.
Variables (column : Column) (pytype : PyType) (given : option PyType).
Hypothesis Htyped : typed_as column pytype given.

(** X2: A comparison written with the builder, on an int, a bool or a string,
    is read by the engine as that comparison of the column with that
    value. *)
Theorem builder_comparison_round_trip (operator : FilterOperator)
    (cmp : SqlExpr -> PyValue -> Pred)
    (method : FieldBuilder.t -> FilterBuilder.t -> BuilderValue
              -> Result FilterBuilder.t)
    (fb : FieldBuilder.t) (parent parent' : FilterBuilder.t)
    (value : BuilderValue) (pv : PyValue) :
  comparison operator = Some cmp ->
  comparison_method operator = Some method ->
  python_value pytype value = Some pv ->
  method fb parent value = Ok parent' ->
  exists f,
    FilterBuilder._filters parent' = FilterBuilder._filters parent ++ [f]
    /\ Filter.field f = FieldBuilder._field fb
    /\ FilterEngine.build_filter_condition FILTER_STRATEGIES column f given
       = Ok (Some (cmp (ECol column) pv)).
Proof.
  intros Hcmp Hmethod Hpv Hcall.
  assert (Hstr : exists s,
            FieldBuilder._to_str value = Ok s
            /\ parent' = FieldBuilder._add_filter fb parent operator s).
  { destruct operator; try discriminate; injection Hmethod as <-;
      unfold FieldBuilder.eq, FieldBuilder.ne, FieldBuilder.gt,
        FieldBuilder.gte, FieldBuilder.lt, FieldBuilder.lte in Hcall;
      destruct (FieldBuilder._to_str value) as [s | e]; try discriminate;
      rewrite bind_Ok in Hcall; injection Hcall as <-; by eexists. }
  destruct Hstr as (s & Hs & ->).
  eexists. split; [reflexivity |]. split; [reflexivity |].
  pose proof (coerce_to_str column pytype given value pv s Htyped Hpv Hs)
    as Hcoerce.
  destruct operator; try discriminate; injection Hcmp as <-;
    unfold FilterEngine.build_filter_condition; cbn;
    unfold _strategy_eq, _strategy_ne, _strategy_gt, _strategy_gte,
      _strategy_lt, _strategy_lte; by rewrite Hcoerce.
Qed.

Lemma coerce_each (values : list BuilderValue) (pvs : list PyValue)
    (strs : list string) :
  Forall2 (fun v pv => python_value pytype v = Some pv) values pvs ->
  Forall2 (fun v s => FieldBuilder._to_str v = Ok s) values strs ->
  map_result (fun s => _coerce_value column s given) strs = Ok pvs.
Proof.
  intros Hpvs. revert strs.
  induction Hpvs as [| v pv values pvs Hv _ IH]; intros strs Hstrs.
  - by inversion Hstrs.
  - inversion Hstrs as [| ? s ? strs' Hs Htl]; subst. cbn [map_result].
    rewrite (coerce_to_str column pytype given v pv s Htyped Hv Hs), bind_Ok.
    by rewrite (IH _ Htl).
Qed.

Lemma to_str_each_plain (values : list BuilderValue) (pvs : list PyValue)
    (strs : list string) :
  Forall listable values ->
  Forall2 (fun v pv => python_value pytype v = Some pv) values pvs ->
  Forall2 (fun v s => FieldBuilder._to_str v = Ok s) values strs ->
  Forall plain strs.
Proof.
  intros Hl Hpvs. revert strs.
  induction Hpvs as [| v pv values pvs Hv _ IH]; intros strs Hstrs.
  - inversion Hstrs. constructor.
  - inversion Hstrs as [| ? s ? strs' Hs Htl]; subst.
    apply Forall_cons in Hl as [Hlv Hl].
    constructor; [exact (to_str_plain pytype v pv s Hv Hlv Hs) | by apply IH].
Qed.

(** X3: A list of ints, bools or plain strings written with [in_] is read by
    the engine as an IN over these values. *)
Theorem builder_in_round_trip (fb : FieldBuilder.t)
    (parent parent' : FilterBuilder.t) (values : list BuilderValue)
    (pvs : list PyValue) :
  values <> [] ->
  Forall listable values ->
  Forall2 (fun v pv => python_value pytype v = Some pv) values pvs ->
  FieldBuilder.in_ fb parent values = Ok parent' ->
  exists f,
    FilterBuilder._filters parent' = FilterBuilder._filters parent ++ [f]
    /\ Filter.field f = FieldBuilder._field fb
    /\ FilterEngine.build_filter_condition FILTER_STRATEGIES column f given
       = Ok (Some (PIn (ECol column) pvs)).
Proof.
  intros Hne Hl Hpvs. unfold FieldBuilder.in_.
  destruct (map_result FieldBuilder._to_str values) as [strs | e] eqn:Hstrs;
    [| discriminate].
  rewrite bind_Ok. intros [= <-].
  apply map_result_Forall2 in Hstrs.
  eexists. split; [reflexivity |]. split; [reflexivity |].
  unfold FilterEngine.build_filter_condition, FILTER_STRATEGIES.
  cbn [Filter.operator Filter.value]. unfold _strategy_in.
  rewrite split_values_join.
  - by rewrite (coerce_each values pvs strs Hpvs Hstrs).
  - intros ->. inversion Hstrs. by subst.
  - by eapply to_str_each_plain.
Qed.

(** X4: Two bounds, ints, bools or plain strings, written with [between] are
    read by the engine as a BETWEEN of these two values. *)
Theorem builder_between_round_trip (fb : FieldBuilder.t)
    (parent parent' : FilterBuilder.t) (low high : BuilderValue)
    (pv_low pv_high : PyValue) :
  listable low -> listable high ->
  python_value pytype low = Some pv_low ->
  python_value pytype high = Some pv_high ->
  FieldBuilder.between fb parent low high = Ok parent' ->
  exists f,
    FilterBuilder._filters parent' = FilterBuilder._filters parent ++ [f]
    /\ Filter.field f = FieldBuilder._field fb
    /\ FilterEngine.build_filter_condition FILTER_STRATEGIES column f given
       = Ok (Some (PBetween (ECol column) pv_low pv_high)).
Proof.
  intros Hll Hlh Hlow Hhigh. unfold FieldBuilder.between.
  destruct (FieldBuilder._to_str low) as [l | e] eqn:Hl; [| discriminate].
  destruct (FieldBuilder._to_str high) as [h | e] eqn:Hh; [| discriminate].
  rewrite !bind_Ok. intros [= <-].
  eexists. split; [reflexivity |]. split; [reflexivity |].
  unfold FilterEngine.build_filter_condition, FILTER_STRATEGIES.
  cbn [Filter.operator Filter.value]. unfold _strategy_between.
  change (l +:+ "," +:+ h) with (join "," [l; h]).
  rewrite split_values_join;
    [| done
     | constructor; [exact (to_str_plain pytype low pv_low l Hlow Hll Hl) |];
       constructor; [exact (to_str_plain pytype high pv_high h Hhigh Hlh Hh) |];
       constructor].
  cbn.
  rewrite (coerce_to_str column pytype given low pv_low l Htyped Hlow Hl).
  rewrite (coerce_to_str column pytype given high pv_high h Htyped Hhigh Hh).
  done.
Qed.

End BuilderRoundTrips.

Section Strategies.
Context `{DateLib}.
Variables (column : Column) (given : option PyType).

(** X5: A bound with a comma in it: the filter [between] builds has more than
    two pieces, and the engine drops it without a word. *)
Theorem builder_between_comma_dropped (fb : FieldBuilder.t)
    (parent : FilterBuilder.t) (low high : BuilderValue) (l h : string) :
  FieldBuilder._to_str low = Ok l ->
  FieldBuilder._to_str high = Ok h ->
  (count_char "," l + count_char "," h)%nat <> O ->
  exists f,
    FieldBuilder.between fb parent low high
    = Ok (FilterBuilder.mk (FilterBuilder._filters parent ++ [f]))
    /\ FilterEngine.build_filter_condition FILTER_STRATEGIES column f given
       = Ok None.
Proof.
  intros Hl Hh Hcomma. unfold FieldBuilder.between.
  rewrite Hl, Hh, !bind_Ok.
  eexists. split; [reflexivity |].
  unfold FilterEngine.build_filter_condition, FILTER_STRATEGIES.
  cbn [Filter.operator Filter.value]. unfold _strategy_between.
  pose proof (split_values_length (l +:+ "," +:+ h)) as Hlen.
  rewrite !count_char_app in Hlen.
  change (count_char "," ",") with 1%nat in Hlen.
  rewrite decide_False by lia. reflexivity.
Qed.

(** X6: An IN or NOT IN condition is never over an empty list: the list has
    one value more than the filter value has commas. *)
Theorem in_condition_never_empty (f : Filter.t) (condition : option Pred) :
  Filter.operator f = IN \/ Filter.operator f = NOT_IN ->
  FilterEngine.build_filter_condition FILTER_STRATEGIES column f given
  = Ok condition ->
  exists vals,
    length vals = S (count_char "," (Filter.value f))
    /\ condition
       = Some (if decide (Filter.operator f = IN) then PIn (ECol column) vals
               else PNot (PIn (ECol column) vals)).
Proof.
  intros Hop. unfold FilterEngine.build_filter_condition.
  pose proof (split_values_length (Filter.value f)) as Hlen.
  destruct Hop as [-> | ->]; cbn; unfold _strategy_in, _strategy_not_in;
    destruct (map_result _ _) as [vals | e] eqn:Hvals; try discriminate;
    rewrite bind_Ok; intros [= <-];
    apply map_result_Forall2, Forall2_length in Hvals;
    exists vals; (split; [congruence | done]).
Qed.

(** X7: With the strategies the module registers, the only filters that give
    no condition are the BETWEEN filters whose value has not exactly one
    comma. *)
Theorem default_strategies_drop_only_between (f : Filter.t) :
  FilterEngine.build_filter_condition FILTER_STRATEGIES column f given
  = Ok None
  <-> Filter.operator f = BETWEEN /\ count_char "," (Filter.value f) <> 1%nat.
Proof.
  unfold FilterEngine.build_filter_condition.
  pose proof (split_values_length (Filter.value f)) as Hlen.
  destruct (Filter.operator f) eqn:Hop; cbn;
    unfold _strategy_eq, _strategy_ne, _strategy_gt, _strategy_gte,
      _strategy_lt, _strategy_lte, _strategy_like, _strategy_not_like,
      _strategy_ilike, _strategy_not_ilike, _strategy_in, _strategy_not_in,
      _strategy_is_null, _strategy_is_not_null, _strategy_starts_with,
      _strategy_ends_with, _strategy_contains, _strategy_between;
    try (split; [| by intros [? _]];
         repeat (let x := fresh in
                 destruct (_coerce_value _ _ _) as [x | x];
                 rewrite ?bind_Ok, ?bind_Raise);
         try destruct (map_result _ _);
         rewrite ?bind_Ok, ?bind_Raise;
         try destruct (_ilike_supported column); discriminate).
  destruct (decide _) as [Htwo | Hnot].
  - split; [| intros [_ ?]; lia].
    do 2 destruct (_coerce_value _ _ _); cbn [mbind Result_bind];
      discriminate.
  - split; [intros _; split; [done | lia] | done].
Qed.

End Strategies.

(** ** filters.py: the engine *)

Lemma get_column_type_cache_grows (self self' : FilterEngine.t)
    (column : Column) (pytype : option PyType) :
  FilterEngine.get_column_type self column = Ok (pytype, self') ->
  FilterEngine._type_cache self ⊆ FilterEngine._type_cache self'.
Proof.
  unfold FilterEngine.get_column_type.
  destruct (FilterEngine._type_cache self !! col_id column) as [t |] eqn:Hhit.
  - rewrite bind_Ok. by intros [= _ <-].
  - destruct (try_except _ _ _) as [t | e]; [| discriminate].
    rewrite !bind_Ok. intros [= _ <-]. by apply insert_subseteq.
Qed.

(** X8: The column-type memo.  A call answers with what the memo holds for the
    id of the column afterwards; it leaves the policy and every other entry
    alone; any later call for a column of the same id gets the same answer
    from the memo, whatever that column says about its type. *)
Theorem get_column_type_memo (self self' : FilterEngine.t)
    (column : Column) (pytype : option PyType) :
  FilterEngine.get_column_type self column = Ok (pytype, self') ->
  FilterEngine._type_cache self' !! col_id column = Some pytype
  /\ FilterEngine.strict_mode self' = FilterEngine.strict_mode self
  /\ (forall k, k <> col_id column ->
        FilterEngine._type_cache self' !! k
        = FilterEngine._type_cache self !! k)
  /\ FilterEngine._type_cache self ⊆ FilterEngine._type_cache self'
  /\ forall other,
       col_id other = col_id column ->
       FilterEngine.get_column_type self' other = Ok (pytype, self').
Proof.
  unfold FilterEngine.get_column_type.
  destruct (FilterEngine._type_cache self !! col_id column) as [t |] eqn:Hhit.
  - rewrite bind_Ok, Hhit. intros [= <- <-].
    repeat split; try done.
    intros other ->. by rewrite Hhit, bind_Ok, Hhit.
  - destruct (try_except _ _ _) as [t | e]; [| discriminate].
    rewrite !bind_Ok. cbn [FilterEngine._type_cache].
    rewrite lookup_insert_eq. intros [= <- <-].
    cbn [FilterEngine._type_cache FilterEngine.strict_mode].
    split; [by rewrite lookup_insert_eq |]. split; [done |].
    split; [intros k Hk; by rewrite lookup_insert_ne |].
    split; [by apply insert_subseteq |].
    intros other ->.
    rewrite lookup_insert_eq, bind_Ok. cbn [FilterEngine._type_cache].
    by rewrite lookup_insert_eq.
Qed.

(** X9: [get_column_type] raises only on a column it has not seen, whose type
    raises something else than [AttributeError] or [NotImplementedError];
    the exception is that one. *)
Theorem get_column_type_raises (self : FilterEngine.t) (column : Column)
    (e : Exn) :
  FilterEngine.get_column_type self column = Raise e
  <-> FilterEngine._type_cache self !! col_id column = None
      /\ python_type column = Fails e
      /\ is_AttributeError e = false /\ is_NotImplementedError e = false.
Proof.
  unfold FilterEngine.get_column_type.
  destruct (FilterEngine._type_cache self !! col_id column) as [t |] eqn:Hhit.
  - rewrite bind_Ok. split; [discriminate | by intros [? _]].
  - destruct (python_type column) as [| t | e'] eqn:Htype;
      cbn [getattr_default try_except].
    + rewrite !bind_Ok. split; [discriminate | by intros (_ & ? & _)].
    + rewrite !bind_Ok. split; [discriminate | by intros (_ & ? & _)].
    + destruct (is_AttributeError e') eqn:Hattr;
        cbn [try_except orb].
      * rewrite !bind_Ok.
        split; [discriminate | intros (_ & [= <-] & ? & _); congruence].
      * destruct (is_NotImplementedError e') eqn:Hnot.
        -- rewrite Hattr. cbn [orb]. rewrite !bind_Ok.
           split; [discriminate | intros (_ & [= <-] & _ & ?); congruence].
        -- rewrite Hattr. cbn [orb]. rewrite bind_Raise.
           split; [by intros [= <-] | by intros (_ & [= <-] & _)].
Qed.

Lemma get_entity_attribute_query (query query' : Select) (field : string) :
  column_descriptions query' = column_descriptions query ->
  FilterEngine.get_entity_attribute query' field
  = FilterEngine.get_entity_attribute query field.
Proof. unfold FilterEngine.get_entity_attribute. by intros ->. Qed.

Section Engine.
Variables (registry : Registry) (columns_map : gmap string Column).

(** The loop reads the query for the entity of its columns only. *)
Lemma collect_conditions_query (query query' : Select)
    (filters : list Filter.t) :
  column_descriptions query' = column_descriptions query ->
  forall self conditions,
    FilterEngine.collect_conditions self registry query' columns_map filters
      conditions
    = FilterEngine.collect_conditions self registry query columns_map filters
        conditions.
Proof.
  intros Hq. induction filters as [| f filters IH]; intros self conds;
    [reflexivity |].
  cbn [FilterEngine.collect_conditions].
  rewrite (get_entity_attribute_query query query' _ Hq).
  destruct (match columns_map !! Filter.field f with
            | None => _ | Some c => _ end) as [[column |] | e];
    rewrite ?bind_Ok, ?bind_Raise; try reflexivity.
  - destruct (FilterEngine.get_column_type self column)
      as [[pytype self1] | e]; [| reflexivity].
    rewrite !bind_Ok.
    destruct (FilterEngine.build_filter_condition _ _ _ _) as [cond | e];
      [| reflexivity].
    rewrite !bind_Ok. apply IH.
  - destruct (FilterEngine.strict_mode self); [reflexivity | apply IH].
Qed.

(** The conditions the loop starts with stay in front of the ones it
    adds. *)
Lemma collect_conditions_acc (query : Select) (filters : list Filter.t) :
  forall self conditions,
    FilterEngine.collect_conditions self registry query columns_map filters
      conditions
    = '(added, self') ←
        FilterEngine.collect_conditions self registry query columns_map
          filters [];
      Ok (conditions ++ added, self').
Proof.
  induction filters as [| f filters IH]; intros self conds.
  { cbn. by rewrite app_nil_r. }
  cbn [FilterEngine.collect_conditions].
  destruct (match columns_map !! Filter.field f with
            | None => _ | Some c => _ end) as [[column |] | e];
    rewrite ?bind_Ok, ?bind_Raise; try reflexivity.
  - destruct (FilterEngine.get_column_type self column)
      as [[pytype self1] | e]; [| reflexivity].
    rewrite !bind_Ok.
    destruct (FilterEngine.build_filter_condition _ _ _ _) as [cond | e];
      [| reflexivity].
    rewrite !bind_Ok.
    rewrite (IH self1 (match cond with Some c => conds ++ [c] | None => conds
                       end)).
    rewrite (IH self1 (match cond with Some c => [] ++ [c] | None => []
                       end)).
    destruct (FilterEngine.collect_conditions _ _ _ _ _ [])
      as [[added self2] | e]; [| reflexivity].
    rewrite !bind_Ok. destruct cond; [| reflexivity].
    by rewrite <- app_assoc.
  - destruct (FilterEngine.strict_mode self); [reflexivity | apply IH].
Qed.

Lemma where_where (query : Select) (c1 c2 : list Pred) :
  where_ (where_ query c1) c2 = where_ query (c1 ++ c2).
Proof. unfold where_. cbn. by rewrite app_assoc. Qed.

(** X10: Filters applied in one batch, or in two batches one after the other
    with the same engine, give the same query, the same engine and the
    same error. *)
Theorem apply_filters_in_batches (self : FilterEngine.t) (query : Select)
    (first second : list Filter.t) :
  FilterEngine.apply_filters self registry query columns_map
    (Some (first ++ second))
  = '(query', self') ←
      FilterEngine.apply_filters self registry query columns_map (Some first);
    FilterEngine.apply_filters self' registry query' columns_map (Some second).
Proof.
  destruct first as [| f1 first]; [reflexivity |].
  destruct second as [| f2 second].
  { rewrite app_nil_r.
    destruct (FilterEngine.apply_filters self registry query columns_map
                (Some (f1 :: first))) as [[q s] | e]; reflexivity. }
  assert (Happ : FilterEngine.apply_filters self registry query columns_map
                   (Some ((f1 :: first) ++ f2 :: second))
                 = '(conditions, self') ←
                     FilterEngine.collect_conditions self registry query
                       columns_map ((f1 :: first) ++ f2 :: second) [];
                   Ok (match conditions with
                       | [] => query
                       | _ => where_ query conditions
                       end, self')) by reflexivity.
  rewrite Happ, collect_conditions_app. clear Happ.
  unfold FilterEngine.apply_filters.
  destruct (FilterEngine.collect_conditions self registry query columns_map
              (f1 :: first) []) as [[c1 s1] | e]; [| reflexivity].
  rewrite !bind_Ok.
  rewrite (collect_conditions_acc query (f2 :: second) s1 c1).
  assert (Hq : FilterEngine.collect_conditions s1 registry
                 (match c1 with [] => query | _ => where_ query c1 end)
                 columns_map (f2 :: second) []
               = FilterEngine.collect_conditions s1 registry query
                   columns_map (f2 :: second) []).
  { apply collect_conditions_query. by destruct c1. }
  rewrite Hq.
  destruct (FilterEngine.collect_conditions s1 registry query columns_map
              (f2 :: second) []) as [[c2 s2] | e]; [| reflexivity].
  rewrite !bind_Ok. f_equal. f_equal.
  destruct c1 as [| p1 c1]; [reflexivity |].
  destruct c2 as [| p2 c2]; [by rewrite app_nil_r |].
  by rewrite where_where.
Qed.

Lemma collect_conditions_frame (query : Select) (filters : list Filter.t) :
  forall self conditions conditions' self',
    FilterEngine.collect_conditions self registry query columns_map filters
      conditions = Ok (conditions', self') ->
    (exists added,
       conditions' = conditions ++ added
       /\ (length added <= length filters)%nat)
    /\ FilterEngine._type_cache self ⊆ FilterEngine._type_cache self'.
Proof.
  induction filters as [| f filters IH]; intros self conds conds' self'.
  { intros [= <- <-]. split; [| done]. exists []. by rewrite app_nil_r. }
  cbn [FilterEngine.collect_conditions].
  destruct (match columns_map !! Filter.field f with
            | None => _ | Some c => _ end) as [[column |] | e];
    rewrite ?bind_Ok, ?bind_Raise; try discriminate.
  - destruct (FilterEngine.get_column_type self column)
      as [[pytype self1] | e] eqn:Htype; [| discriminate].
    rewrite bind_Ok.
    destruct (FilterEngine.build_filter_condition _ _ _ _) as [cond | e];
      [| discriminate].
    rewrite bind_Ok. intros Hrest.
    apply IH in Hrest as [(added & -> & Hlen) Hcache].
    apply get_column_type_cache_grows in Htype as Hsub.
    split; [| by etransitivity].
    destruct cond as [c |].
    + exists (c :: added). rewrite <- app_assoc. split; [done | cbn; lia].
    + exists added. split; [done | cbn; lia].
  - destruct (FilterEngine.strict_mode self); [discriminate |].
    intros Hrest. apply IH in Hrest as [(added & -> & Hlen) Hcache].
    split; [| done]. exists added. split; [done | cbn; lia].
Qed.

(** X11: What [apply_filters] leaves alone and what it adds: the query keeps
    its columns, its entity and its order; its WHERE conditions stay in
    front of at most one new condition for each filter; the engine keeps
    its policy and every entry of its memo. *)
Theorem apply_filters_frame (self self' : FilterEngine.t)
    (query query' : Select) (filters : option (list Filter.t)) :
  FilterEngine.apply_filters self registry query columns_map filters
  = Ok (query', self') ->
  selected_columns query' = selected_columns query
  /\ column_descriptions query' = column_descriptions query
  /\ order_by_clauses query' = order_by_clauses query
  /\ (exists added,
        whereclause query' = whereclause query ++ added
        /\ (length added <= length (filter_list filters))%nat)
  /\ FilterEngine.strict_mode self' = FilterEngine.strict_mode self
  /\ FilterEngine._type_cache self ⊆ FilterEngine._type_cache self'.
Proof.
  unfold FilterEngine.apply_filters.
  assert (Hsame : (query', self') = (query, self) ->
            selected_columns query' = selected_columns query
            /\ column_descriptions query' = column_descriptions query
            /\ order_by_clauses query' = order_by_clauses query
            /\ (exists added,
                  whereclause query' = whereclause query ++ added
                  /\ (length added <= length (filter_list filters))%nat)
            /\ FilterEngine.strict_mode self' = FilterEngine.strict_mode self
            /\ FilterEngine._type_cache self
               ⊆ FilterEngine._type_cache self').
  { intros [= -> ->]. repeat split; try done.
    exists []. rewrite app_nil_r. split; [done | cbn; lia]. }
  destruct filters as [[| f filters] |];
    [intros [= <- <-]; by apply Hsame | | intros [= <- <-]; by apply Hsame].
  clear Hsame.
  destruct (FilterEngine.collect_conditions _ _ _ _ _ _) as [[c s] | e]
    eqn:Hcollect; [| discriminate].
  rewrite bind_Ok. intros [= <- <-].
  pose proof (collect_conditions_strict_mode _ _ _ _ _ _ _ _ Hcollect)
    as Hmode.
  apply collect_conditions_frame in Hcollect
    as [(added & Hadded & Hlen) Hcache].
  cbn [app] in Hadded. subst c.
  destruct added as [| p added].
  - repeat split; try done. exists []. rewrite app_nil_r.
    split; [done | cbn; lia].
  - repeat split; try done. by exists (p :: added).
Qed.

Lemma get_column_type_any_mode (strict : bool)
    (cache : gmap Z (option PyType)) (column : Column)
    (pytype : option PyType) (self' : FilterEngine.t) :
  FilterEngine.get_column_type (FilterEngine.mk true cache) column
  = Ok (pytype, self') ->
  FilterEngine.get_column_type (FilterEngine.mk strict cache) column
  = Ok (pytype, FilterEngine.mk strict (FilterEngine._type_cache self'))
  /\ self' = FilterEngine.mk true (FilterEngine._type_cache self').
Proof.
  unfold FilterEngine.get_column_type. cbn [FilterEngine._type_cache].
  destruct (cache !! col_id column) as [t |] eqn:Hhit.
  - rewrite !bind_Ok. cbn [FilterEngine._type_cache]. rewrite Hhit.
    by intros [= <- <-].
  - destruct (try_except _ _ _) as [t | e]; [| discriminate].
    rewrite !bind_Ok. cbn [FilterEngine._type_cache FilterEngine.strict_mode].
    by intros [= <- <-].
Qed.

Lemma collect_conditions_any_mode (query : Select) (filters : list Filter.t) :
  forall cache conditions conditions' self',
    FilterEngine.collect_conditions (FilterEngine.mk true cache) registry
      query columns_map filters conditions = Ok (conditions', self') ->
    FilterEngine.collect_conditions (FilterEngine.mk false cache) registry
      query columns_map filters conditions
    = Ok (conditions', FilterEngine.mk false (FilterEngine._type_cache self')).
Proof.
  induction filters as [| f filters IH]; intros cache conds conds' self'.
  { by intros [= <- <-]. }
  cbn [FilterEngine.collect_conditions].
  destruct (match columns_map !! Filter.field f with
            | None => _ | Some c => _ end) as [[column |] | e];
    rewrite ?bind_Ok, ?bind_Raise; try discriminate.
  destruct (FilterEngine.get_column_type (FilterEngine.mk true cache) column)
    as [[pytype self1] | e] eqn:Htype; [| discriminate].
  apply (get_column_type_any_mode false) in Htype as [-> Hself1].
  rewrite !bind_Ok.
  destruct (FilterEngine.build_filter_condition _ _ _ _) as [cond | e];
    [| discriminate].
  rewrite !bind_Ok. rewrite Hself1. apply IH.
Qed.

(** X12: Strict mode only adds errors: whatever [apply_filters] answers in
    strict mode it answers in lenient mode too. *)
Theorem strict_answer_is_lenient_answer (cache : gmap Z (option PyType))
    (query query' : Select) (filters : option (list Filter.t))
    (self' : FilterEngine.t) :
  FilterEngine.apply_filters (FilterEngine.mk true cache) registry query
    columns_map filters = Ok (query', self') ->
  FilterEngine.apply_filters (FilterEngine.mk false cache) registry query
    columns_map filters
  = Ok (query', FilterEngine.mk false (FilterEngine._type_cache self')).
Proof.
  unfold FilterEngine.apply_filters.
  destruct filters as [[| f filters] |]; try by intros [= <- <-].
  destruct (FilterEngine.collect_conditions (FilterEngine.mk true cache) _ _
              _ _ _) as [[c s] | e] eqn:Hcollect; [| discriminate].
  rewrite (collect_conditions_any_mode _ _ _ _ _ _ Hcollect), !bind_Ok.
  by intros [= <- <-].
Qed.

End Engine.

Section Registry.
Variables (registry : Registry) (operator : FilterOperator)
  (strategy : FilterStrategyFn) (columns_map : gmap string Column).

Lemma collect_conditions_registered (query : Select)
    (filters : list Filter.t) :
  Forall (fun f => Filter.operator f <> operator) filters ->
  forall self conditions,
    FilterEngine.collect_conditions self
      (FilterEngine.register_strategy registry operator strategy) query
      columns_map filters conditions
    = FilterEngine.collect_conditions self registry query columns_map filters
        conditions.
Proof.
  induction 1 as [| f filters Hf _ IH]; intros self conds; [reflexivity |].
  cbn [FilterEngine.collect_conditions].
  destruct (match columns_map !! Filter.field f with
            | None => _ | Some c => _ end) as [[column |] | e];
    rewrite ?bind_Ok, ?bind_Raise; try reflexivity.
  - destruct (FilterEngine.get_column_type self column)
      as [[pytype self1] | e]; [| reflexivity].
    rewrite !bind_Ok.
    assert (Hbuild : FilterEngine.build_filter_condition
                       (FilterEngine.register_strategy registry operator
                          strategy) column f pytype
                     = FilterEngine.build_filter_condition registry column f
                         pytype).
    { unfold FilterEngine.build_filter_condition,
        FilterEngine.register_strategy. by rewrite decide_False. }
    rewrite Hbuild.
    destruct (FilterEngine.build_filter_condition registry column f pytype)
      as [cond | e]; [| reflexivity].
    rewrite !bind_Ok. apply IH.
  - destruct (FilterEngine.strict_mode self); [reflexivity | apply IH].
Qed.

(** X13: A registered strategy answers the filters of its operator and no
    others: filters of other operators are applied as before, whatever was
    registered. *)
Theorem register_strategy_scope (self : FilterEngine.t) (query : Select)
    (filters : option (list Filter.t)) :
  Forall (fun f => Filter.operator f <> operator) (filter_list filters) ->
  FilterEngine.apply_filters self
    (FilterEngine.register_strategy registry operator strategy) query
    columns_map filters
  = FilterEngine.apply_filters self registry query columns_map filters.
Proof.
  intros Hothers. unfold FilterEngine.apply_filters.
  destruct filters as [[| f0 filters] |]; try reflexivity.
  by rewrite (collect_conditions_registered query (f0 :: filters) Hothers).
Qed.

End Registry.

(** ** sorting.py *)

Section Sorting.
Variables (columns_map : gmap string Column).

(** What [apply_sort] does to a query: nothing, or one more ORDER BY key;
    which of the two, and which key, depends on the query through its
    entity only. *)
Lemma apply_sort_shape (self : SortEngine.t) (query sorted_query : Select)
    (sorting : option SortingQuery.t) :
  SortEngine.apply_sort self query columns_map sorting = Ok sorted_query ->
  exists keys,
    (length keys <= 1)%nat
    /\ forall query',
         column_descriptions query' = column_descriptions query ->
         SortEngine.apply_sort self query' columns_map sorting
         = Ok (foldl order_by query' keys).
Proof.
  unfold SortEngine.apply_sort.
  destruct sorting as [sorting |];
    [| intros _; exists []; split; [cbn; lia | done]].
  destruct (negb (str_truthy (SortingQuery.sort_by sorting)));
    [intros _; exists []; split; [cbn; lia | done] |].
  destruct (columns_map !! SortingQuery.sort_by sorting) as [c |] eqn:Hc.
  - rewrite bind_Ok. intros _. eexists [_]. split; [cbn; lia |].
    intros query' _. reflexivity.
  - destruct (FilterEngine.get_entity_attribute query _)
      as [[c |] | e] eqn:Hattr; rewrite ?bind_Ok, ?bind_Raise;
      [| | discriminate].
    + intros _. eexists [_]. split; [cbn; lia |].
      intros query' Hq.
      by rewrite (get_entity_attribute_query query query' _ Hq), Hattr,
        bind_Ok.
    + destruct (SortEngine.strict_mode self); [discriminate |].
      intros _. exists []. split; [cbn; lia |].
      intros query' Hq.
      by rewrite (get_entity_attribute_query query query' _ Hq), Hattr,
        bind_Ok.
Qed.

(** X14: [apply_sort] leaves the columns, the entity and the WHERE conditions
    of the query alone and adds at most one ORDER BY key, on a column, in
    the direction asked for. *)
Theorem apply_sort_frame (self : SortEngine.t) (query query' : Select)
    (sorting : option SortingQuery.t) :
  SortEngine.apply_sort self query columns_map sorting = Ok query' ->
  selected_columns query' = selected_columns query
  /\ column_descriptions query' = column_descriptions query
  /\ whereclause query' = whereclause query
  /\ exists keys,
       order_by_clauses query' = order_by_clauses query ++ keys
       /\ (length keys <= 1)%nat
       /\ Forall (fun key =>
                    exists column s,
                      key = (ECol column, SortingQuery.order s)
                      /\ sorting = Some s) keys.
Proof.
  unfold SortEngine.apply_sort.
  assert (Hsame : Ok query = Ok query' ->
            selected_columns query' = selected_columns query
            /\ column_descriptions query' = column_descriptions query
            /\ whereclause query' = whereclause query
            /\ exists keys,
                 order_by_clauses query' = order_by_clauses query ++ keys
                 /\ (length keys <= 1)%nat
                 /\ Forall (fun key =>
                              exists column s,
                                key = (ECol column, SortingQuery.order s)
                                /\ sorting = Some s) keys).
  { intros [= <-]. repeat split; try done. exists [].
    rewrite app_nil_r. repeat split; [cbn; lia | constructor]. }
  destruct sorting as [sorting |]; [| done].
  destruct (negb (str_truthy (SortingQuery.sort_by sorting))); [done |].
  assert (Hkey : forall c,
            Ok (order_by query
                  (ECol c, if decide (SortingQuery.order sorting = DESC)
                           then DESC else ASC)) = Ok query' ->
            selected_columns query' = selected_columns query
            /\ column_descriptions query' = column_descriptions query
            /\ whereclause query' = whereclause query
            /\ exists keys,
                 order_by_clauses query' = order_by_clauses query ++ keys
                 /\ (length keys <= 1)%nat
                 /\ Forall (fun key =>
                              exists column s,
                                key = (ECol column, SortingQuery.order s)
                                /\ Some sorting = Some s) keys).
  { intros c [= <-]. repeat split; try done. eexists [_].
    split; [reflexivity |]. split; [cbn; lia |].
    constructor; [| constructor]. exists c, sorting. split; [| done].
    f_equal. by destruct (SortingQuery.order sorting). }
  destruct (columns_map !! SortingQuery.sort_by sorting) as [c |].
  - rewrite bind_Ok. apply Hkey.
  - destruct (FilterEngine.get_entity_attribute query _) as [[c |] | e];
      rewrite ?bind_Ok, ?bind_Raise; [apply Hkey | | discriminate].
    destruct (SortEngine.strict_mode self); [discriminate | done].
Qed.

(** X15: The only thing [apply_sort] raises is the 400 error of strict mode on
    a sort key that does not resolve. *)
Theorem apply_sort_raises (self : SortEngine.t) (query : Select)
    (sorting : option SortingQuery.t) (e : Exn) :
  SortEngine.apply_sort self query columns_map sorting = Raise e ->
  SortEngine.strict_mode self = true
  /\ exists s,
       sorting = Some s
       /\ SortingQuery.sort_by s <> ""
       /\ resolves query columns_map (SortingQuery.sort_by s) = false
       /\ e = HTTPException 400
                ("Unknown sort field '" +:+ SortingQuery.sort_by s
                 +:+ "'. Available fields: "
                 +:+ FilterEngine.available_fields columns_map).
Proof.
  unfold SortEngine.apply_sort, resolves.
  destruct sorting as [sorting |]; [| discriminate].
  destruct (SortingQuery.sort_by sorting) as [| c0 field] eqn:Hfield;
    [discriminate |]. cbn [str_truthy negb].
  destruct (columns_map !! String c0 field) as [c |] eqn:Hc;
    [rewrite bind_Ok; discriminate |].
  assert (Hok : exists r,
            FilterEngine.get_entity_attribute query (String c0 field) = Ok r).
  { unfold FilterEngine.get_entity_attribute, try_except.
    repeat case_match; eauto; discriminate. }
  destruct Hok as [[c |] Hattr]; rewrite Hattr, bind_Ok; [discriminate |].
  destruct (SortEngine.strict_mode self); [| discriminate].
  intros [= <-]. split; [done |]. exists sorting.
  rewrite Hfield, Hc, Hattr. by repeat split.
Qed.

Section Commute.
Variables (registry : Registry).

Lemma apply_filters_shape (engine engine' : FilterEngine.t)
    (query filtered : Select) (filters : option (list Filter.t)) :
  FilterEngine.apply_filters engine registry query columns_map filters
  = Ok (filtered, engine') ->
  exists conditions,
    forall query',
      column_descriptions query' = column_descriptions query ->
      FilterEngine.apply_filters engine registry query' columns_map filters
      = Ok (match conditions with
            | [] => query'
            | _ => where_ query' conditions
            end, engine').
Proof.
  unfold FilterEngine.apply_filters.
  destruct filters as [[| f filters] |];
    try (intros [= <- <-]; by exists []).
  destruct (FilterEngine.collect_conditions _ _ query _ _ _) as [[c s] | e]
    eqn:Hcollect; [| discriminate].
  rewrite bind_Ok. intros [= <- <-]. exists c. intros query' Hq.
  by rewrite (collect_conditions_query registry columns_map query query'
                (f :: filters) Hq), Hcollect, bind_Ok.
Qed.

(** X16: Filtering and sorting commute: when each of them goes through on the
    query, so do both one after the other, in either order, and they end
    in the same query and the same engine. *)
Theorem filter_and_sort_commute (engine engine' : FilterEngine.t)
    (sort_engine : SortEngine.t) (query filtered sorted_query : Select)
    (filters : option (list Filter.t)) (sorting : option SortingQuery.t) :
  FilterEngine.apply_filters engine registry query columns_map filters
  = Ok (filtered, engine') ->
  SortEngine.apply_sort sort_engine query columns_map sorting
  = Ok sorted_query ->
  exists both,
    SortEngine.apply_sort sort_engine filtered columns_map sorting = Ok both
    /\ FilterEngine.apply_filters engine registry sorted_query columns_map
         filters = Ok (both, engine').
Proof.
  intros Hfilter Hsort.
  destruct (apply_filters_shape _ _ _ _ _ Hfilter) as [conditions Hf].
  destruct (apply_sort_shape _ _ _ _ Hsort) as (keys & Hlen & Hs).
  rewrite (Hf query eq_refl) in Hfilter. injection Hfilter as <-.
  rewrite (Hs query eq_refl) in Hsort. injection Hsort as <-.
  assert (Hkeys : keys = [] \/ exists k, keys = [k]).
  { destruct keys as [| k [| k' keys]]; [by left | right; by eexists |].
    cbn in Hlen. lia. }
  eexists. split.
  - apply Hs. by destruct conditions.
  - rewrite Hf by (by destruct Hkeys as [-> | [k ->]]).
    f_equal. f_equal.
    destruct conditions as [| p conditions]; [done |].
    by destruct Hkeys as [-> | [k ->]].
Qed.

End Commute.
End Sorting.

(** ** pagination.py: pages *)

Section Pages.
Variables (request : Request) (use_window_function : option bool)
  (query : Select) (session : Session).


Lemma paginate_rows (page per_page : Z) :
  PaginationEngine.paginate (engine_at request use_window_function page per_page) query session
  = exec_result query
      <$> take (Z.to_nat per_page)
            (drop (Z.to_nat ((page - 1) * per_page)) (rows_of session query)).
Proof. reflexivity. Qed.

(** X17: The pages 1 to [k], one after the other, are the first [k * per_page]
    rows of the query: no row is left out, none comes twice. *)
Theorem pages_cover_the_rows (per_page : Z) (k : nat) :
  1 <= per_page ->
  mjoin ((fun page =>
            PaginationEngine.paginate (engine_at request use_window_function page per_page) query session)
         <$> seqZ 1 (Z.of_nat k))
  = exec_result query
      <$> take (Z.to_nat (Z.of_nat k * per_page)) (rows_of session query).
Proof.
  intros Hsize. induction k as [| k IH]; [reflexivity |].
  replace (Z.of_nat (S k)) with (Z.of_nat k + 1) by lia.
  rewrite seqZ_app by lia. rewrite fmap_app, join_app, IH.
  change (seqZ (1 + Z.of_nat k) 1) with [1 + Z.of_nat k].
  cbn [fmap list_fmap mjoin list_join]. rewrite app_nil_r, paginate_rows.
  rewrite <- fmap_app. f_equal.
  replace (1 + Z.of_nat k - 1) with (Z.of_nat k) by lia.
  replace (Z.to_nat ((Z.of_nat k + 1) * per_page))
    with (Z.to_nat (Z.of_nat k * per_page) + Z.to_nat per_page)%nat by lia.
  by rewrite take_take_drop.
Qed.

Lemma exact_ceil_div_spec (a b : Z) :
  0 < b -> (exact_ceil_div a b - 1) * b < a <= exact_ceil_div a b * b.
Proof.
  intros Hb. unfold exact_ceil_div.
  pose proof (Z.div_mod (- a) b ltac:(lia)) as Hdm.
  pose proof (Z.mod_pos_bound (- a) b Hb) as Hmod.
  nia.
Qed.

(** X18: The two-query path and the links of the response: the page holds rows
    exactly when its offset is below the total, and the response has a
    [next] link exactly when the next page holds rows. *)
Theorem next_link_iff_next_page_has_rows (page per_page : Z)
    (filters : option (list Filter.t)) (sorting : option SortingQuery.t) :
  let self := engine_at request use_window_function page per_page in
  let total := PaginationEngine.count_total self query session in
  let data := PaginationEngine.paginate self query session in
  1 <= page -> 1 <= per_page -> total < 2 ^ 53 ->
  exists response,
    PaginationEngine.build_response self (Some total) data filters sorting
    = Ok response
    /\ PaginatedResponse.data response = data
    /\ (data <> [] <-> (page - 1) * per_page < total)
    /\ (is_Some (Links.next (PaginatedResponse.links response))
        <-> PaginationEngine.paginate (engine_at request use_window_function (page + 1) per_page) query
              session <> []).
Proof.
  intros self total data Hpage Hsize Htotal.
  assert (Hrows : forall p,
            1 <= p ->
            PaginationEngine.paginate (engine_at request use_window_function p per_page) query session
            <> [] <-> (p - 1) * per_page < total).
  { intros p Hp. rewrite paginate_rows.
    subst total. unfold PaginationEngine.count_total,
      PaginationEngine._count_total_static, exec_count.
    set (rows := rows_of session query).
    rewrite <- (length_zero_iff_nil (_ <$> _)), length_fmap, length_take,
      length_drop.
    assert (0 <= (p - 1) * per_page) by nia.
    lia. }
  unfold PaginationEngine.build_response.
  cbn [self engine_at PaginationEngine.pagination PaginationQuery.per_page
         PaginationQuery.page].
  assert (Hnonneg : 0 <= total).
  { subst total. unfold PaginationEngine.count_total,
      PaginationEngine._count_total_static, exec_count. lia. }
  rewrite (total_pages_exact total per_page) by lia.
  rewrite bind_Ok. eexists. split; [reflexivity |].
  cbn [PaginatedResponse.data PaginatedResponse.links Links.next].
  split; [reflexivity |]. split; [by apply Hrows |].
  rewrite Hrows by lia. replace (page + 1 - 1) with page by lia.
  pose proof (exact_ceil_div_spec total per_page ltac:(lia)) as Hceil.
  destruct (page <? Z.max 1 (exact_ceil_div total per_page)) eqn:Hnext.
  - split; [intros _ | by eexists]. nia.
  - split; [by intros [? [=]] |]. intros Hmore. exfalso. nia.
Qed.

(** X19: With rows on the requested page the window query and the two queries
    answer [paginate_with_count] with the same total and, item by item, with
    the same values. The items themselves are the same exactly when the
    statement selects a single column: of a mapped class the two queries
    hand out instances and of several columns result rows, where the window
    query hands out bare values or named tuples. *)
Theorem paginate_with_count_paths_agree (pagination : PaginationQuery.t)
    (names : list string) :
  let window := PaginationEngine.mk pagination request (Some true) in
  let fallback := PaginationEngine.mk pagination request (Some false) in
  uniform_rows names (rows_of session query) ->
  length names = 1%nat \/ namedtuple names = Ok names ->
  (selection query = SelectColumn -> length names = 1%nat) ->
  PaginationEngine.paginate fallback query session <> [] ->
  exists total data_window data_fallback,
    PaginationEngine.paginate_with_count window query session
    = Ok (data_window, total)
    /\ PaginationEngine.paginate_with_count fallback query session
       = Ok (data_fallback, total)
    /\ item_values <$> data_window = item_values <$> data_fallback
    /\ (data_window = data_fallback <-> selection query = SelectColumn).
Proof.
  intros window fallback Huni Hnames Hone Hpage.
  assert (Hrows : page_rows window query session <> []).
  { intros Hempty. apply Hpage. unfold PaginationEngine.paginate.
    fold (page_rows fallback query session).
    change (page_rows fallback query session)
      with (page_rows window query session).
    by rewrite Hempty. }
  assert (Hsub : uniform_rows names (page_rows window query session)).
  { unfold page_rows, exec_offset_limit, uniform_rows.
    apply Forall_take, Forall_drop, Huni. }
  exists (PaginationEngine.count_total window query session),
    (window_item <$> page_rows window query session),
    (exec_result query <$> page_rows window query session).
  split.
  { unfold PaginationEngine.paginate_with_count.
    cbn [PaginationEngine._should_use_window_function
           PaginationEngine.use_window_function window].
    rewrite bind_Ok.
    exact (window_on_nonempty_page _ _ _ names Huni Hnames Hrows). }
  split; [reflexivity |].
  split.
  { rewrite <- !list_fmap_compose. apply Forall_fmap_ext.
    eapply Forall_impl; [exact Hsub |]. intros r Hr. cbn.
    by apply (item_values_agree query names). }
  split.
  - destruct (page_rows window query session) as [| r rows]; [done |].
    intros [= Hr _]. by apply (window_item_exec_result query r).
  - intros Hcolumn. apply Forall_fmap_ext.
    eapply Forall_impl; [exact Hsub |]. intros r Hr. cbn in Hr.
    assert (Hlen : length r = 1%nat)
      by (rewrite <- (length_fmap fst), Hr; by apply Hone).
    unfold exec_result. rewrite Hcolumn.
    by destruct r as [| [k v] [| kv r]].
Qed.

End Pages.

(** ** config.py: construction and the presets *)

(** What [__post_init__] lets through. *)
Lemma post_init_accepts (cfg : FSPConfig.t) :
  FSPConfig.__post_init__ cfg = Ok ()
  <-> 1 <= FSPConfig.default_per_page cfg <= FSPConfig.max_per_page cfg
      /\ 1 <= FSPConfig.min_per_page cfg <= FSPConfig.max_per_page cfg
      /\ 1 <= FSPConfig.default_page cfg
      /\ forall m, FSPConfig.max_page cfg = Some m -> 1 <= m.
Proof.
  unfold FSPConfig.__post_init__. split.
  - intros Hok. repeat (case_match; try discriminate).
    + repeat split; try lia. intros m [= <-]. lia.
    + repeat split; try lia. discriminate.
  - intros (Hdefault & Hmin & Hpage & Hmax).
    destruct (FSPConfig.max_page cfg) as [m |].
    + specialize (Hmax m eq_refl). repeat case_match; try lia; done.
    + repeat case_match; try lia; done.
Qed.

Lemma init_accepts (max_per_page default_per_page default_page min_per_page : Z)
    (strict_mode allow_deep_pagination : bool) (max_page : option Z) :
  let cfg := FSPConfig.mk max_per_page default_per_page default_page
               min_per_page strict_mode allow_deep_pagination max_page in
  FSPConfig.__init__ max_per_page default_per_page default_page min_per_page
    strict_mode allow_deep_pagination max_page
  = match FSPConfig.__post_init__ cfg with
    | Ok _ => Ok cfg
    | Raise _ => Raise ValueError
    end.
Proof.
  intros cfg. unfold FSPConfig.__init__. fold cfg.
  unfold FSPConfig.__post_init__.
  repeat (case_match; try reflexivity).
Qed.

(** X20: The presets and their arguments.  [limited_pagination] keeps the
    default page size of 10, so it takes a [max_per_page] of 10 or more,
    with a [max_page] of 1 or more; [high_volume] takes a default page size
    between 1 and its [max_per_page].  Whatever else is asked for is a
    [ValueError]. *)
Theorem presets_accept (max_page max_per_page default_per_page : Z) :
  FSPPresets.default = Ok FSPConfig.default
  /\ FSPPresets.strict
     = Ok (FSPConfig.mk 100 10 1 1 true true None)
  /\ FSPPresets.limited_pagination max_page max_per_page
     = (if decide (1 <= max_page /\ 10 <= max_per_page)
        then Ok (FSPConfig.mk max_per_page 10 1 1 false false (Some max_page))
        else Raise ValueError)
  /\ FSPPresets.high_volume max_per_page default_per_page
     = (if decide (1 <= default_per_page <= max_per_page)
        then Ok (FSPConfig.mk max_per_page default_per_page 1 1 false true
                   None)
        else Raise ValueError).
Proof.
  split; [reflexivity |]. split; [reflexivity |].
  unfold FSPPresets.limited_pagination, FSPPresets.high_volume.
  rewrite !init_accepts. cbv zeta.
  split.
  - destruct (FSPConfig.__post_init__ _) as [[] | e] eqn:Hok;
      destruct (decide (1 <= max_page /\ _)) as [Hargs | Hargs];
      try reflexivity; exfalso.
    + apply post_init_accepts in Hok as (Hd & _ & _ & Hm). cbn in *.
      specialize (Hm _ eq_refl). lia.
    + assert (Hyes : FSPConfig.__post_init__
                       (FSPConfig.mk max_per_page 10 1 1 false false
                          (Some max_page)) = Ok ()); [| congruence].
      apply post_init_accepts. cbn. repeat split; try lia.
      intros m [= <-]. lia.
  - destruct (FSPConfig.__post_init__ _) as [[] | e] eqn:Hok;
      destruct (decide (1 <= default_per_page <= _)) as [Hargs | Hargs];
      try reflexivity; exfalso.
    + apply post_init_accepts in Hok as (Hd & _ & _ & Hm). cbn in *. lia.
    + assert (Hyes : FSPConfig.__post_init__
                       (FSPConfig.mk max_per_page default_per_page 1 1 false
                          true None) = Ok ()); [| congruence].
      apply post_init_accepts. cbn. repeat split; try lia.
      discriminate.
Qed.

Lemma validate_page_at_least_1 (cfg : FSPConfig.t) (page page' : Z) :
  FSPConfig.__post_init__ cfg = Ok () ->
  FSPConfig.validate_page cfg page = Ok page' -> 1 <= page'.
Proof.
  intros (_ & _ & Hdefault & _)%post_init_accepts.
  unfold FSPConfig.validate_page.
  destruct (page <? 1) eqn:Hpage; [intros [= <-]; lia |].
  repeat case_match; try discriminate; intros [= <-]; lia.
Qed.

(** X21: [validate_page] of a constructed configuration: the page comes back
    as it is, or the default page for a page below 1; the answer is at
    least 1; with deep pagination off it is at most [max_page], as long as
    the default page is. *)
Theorem validate_page_bounds (cfg : FSPConfig.t) (page page' : Z) :
  FSPConfig.__post_init__ cfg = Ok () ->
  FSPConfig.validate_page cfg page = Ok page' ->
  1 <= page'
  /\ (if page <? 1 then page' = FSPConfig.default_page cfg else page' = page)
  /\ forall m,
       FSPConfig.allow_deep_pagination cfg = false ->
       FSPConfig.max_page cfg = Some m ->
       FSPConfig.default_page cfg <= m ->
       page' <= m.
Proof.
  intros (_ & _ & Hdefault & _)%post_init_accepts.
  unfold FSPConfig.validate_page.
  destruct (page <? 1) eqn:Hpage.
  - intros [= <-]. split; [done |]. split; [done |]. intros; lia.
  - destruct (FSPConfig.max_page cfg) as [m |].
    + destruct (FSPConfig.allow_deep_pagination cfg); cbn [negb andb].
      * intros [= <-]. split; [lia |]. split; [done |]. discriminate.
      * destruct (m <? page) eqn:Hm; [discriminate |].
        intros [= <-]. split; [lia |]. split; [done |].
        intros m' _ [= <-] _. lia.
    + intros [= <-]. split; [lia |]. split; [done |]. discriminate.
Qed.

(** [validate_page] raises exactly for a page of 1 or more that is above
    [max_page] while deep pagination is off, and what it raises is a
    [ValueError]. *)
Lemma validate_page_raises (cfg : FSPConfig.t) (page : Z) (e : Exn) :
  FSPConfig.validate_page cfg page = Raise e
  <-> e = ValueError
      /\ 1 <= page
      /\ FSPConfig.allow_deep_pagination cfg = false
      /\ exists m, FSPConfig.max_page cfg = Some m /\ m < page.
Proof.
  unfold FSPConfig.validate_page.
  destruct (page <? 1) eqn:Hpage.
  - split; [discriminate | lia].
  - destruct (FSPConfig.max_page cfg) as [m |].
    + destruct (FSPConfig.allow_deep_pagination cfg); cbn [negb andb].
      * split; [discriminate | by intros (_ & _ & ? & _)].
      * destruct (m <? page) eqn:Hm.
        -- split; [intros [= <-] | by intros [-> _]].
           repeat split; try lia. exists m. split; [done | lia].
        -- split; [discriminate | intros (_ & _ & _ & m' & [= <-] & ?); lia].
    + split; [discriminate | by intros (_ & _ & _ & m' & ? & _)].
Qed.

(** ** fsp.py: [apply_config] *)

(** X22: A configuration applied to a fresh manager: both engines get the
    policy of the configuration; the page is at least 1 and the page size
    within the bounds of the configuration; the pagination engine pages
    with these values; filters, sorting and the memo are as before. *)
Theorem apply_config_result (request : Request)
    (filters : option (list Filter.t)) (sorting : option SortingQuery.t)
    (pagination : PaginationQuery.t)
    (or_filters : option (list OrFilterGroup.t)) (strict_mode : bool)
    (use_window_function : option bool) (cfg : FSPConfig.t)
    (self' : FSPManager.t) :
  let self := FSPManager.__init__ request filters sorting pagination
                or_filters strict_mode use_window_function in
  FSPConfig.__post_init__ cfg = Ok () ->
  FSPManager.apply_config self cfg = Ok self' ->
  FSPManager.strict_mode self' = FSPConfig.strict_mode cfg
  /\ SortEngine.strict_mode (FSPManager._sort_engine self')
     = FSPConfig.strict_mode cfg
  /\ PaginationEngine.pagination (FSPManager._pagination_engine self')
     = FSPManager.pagination self'
  /\ 1 <= PaginationQuery.page (FSPManager.pagination self')
  /\ FSPConfig.min_per_page cfg
     <= PaginationQuery.per_page (FSPManager.pagination self')
     <= FSPConfig.max_per_page cfg
  /\ FSPManager.filters self' = filters
  /\ FSPManager.or_filters self' = or_filters
  /\ FSPManager.sorting self' = sorting
  /\ FilterEngine._type_cache (FSPManager._filter_engine self') = ∅.
Proof.
  intros self Hcfg. unfold FSPManager.apply_config.
  cbn [self FSPManager.__init__ FSPManager.set_strict_mode
         FSPManager.pagination].
  destruct (FSPConfig.validate_page cfg (PaginationQuery.page pagination))
    as [page |] eqn:Hpage; [| discriminate].
  rewrite bind_Ok. intros [= <-].
  apply (validate_page_at_least_1 _ _ _ Hcfg) in Hpage.
  apply post_init_bounds in Hcfg.
  repeat split; try done; cbn; unfold FSPConfig.validate_per_page;
    repeat case_match; lia.
Qed.

(** ** fsp.py: the parsers of the query string *)

Lemma operator_of_value (op : FilterOperator) :
  FilterOperator_of_str (FilterOperator_value op) = Ok op.
Proof. by destruct op. Qed.

Lemma operator_of_str_inv (s : string) (op : FilterOperator) :
  FilterOperator_of_str s = Ok op -> FilterOperator_value op = s.
Proof.
  unfold FilterOperator_of_str.
  destruct (list_find _ _) as [[i op'] |] eqn:Hfind; [| discriminate].
  intros [= <-]. by apply list_find_Some in Hfind as (_ & ? & _).
Qed.

Lemma operator_of_str_none (s : string) :
  (forall op, FilterOperator_value op <> s) ->
  FilterOperator_of_str s = Raise ValueError.
Proof.
  intros Hnone. unfold FilterOperator_of_str.
  destruct (list_find _ _) as [[i op'] |] eqn:Hfind; [| done].
  apply list_find_Some in Hfind as (_ & Hop & _). by destruct (Hnone op').
Qed.

(** One filter is read exactly when its operator string is the value of
    an operator, and then it is that filter; any other operator string is
    a 400 error that names the string and the index. *)
Lemma parse_one_filter_at_spec (i : Z) (field operator value : string) :
  (forall f,
     _parse_one_filter_at i field operator value = Ok f
     <-> exists op,
           FilterOperator_value op = operator
           /\ f = Filter.mk field op value)
  /\ ((forall op, FilterOperator_value op <> operator) ->
      forall index,
        str_of_int i = Ok index ->
        _parse_one_filter_at i field operator value
        = Raise (HTTPException 400
                   ("Invalid operator '" +:+ operator +:+ "' at index "
                    +:+ index +:+ "."))).
Proof.
  unfold _parse_one_filter_at. split.
  - intros f. split.
    + destruct (FilterOperator_of_str operator) as [op | e] eqn:Hop.
      * rewrite bind_Ok. cbn [try_except]. intros [= <-].
        exists op. split; [by apply operator_of_str_inv | done].
      * rewrite bind_Raise. cbn [try_except].
        destruct (is_ValueError e); [| discriminate].
        destruct (str_of_int i); discriminate.
    + intros (op & <- & ->). by rewrite operator_of_value.
  - intros Hnone index Hindex.
    by rewrite (operator_of_str_none _ Hnone), bind_Raise, Hindex.
Qed.

Lemma parse_one_filter_at_ok (i : Z) (f : Filter.t) :
  _parse_one_filter_at i (Filter.field f)
    (FilterOperator_value (Filter.operator f)) (Filter.value f) = Ok f.
Proof.
  unfold _parse_one_filter_at. rewrite operator_of_value.
  by destruct f.
Qed.

Lemma parse_each_spec (triples : list (string * string * string)) :
  forall i fs,
    parse_each i triples = Ok fs <-> triple <$> fs = triples.
Proof.
  induction triples as [| [[field operator] value] triples IH]; intros i fs.
  - cbn. split; [by intros [= <-] | by destruct fs].
  - cbn [parse_each].
    destruct (_parse_one_filter_at i field operator value) as [f | e] eqn:Hf;
      destruct (parse_one_filter_at_spec i field operator value) as [Hone _].
    + apply Hone in Hf as (op & Hop & ->). rewrite bind_Ok.
      destruct (parse_each (i + 1) triples) as [fs' | e] eqn:Hrest.
      * rewrite bind_Ok. pose proof (proj1 (IH _ _) Hrest) as Hrest'. split.
        -- intros [= <-]. cbn. unfold triple at 1. cbn. by rewrite Hop, Hrest'.
        -- destruct fs as [| f fs]; [done |]. cbn. intros [= Hf Ho Hv Htl].
           apply (IH (i + 1)) in Htl. rewrite Hrest in Htl.
           injection Htl as <-. f_equal. f_equal.
           destruct f as [ff fo fv]. cbn in *. subst.
           f_equal. clear -Ho.
           by destruct op, fo.
      * rewrite bind_Raise. split; [done |].
        destruct fs as [| f fs]; [done |]. cbn. intros [= _ _ _ Htl].
        apply (IH (i + 1)) in Htl. congruence.
    + rewrite bind_Raise. split; [done |].
      destruct fs as [| f fs]; [done |]. cbn. intros [= Hf' Ho Hv _].
      assert (Hsome : _parse_one_filter_at i field operator value = Ok f).
      { apply Hone. exists (Filter.operator f). split; [done |].
        destruct f; cbn in *; congruence. }
      congruence.
Qed.

Lemma triples_zip (fs : list Filter.t) :
  forall fields operators values,
    length fields = length operators -> length operators = length values ->
    triple <$> fs = zip (zip fields operators) values
    <-> Filter.field <$> fs = fields
        /\ (fun f => FilterOperator_value (Filter.operator f)) <$> fs
           = operators
        /\ Filter.value <$> fs = values.
Proof.
  induction fs as [| f fs IH];
    intros [| field fields] [| operator operators] [| value values] H1 H2;
    try discriminate H1; try discriminate H2; cbn;
    try (split; [done | by intros (? & ? & ?)]).
  injection H1 as H1. injection H2 as H2.
  specialize (IH fields operators values H1 H2). split.
  - unfold triple at 1. intros [= <- <- <- Htl].
    apply IH in Htl as (-> & -> & ->). done.
  - intros ([= <- Hf] & [= <- Ho] & [= <- Hv]).
    f_equal. apply IH. done.
Qed.

Lemma parse_array_of_filters_Ok (fields operators values : list string)
    (fs : list Filter.t) :
  _parse_array_of_filters fields operators values = Ok fs
  <-> Filter.field <$> fs = fields
      /\ (fun f => FilterOperator_value (Filter.operator f)) <$> fs
         = operators
      /\ Filter.value <$> fs = values.
Proof.
  unfold _parse_array_of_filters.
  destruct (bool_decide (length fields = length operators)) eqn:H1;
    [destruct (bool_decide (length operators = length values)) eqn:H2 |];
    cbn [andb negb].
  - apply bool_decide_eq_true in H1, H2.
    rewrite parse_each_spec. by apply triples_zip.
  - apply bool_decide_eq_false in H2. split; [done |].
    intros (<- & <- & <-). rewrite !length_fmap in H2. done.
  - apply bool_decide_eq_false in H1. split; [done |].
    intros (<- & <- & <-). rewrite !length_fmap in H1. done.
Qed.

(** X23: The array format: the fields, operators and values of the filters
    that come out are the three lists that went in, so there is one filter
    for each position; lists of different lengths are a 400 error. *)
Theorem parse_array_of_filters_spec (fields operators values : list string) :
  (forall fs,
     _parse_array_of_filters fields operators values = Ok fs
     <-> Filter.field <$> fs = fields
         /\ (fun f => FilterOperator_value (Filter.operator f)) <$> fs
            = operators
         /\ Filter.value <$> fs = values)
  /\ (~ (length fields = length operators
         /\ length operators = length values) ->
      _parse_array_of_filters fields operators values
      = Raise (HTTPException 400
                 "Mismatched filter parameters in array format.")).
Proof.
  split; [intros fs; apply parse_array_of_filters_Ok |].
  unfold _parse_array_of_filters. intros Hlen.
  destruct (bool_decide (length fields = length operators)) eqn:H1;
    [destruct (bool_decide (length operators = length values)) eqn:H2 |];
    cbn [andb negb]; try reflexivity.
  apply bool_decide_eq_true in H1, H2. by destruct Hlen.
Qed.

(** *** [_parse_filters]: the loop ends *)

Lemma length_append (s t : string) :
  String.length (s +:+ t) = (String.length s + String.length t)%nat.
Proof.
  induction s as [| c s IH]; [reflexivity |].
  rewrite append_String. cbn [String.length]. by rewrite IH.
Qed.

Lemma append_inj_r (a b s : string) : a +:+ s = b +:+ s -> a = b.
Proof.
  intros Heq.
  assert (Hlen : String.length a = String.length b).
  { apply (f_equal String.length) in Heq.
    rewrite !length_append in Heq. lia. }
  revert b Heq Hlen. induction a as [| c a IH]; intros [| c' b] Heq Hlen;
    try discriminate; [done |].
  rewrite !append_String in Heq. injection Heq as -> Heq.
  f_equal. apply IH; [done | by injection Hlen].
Qed.

Lemma str_of_int_inj (i j : Z) (index : string) :
  str_of_int i = Ok index -> str_of_int j = Ok index -> i = j.
Proof.
  intros Hi%int_of_str_of_int Hj%int_of_str_of_int. congruence.
Qed.

Lemma append_inj_l (p a b : string) : p +:+ a = p +:+ b -> a = b.
Proof.
  induction p as [| c p IH]; [done |].
  rewrite !append_String. intros [= Heq]. by apply IH.
Qed.

Lemma indexed_key_inj (a b part : string) :
  indexed_key a part = indexed_key b part -> a = b.
Proof.
  unfold indexed_key. intros Heq%append_inj_l. by apply append_inj_r in Heq.
Qed.

Lemma qp_get_Some_key (query_params : QueryParams) (key value : string) :
  qp_get query_params key = Some value -> key ∈ query_params.*1.
Proof.
  unfold qp_get. intros Hget.
  destruct (last (filter (fun kv => kv.1 = key) query_params))
    as [[k v] |] eqn:Hlast; [| discriminate].
  apply last_Some_elem_of in Hlast.
  apply list_elem_of_filter in Hlast as [Hk Hin]. cbn in Hk. subst k.
  apply list_elem_of_fmap. by exists (key, v).
Qed.

(** A round of the loop that goes on has found the field key of its
    index among the parameters. *)
Lemma parse_indexed_out_of_fuel (query_params : QueryParams) (fuel : nat) :
  forall i filters,
    parse_indexed fuel query_params i filters = None ->
    forall k,
      (k < fuel)%nat ->
      exists index,
        str_of_int (i + Z.of_nat k) = Ok index
        /\ indexed_key index "field" ∈ query_params.*1.
Proof.
  induction fuel as [| fuel IH]; intros i filters Hnone k Hk; [lia |].
  cbn [parse_indexed] in Hnone.
  destruct (str_of_int i) as [index |] eqn:Hindex; [| discriminate].
  destruct (qp_get query_params (indexed_key index "field"))
    as [field |] eqn:Hfield; [| discriminate].
  destruct (qp_get query_params (indexed_key index "operator"))
    as [operator |]; [| discriminate].
  destruct (qp_get query_params (indexed_key index "value"))
    as [value |]; [| discriminate].
  destruct (_parse_one_filter_at i field operator value) as [f |];
    [| discriminate].
  destruct k as [| k].
  - exists index. rewrite Z.add_0_r. split; [done |].
    by eapply qp_get_Some_key.
  - destruct (IH _ _ Hnone k ltac:(lia)) as (index' & Hindex' & Hin).
    exists index'. split; [| done].
    by replace (i + Z.of_nat (S k)) with (i + 1 + Z.of_nat k) by lia.
Qed.

(** The loop of [_parse_filters] ends within one round more than there
    are query parameters. *)
Lemma parse_indexed_ends (query_params : QueryParams) (i : Z)
    (filters : list Filter.t) :
  exists result,
    parse_indexed (S (length query_params)) query_params i filters
    = Some result.
Proof.
  destruct (parse_indexed _ _ _ _) as [result |] eqn:Hrun; [by eexists |].
  exfalso.
  pose proof (parse_indexed_out_of_fuel _ _ _ _ Hrun) as Hkeys.
  set (n := S (length query_params)) in *.
  set (keys := (fun k : nat => field_key (i + Z.of_nat k)) <$> seq 0 n).
  assert (Hnodup : NoDup keys).
  { apply NoDup_fmap_2_strong; [| apply NoDup_seq].
    intros k1 k2 Hk1%elem_of_seq Hk2%elem_of_seq Heq.
    destruct (Hkeys k1 ltac:(lia)) as (index1 & Hindex1 & _).
    destruct (Hkeys k2 ltac:(lia)) as (index2 & Hindex2 & _).
    unfold field_key in Heq. rewrite Hindex1, Hindex2 in Heq.
    apply indexed_key_inj in Heq. subst index2.
    pose proof (str_of_int_inj _ _ _ Hindex1 Hindex2). lia. }
  assert (Hsub : keys ⊆+ query_params.*1).
  { apply NoDup_submseteq; [done |].
    intros key (k & -> & Hk%elem_of_seq)%list_elem_of_fmap.
    destruct (Hkeys k ltac:(lia)) as (index & Hindex & Hin).
    unfold field_key. by rewrite Hindex. }
  apply submseteq_length in Hsub.
  subst keys. rewrite !length_fmap, length_seq in Hsub. lia.
Qed.

Lemma parse_indexed_more_fuel (query_params : QueryParams) (fuel : nat) :
  forall i filters result more,
    parse_indexed fuel query_params i filters = Some result ->
    parse_indexed (fuel + more) query_params i filters = Some result.
Proof.
  induction fuel as [| fuel IH]; intros i filters result more;
    [discriminate |].
  cbn [parse_indexed Nat.add].
  repeat (case_match; try done). apply IH.
Qed.

Lemma parse_indexed_S (query_params : QueryParams) (fuel : nat) (i : Z)
    (filters : list Filter.t) :
  parse_indexed (S fuel) query_params i filters
  = match str_of_int i with
    | Raise e => Some (Raise e)
    | Ok index =>
        match qp_get query_params (indexed_key index "field") with
        | None => Some (Ok filters)
        | Some field =>
            match qp_get query_params (indexed_key index "operator"),
                  qp_get query_params (indexed_key index "value") with
            | Some operator, Some value =>
                match _parse_one_filter_at i field operator value with
                | Ok f =>
                    parse_indexed fuel query_params (i + 1) (filters ++ [f])
                | Raise e => Some (Raise e)
                end
            | _, _ =>
                Some (Raise (HTTPException 400
                        ("Incomplete filter at index " +:+ index
                         +:+ ". Missing operator or value.")))
            end
        end
    end.
Proof. reflexivity. Qed.

(** The loop reads the filters that stand at the indices from [i] on, up
    to the first index without a field. *)
Lemma parse_indexed_run (query_params : QueryParams) (fs : list Filter.t) :
  forall i filters,
    (forall k f, fs !! k = Some f ->
                 filter_at query_params (i + Z.of_nat k) f) ->
    no_filter_at query_params (i + Z.of_nat (length fs)) ->
    parse_indexed (S (length fs)) query_params i filters
    = Some (Ok (filters ++ fs)).
Proof.
  induction fs as [| f fs IH]; intros i filters Hat Hend.
  - destruct Hend as (index & Hindex & Hnone).
    rewrite parse_indexed_S. cbn [length] in Hindex.
    rewrite Z.add_0_r in Hindex.
    by rewrite Hindex, Hnone, app_nil_r.
  - destruct (Hat 0%nat f eq_refl) as (index & Hindex & Hf & Ho & Hv).
    rewrite Z.add_0_r in Hindex.
    cbn [length]. rewrite parse_indexed_S, Hindex, Hf, Ho, Hv.
    rewrite parse_one_filter_at_ok.
    rewrite (IH (i + 1) (filters ++ [f])).
    + by rewrite <- app_assoc.
    + intros k f' Hk.
      replace (i + 1 + Z.of_nat k) with (i + Z.of_nat (S k)) by lia.
      by apply Hat.
    + by replace (i + 1 + Z.of_nat (length fs))
        with (i + Z.of_nat (length (f :: fs))) by (cbn [length]; lia).
Qed.

Lemma parse_indexed_result (query_params : QueryParams) (i : Z)
    (filters : list Filter.t) (fuel : nat)
    (result : Result (list Filter.t)) :
  parse_indexed fuel query_params i filters = Some result ->
  parse_indexed (S (length query_params)) query_params i filters
  = Some result.
Proof.
  intros Hrun.
  destruct (parse_indexed_ends query_params i filters) as [result' Hends].
  pose proof (parse_indexed_more_fuel _ _ _ _ _ (S (length query_params)) Hrun)
    as H1.
  pose proof (parse_indexed_more_fuel _ _ _ _ _ fuel Hends) as H2.
  rewrite Nat.add_comm in H2. congruence.
Qed.

Lemma parse_indexed_length (query_params : QueryParams) (fuel : nat) :
  forall i filters fs,
    parse_indexed fuel query_params i filters = Some (Ok fs) ->
    (S (length fs) <= length filters + fuel)%nat.
Proof.
  induction fuel as [| fuel IH]; intros i filters fs; [discriminate |].
  cbn [parse_indexed].
  repeat (case_match; try discriminate).
  - intros Hrun%IH. rewrite length_app in Hrun. cbn in Hrun. lia.
  - intros [= <-]. lia.
Qed.

(** X24: The loop of [_parse_filters] ends: one round more than there are
    query parameters is enough for it to reach its [break] or a [raise],
    and it reads at most as many filters as there are parameters. *)
Theorem parse_filters_loop_ends (query_params : QueryParams) :
  exists result,
    parse_indexed (S (length query_params)) query_params 0 [] = Some result
    /\ forall fs, result = Ok fs -> (length fs <= length query_params)%nat.
Proof.
  destruct (parse_indexed_ends query_params 0 []) as [result Hresult].
  exists result. split; [done |]. intros fs ->.
  apply parse_indexed_length in Hresult. cbn in Hresult. lia.
Qed.

(** *** [_parse_filters]: the two formats *)

(** The rounds of the loop over indices that hold a filter. *)
Lemma parse_indexed_prefix (query_params : QueryParams)
    (fs : list Filter.t) (fuel : nat) :
  forall i filters,
    (forall k f, fs !! k = Some f ->
                 filter_at query_params (i + Z.of_nat k) f) ->
    parse_indexed (length fs + fuel) query_params i filters
    = parse_indexed fuel query_params (i + Z.of_nat (length fs))
        (filters ++ fs).
Proof.
  induction fs as [| f fs IH]; intros i filters Hat.
  - cbn [length Nat.add]. by rewrite Z.add_0_r, app_nil_r.
  - destruct (Hat 0%nat f eq_refl) as (index & Hindex & Hf & Ho & Hv).
    rewrite Z.add_0_r in Hindex.
    cbn [length Nat.add]. rewrite parse_indexed_S, Hindex, Hf, Ho, Hv.
    rewrite parse_one_filter_at_ok.
    rewrite (IH (i + 1) (filters ++ [f])).
    + rewrite <- app_assoc. f_equal. lia.
    + intros k f' Hk.
      replace (i + 1 + Z.of_nat k) with (i + Z.of_nat (S k)) by lia.
      by apply Hat.
Qed.

Lemma parse_filters_of_loop (query_params : QueryParams) (fuel : nat)
    (indexed : Result (list Filter.t)) :
  parse_indexed fuel query_params 0 [] = Some indexed ->
  _parse_filters query_params
  = (filters ← indexed;
     match filters with
     | _ :: _ => Ok (Some filters)
     | [] =>
         filters ← _parse_array_of_filters
                     (qp_getlist query_params "field")
                     (qp_getlist query_params "operator")
                     (qp_getlist query_params "value");
         match filters with
         | _ :: _ => Ok (Some filters)
         | [] => Ok None
         end
     end).
Proof.
  intros Hrun%parse_indexed_result. unfold _parse_filters. by rewrite Hrun.
Qed.

(** X25: The indexed format.  Filters at the indices 0, 1, ... up to the first
    index without a field are read in this order; whatever stands behind
    that index, and whatever the simple format says, is not looked at. *)
Theorem parse_filters_indexed (query_params : QueryParams)
    (fs : list Filter.t) :
  fs <> [] ->
  (forall k f, fs !! k = Some f -> filter_at query_params (Z.of_nat k) f) ->
  no_filter_at query_params (Z.of_nat (length fs)) ->
  _parse_filters query_params = Ok (Some fs).
Proof.
  intros Hne Hat Hend.
  rewrite (parse_filters_of_loop query_params (length fs + 1) (Ok fs)).
  - rewrite bind_Ok. by destruct fs.
  - rewrite (parse_indexed_prefix query_params fs 1 0 []) by done.
    destruct Hend as (index & Hindex & Hnone).
    rewrite parse_indexed_S, Z.add_0_l, Hindex, Hnone. reflexivity.
Qed.

(** X26: The first index that holds a field but no complete filter: a 400
    error that names this index, for a missing operator or value as well
    as for an operator string that is no operator. *)
Theorem parse_filters_bad_index (query_params : QueryParams)
    (fs : list Filter.t) (index field : string) :
  (forall k f, fs !! k = Some f -> filter_at query_params (Z.of_nat k) f) ->
  str_of_int (Z.of_nat (length fs)) = Ok index ->
  qp_get query_params (indexed_key index "field") = Some field ->
  ((qp_get query_params (indexed_key index "operator") = None
    \/ qp_get query_params (indexed_key index "value") = None) ->
   _parse_filters query_params
   = Raise (HTTPException 400
              ("Incomplete filter at index " +:+ index
               +:+ ". Missing operator or value.")))
  /\ (forall operator value,
        qp_get query_params (indexed_key index "operator") = Some operator ->
        qp_get query_params (indexed_key index "value") = Some value ->
        (forall op, FilterOperator_value op <> operator) ->
        _parse_filters query_params
        = Raise (HTTPException 400
                   ("Invalid operator '" +:+ operator +:+ "' at index "
                    +:+ index +:+ "."))).
Proof.
  intros Hat Hindex Hfield.
  pose proof (parse_indexed_prefix query_params fs 1 0 [] Hat) as Hrun.
  rewrite parse_indexed_S, Z.add_0_l, Hindex, Hfield in Hrun.
  cbn [app] in Hrun. split.
  - intros Hmissing.
    rewrite (parse_filters_of_loop query_params (length fs + 1)
               (Raise (HTTPException 400
                         ("Incomplete filter at index " +:+ index
                          +:+ ". Missing operator or value."))));
      [by rewrite bind_Raise |].
    rewrite Hrun. destruct Hmissing as [-> | ->]; [done |].
    by destruct (qp_get query_params (indexed_key index "operator")).
  - intros operator value Ho Hv Hnone.
    rewrite (parse_filters_of_loop query_params (length fs + 1)
               (Raise (HTTPException 400
                         ("Invalid operator '" +:+ operator
                          +:+ "' at index " +:+ index +:+ "."))));
      [by rewrite bind_Raise |].
    rewrite Hrun, Ho, Hv.
    destruct (parse_one_filter_at_spec (Z.of_nat (length fs)) field operator
                value) as [_ Hbad].
    by rewrite (Hbad Hnone index Hindex).
Qed.

Lemma str_of_int_0 : str_of_int 0 = Ok "0".
Proof. reflexivity. Qed.

(** Without a field at index 0 the simple format decides. *)
Lemma parse_filters_simple (query_params : QueryParams)
    (fs : list Filter.t) :
  qp_get query_params (indexed_key "0" "field") = None ->
  qp_getlist query_params "field" = Filter.field <$> fs ->
  qp_getlist query_params "operator"
  = (fun f => FilterOperator_value (Filter.operator f)) <$> fs ->
  qp_getlist query_params "value" = Filter.value <$> fs ->
  _parse_filters query_params
  = Ok (match fs with [] => None | _ => Some fs end).
Proof.
  intros Hnone Hf Ho Hv.
  rewrite (parse_filters_of_loop query_params 1 (Ok [])).
  - rewrite bind_Ok, Hf, Ho, Hv.
    rewrite (proj2 (parse_array_of_filters_Ok _ _ _ fs)) by done.
    rewrite bind_Ok. by destruct fs.
  - rewrite parse_indexed_S, str_of_int_0. by rewrite Hnone.
Qed.

Lemma filter_simple_params (key : string) (fs : list Filter.t) :
  filter (fun kv : string * string => kv.1 = key) (simple_params fs)
  = fs ≫= fun f =>
      filter (fun kv : string * string => kv.1 = key)
        [("field", Filter.field f);
         ("operator", FilterOperator_value (Filter.operator f));
         ("value", Filter.value f)].
Proof.
  unfold simple_params. induction fs as [| f fs IH]; [reflexivity |].
  unfold QueryParams in *. rewrite !bind_cons, filter_app, IH. reflexivity.
Qed.

(** X27: The simple format, there and back: the query string written for a
    list of filters, pairs for other keys before and behind it, is read as
    that list, and as no filters when the list is empty. *)
Theorem parse_filters_simple_round_trip (fs : list Filter.t)
    (before behind : QueryParams) :
  Forall (fun kv => kv.1 ∉ [indexed_key "0" "field"; "field"; "operator";
                            "value"]) (before ++ behind) ->
  _parse_filters (before ++ simple_params fs ++ behind)
  = Ok (match fs with [] => None | _ => Some fs end).
Proof.
  intros Hother. unfold QueryParams in *.
  assert (Hskip : forall key (other : list (string * string)),
            key ∈ [indexed_key "0" "field"; "field"; "operator"; "value"] ->
            Forall (fun kv => kv.1 ∉ [indexed_key "0" "field"; "field";
                                      "operator"; "value"]) other ->
            filter (fun kv : string * string => kv.1 = key) other = []).
  { intros key other Hkey Hall.
    induction Hall as [| [k v] other Hk _ IH]; [done |].
    rewrite filter_cons, decide_False; [done |].
    cbn. intros ->. by apply Hk. }
  apply Forall_app in Hother as [Hbefore Hbehind].
  assert (Hfilter : forall key,
            key ∈ [indexed_key "0" "field"; "field"; "operator"; "value"] ->
            filter (fun kv : string * string => kv.1 = key)
              (before ++ simple_params fs ++ behind)
            = filter (fun kv : string * string => kv.1 = key)
                (simple_params fs)).
  { intros key Hkey.
    rewrite !filter_app, (Hskip key before), (Hskip key behind) by done.
    by rewrite app_nil_r. }
  apply parse_filters_simple; unfold qp_get, qp_getlist;
    rewrite Hfilter, filter_simple_params by set_solver.
  - clear. induction fs as [| f fs IH]; [reflexivity |]. rewrite bind_cons.
    change (filter _ [_; _; _]) with (@nil (string * string)) at 1.
    exact IH.
  - clear. induction fs as [| f fs IH]; [reflexivity |]. rewrite bind_cons.
    change (filter _ [_; _; _]) with [("field", Filter.field f)] at 1.
    cbn [app fmap list_fmap]. by rewrite <- IH.
  - clear. induction fs as [| f fs IH]; [reflexivity |]. rewrite bind_cons.
    change (filter _ [_; _; _])
      with [("operator", FilterOperator_value (Filter.operator f))] at 1.
    cbn [app fmap list_fmap]. by rewrite <- IH.
  - clear. induction fs as [| f fs IH]; [reflexivity |]. rewrite bind_cons.
    change (filter _ [_; _; _]) with [("value", Filter.value f)] at 1.
    cbn [app fmap list_fmap]. by rewrite <- IH.
Qed.

(** *** [_parse_search] *)

Lemma search_fields_clean (raw : string) :
  let fields :=
    strip <$> filter (fun f => str_truthy (strip f) = true) (split "," raw) in
  Forall (fun field => plain field /\ field <> "") fields
  /\ (length fields <= S (count_char "," raw))%nat.
Proof.
  intros fields. subst fields. split.
  - apply Forall_fmap, Forall_forall. intros piece Hin.
    apply list_elem_of_filter in Hin as [Htruthy Hin]. cbn.
    split; [split |].
    + apply strip_idemp.
    + pose proof (split_pieces "," raw) as Hpieces.
      rewrite Forall_forall in Hpieces. specialize (Hpieces _ Hin).
      cbv beta in Hpieces. pose proof (strip_count "," piece). lia.
    + intros Hempty. by rewrite Hempty in Htruthy.
  - rewrite length_fmap, <- split_length. apply length_filter.
Qed.

Lemma search_fields_names (raw : string) :
  strip <$> filter (fun f => str_truthy (strip f) = true) (split "," raw)
  = search_field_names raw.
Proof.
  unfold search_field_names.
  induction (split "," raw) as [| piece pieces IH]; [reflexivity |].
  rewrite fmap_cons, !filter_cons.
  destruct (strip piece) eqn:Hpiece.
  - rewrite decide_False by done. rewrite decide_False by (by intros ?).
    exact IH.
  - rewrite decide_True by done. rewrite decide_True by done.
    by rewrite fmap_cons, IH, Hpiece.
Qed.

Lemma search_field_names_join (names : list string) :
  Forall (fun name => plain name /\ name <> "") names ->
  search_field_names (join "," names) = names.
Proof.
  intros Hnames. unfold search_field_names.
  destruct names as [| name names]; [reflexivity |].
  rewrite split_join; [| done |].
  - induction Hnames as [| n ns [[Hstrip _] Hn] _ IH]; [reflexivity |].
    rewrite fmap_cons, filter_cons, Hstrip. rewrite decide_True by done.
    by rewrite IH.
  - eapply Forall_impl; [exact Hnames |]. by intros n [[_ Hcomma] _].
Qed.

(** X28: A search is read exactly when the query string has a search term
    that is not empty and [search_fields] lists at least one field name. It
    gives one OR group: a CONTAINS filter on the search term for each field
    name that [search_fields] lists, in their order, where the field names
    are the pieces between the commas, stripped, without the empty ones. In
    particular field names without commas and surrounding white space that
    are joined by commas are read back as they are. *)
Theorem parse_search_groups (query_params : QueryParams) :
  (forall groups,
     _parse_search query_params = Ok (Some groups)
     <-> exists search raw,
           qp_get query_params "search" = Some search /\ search <> ""
           /\ qp_get query_params "search_fields" = Some raw
           /\ search_field_names raw <> []
           /\ groups
              = [OrFilterGroup.mk
                   ((fun field => Filter.mk field CONTAINS search)
                      <$> search_field_names raw)])
  /\ (forall raw,
        qp_get query_params "search_fields" = Some raw ->
        Forall (fun field => plain field /\ field <> "")
          (search_field_names raw)
        /\ (length (search_field_names raw) <= S (count_char "," raw))%nat)
  /\ (forall search names,
        qp_get query_params "search" = Some search -> search <> "" ->
        qp_get query_params "search_fields" = Some (join "," names) ->
        names <> [] ->
        Forall (fun name => plain name /\ name <> "") names ->
        _parse_search query_params
        = Ok (Some [OrFilterGroup.mk
                      ((fun field => Filter.mk field CONTAINS search)
                         <$> names)])).
Proof.
  assert (Hread : forall search raw,
            qp_get query_params "search" = Some search -> search <> "" ->
            qp_get query_params "search_fields" = Some raw ->
            search_field_names raw <> [] ->
            _parse_search query_params
            = Ok (Some [OrFilterGroup.mk
                          ((fun field => Filter.mk field CONTAINS search)
                             <$> search_field_names raw)])).
  { intros search raw Hsearch Hterm Hraw Hnames. unfold _parse_search.
    rewrite Hsearch, Hraw.
    destruct search as [| c search]; [done |].
    destruct raw as [| c' raw]; [by destruct Hnames |].
    rewrite search_fields_names.
    by destruct (search_field_names (String c' raw)). }
  split; [| split].
  - intros groups. split.
    + unfold _parse_search.
      destruct (qp_get query_params "search") as [[| c search] |];
        try discriminate.
      destruct (qp_get query_params "search_fields") as [[| c' raw] |];
        try discriminate.
      rewrite search_fields_names.
      destruct (search_field_names (String c' raw)) as [| field fields]
        eqn:Hfields; [discriminate |].
      intros [= <-]. exists (String c search), (String c' raw).
      rewrite Hfields. by repeat split.
    + intros (search & raw & Hsearch & Hterm & Hraw & Hnames & ->).
      by apply Hread.
  - intros raw _. rewrite <- search_fields_names.
    apply (search_fields_clean raw).
  - intros search names Hsearch Hterm Hraw Hne Hnames.
    rewrite (Hread search (join "," names) Hsearch Hterm Hraw);
      rewrite (search_field_names_join names Hnames); done.
Qed.

(** X29: Without a search term, or with an empty one, there is no search and
    [search_fields] is not looked at; every error of [_parse_search] is a
    400 error, raised for a search term without a usable field name. *)
Theorem parse_search_none_or_error (query_params : QueryParams) :
  (_parse_search query_params = Ok None
   <-> qp_get query_params "search" = None
       \/ qp_get query_params "search" = Some "")
  /\ forall e,
       _parse_search query_params = Raise e ->
       (exists detail, e = HTTPException 400 detail)
       /\ (exists search,
             qp_get query_params "search" = Some search /\ search <> "")
       /\ forall raw,
            qp_get query_params "search_fields" = Some raw ->
            Forall (fun piece => strip piece = "") (split "," raw).
Proof.
  unfold _parse_search.
  destruct (qp_get query_params "search") as [[| c search] |].
  - split; [split; [by right | done] | discriminate].
  - split; [split; [| by intros [? | ?]] |].
    + destruct (qp_get query_params "search_fields") as [[| c' raw] |];
        try discriminate.
      by destruct (strip <$> filter _ _).
    + intros e.
      destruct (qp_get query_params "search_fields") as [[| c' raw] |].
      * intros [= <-]. split; [by eexists |]. split; [by eexists |].
        intros raw [= <-]. by repeat constructor.
      * destruct (strip <$> filter _ (split "," (String c' raw)))
          as [| field fields] eqn:Hfields; [| discriminate].
        intros [= <-]. split; [by eexists |]. split; [by eexists |].
        intros raw' [= <-].
        apply fmap_nil_inv in Hfields.
        apply Forall_forall. intros piece Hin.
        destruct (strip piece) eqn:Hpiece; [done |]. exfalso.
        assert (Hkept : piece ∈ filter (fun f => str_truthy (strip f) = true)
                          (split "," (String c' raw))).
        { apply list_elem_of_filter. split; [by rewrite Hpiece | done]. }
        rewrite Hfields in Hkept. by apply elem_of_nil in Hkept.
      * intros [= <-]. split; [by eexists |]. split; [by eexists |].
        discriminate.
  - split; [split; [by left | done] | discriminate].
Qed.

(** *** [with_filters], [with_or_filters], [with_sorting] *)

(** Filters handed to [with_filters] come behind the filters the manager
    has; [None] and the empty list change nothing; nothing but the filters
    changes.  [with_or_filters] does the same for the OR groups, and
    [with_sorting] replaces the sorting unless it is handed [None]. *)
Lemma with_methods_append (self : FSPManager.t)
    (filters : option (list Filter.t))
    (or_filters : option (list OrFilterGroup.t))
    (sorting : option SortingQuery.t) :
  (filter_list (FSPManager.filters (FSPManager.with_filters self filters))
   = filter_list (FSPManager.filters self) ++ filter_list filters
   /\ FSPManager.set_filters self
        (FSPManager.filters (FSPManager.with_filters self filters))
      = FSPManager.with_filters self filters)
  /\ (filter_list
        (FSPManager.or_filters (FSPManager.with_or_filters self or_filters))
      = filter_list (FSPManager.or_filters self) ++ filter_list or_filters
      /\ FSPManager.set_or_filters self
           (FSPManager.or_filters
              (FSPManager.with_or_filters self or_filters))
         = FSPManager.with_or_filters self or_filters)
  /\ FSPManager.with_sorting self sorting
     = FSPManager.set_sorting self
         (match sorting with
          | Some _ => sorting
          | None => FSPManager.sorting self
          end).
Proof.
  split; [| split].
  - unfold FSPManager.with_filters.
    destruct filters as [[| f filters] |], (FSPManager.filters self)
      as [[| f' filters'] |] eqn:Hself; cbn; rewrite ?Hself, ?app_nil_r;
      (split; [done |]); destruct self; cbn in *; by subst.
  - unfold FSPManager.with_or_filters.
    destruct or_filters as [[| g groups] |], (FSPManager.or_filters self)
      as [[| g' groups'] |] eqn:Hself; cbn; rewrite ?Hself, ?app_nil_r;
      (split; [done |]); destruct self; cbn in *; by subst.
  - destruct sorting; [done |]. by destruct self.
Qed.

(** ** presets.py *)

Section Presets.
Context `{DateLib}.

(** X30: The boolean presets on a column of Python type [bool]: [active] and
    [disabled] compare it with [False], [deleted] and [enabled] with
    [True]. *)
Theorem boolean_presets (column : Column) (given : option PyType)
    (field : string) :
  typed_as column TBool given ->
  let build := fun filters : list Filter.t =>
    map_result
      (fun f => FilterEngine.build_filter_condition FILTER_STRATEGIES column f
                  given) filters in
  build (CommonFilters.active field)
  = Ok [Some (PEq (ECol column) (PyBool false))]
  /\ build (CommonFilters.deleted field)
     = Ok [Some (PEq (ECol column) (PyBool true))]
  /\ build (CommonFilters.enabled field)
     = Ok [Some (PEq (ECol column) (PyBool true))]
  /\ build (CommonFilters.disabled field)
     = Ok [Some (PEq (ECol column) (PyBool false))].
Proof.
  intros Htyped build. subst build.
  assert (Hcoerce : forall b,
            _coerce_value column (if b : bool then "true" else "false") given
            = Ok (PyBool b)).
  { intros b. by apply (coerce_to_str column TBool given (VBool b)). }
  pose proof (Hcoerce true) as Htrue. pose proof (Hcoerce false) as Hfalse.
  cbn [CommonFilters.active CommonFilters.deleted CommonFilters.enabled
         CommonFilters.disabled map_result].
  unfold FilterEngine.build_filter_condition, FILTER_STRATEGIES.
  cbn [Filter.operator Filter.value]. unfold _strategy_eq.
  cbv iota in Htrue, Hfalse. rewrite Htrue, Hfalse.
  by repeat split.
Qed.

End Presets.

(** [CommonFilters.search] takes the three match types that are values of
    operators, and builds one filter with that operator; any other match
    type is a [ValueError].  [date_range] builds one filter for each bound
    it is given, the lower bound first, and raises a [ValueError] without
    any. *)
Lemma search_and_date_range (field term match_type : string)
    (start end_ : option string) :
  (forall filters,
     CommonFilters.search field term match_type = Ok filters
     <-> exists op,
           op ∈ [CONTAINS; STARTS_WITH; ENDS_WITH]
           /\ FilterOperator_value op = match_type
           /\ filters = [Filter.mk field op term])
  /\ (forall e,
        CommonFilters.search field term match_type = Raise e ->
        e = ValueError)
  /\ CommonFilters.date_range field start end_
     = match start, end_ with
       | None, None => Raise ValueError
       | _, _ =>
           Ok (((fun bound => Filter.mk field GTE bound)
                  <$> option_list start)
               ++ ((fun bound => Filter.mk field LTE bound)
                     <$> option_list end_))
       end.
Proof.
  split; [| split].
  - intros filters. unfold CommonFilters.search. split.
    + destruct (list_find _ _) as [[i [k op]] |] eqn:Hfind; [| discriminate].
      cbn. intros [= <-].
      apply list_find_Some in Hfind as (Hi & Hk & _). cbn in Hk. subst k.
      exists op. apply list_elem_of_lookup_2 in Hi.
      unfold CommonFilters.operator_map in Hi.
      rewrite !elem_of_cons in Hi.
      destruct Hi as [[= -> ->] | [[= -> ->] | [[= -> ->] | Hi]]];
        [split; [set_solver | done] .. |].
      by apply elem_of_nil in Hi.
    + intros (op & Hop & <- & ->).
      rewrite !elem_of_cons in Hop.
      destruct Hop as [-> | [-> | [-> | Hop]]]; try reflexivity.
      by apply elem_of_nil in Hop.
  - intros e. unfold CommonFilters.search.
    destruct (list_find _ _) as [[i [k op]] |]; cbn; [discriminate |].
    by intros [= <-].
  - by destruct start, end_.
Qed.

(** [.where("age").gte(30)], the example of the builder. *)
Lemma builder_comparison_round_trip_witness :
  exists f,
    FilterBuilder._filters (FilterBuilder.mk [Filter.mk "age" GTE "30"])
    = FilterBuilder._filters FilterBuilder.__init__ ++ [f]
    /\ Filter.field f = FieldBuilder._field (FieldBuilder.__init__ "age")
    /\ FilterEngine.build_filter_condition
         (@FILTER_STRATEGIES Fixture.no_dates) Fixture.age_col f (Some TInt)
       = Ok (Some (PGe (ECol Fixture.age_col) (PyInt 30))).
Proof.
  apply (@builder_comparison_round_trip Fixture.no_dates Fixture.age_col TInt
           (Some TInt) (or_introl eq_refl) GTE PGe FieldBuilder.gte
           (FieldBuilder.__init__ "age") FilterBuilder.__init__
           (FilterBuilder.mk [Filter.mk "age" GTE "30"]) (VInt 30) (PyInt 30));
    reflexivity.
Defined.

Lemma builder_in_round_trip_witness :
  exists f,
    FilterBuilder._filters (FilterBuilder.mk [Filter.mk "id" IN "1,-2,30"])
    = FilterBuilder._filters FilterBuilder.__init__ ++ [f]
    /\ Filter.field f = FieldBuilder._field (FieldBuilder.__init__ "id")
    /\ FilterEngine.build_filter_condition
         (@FILTER_STRATEGIES Fixture.no_dates) Fixture.id_col f None
       = Ok (Some (PIn (ECol Fixture.id_col) [PyInt 1; PyInt (-2); PyInt 30])).
Proof.
  apply (@builder_in_round_trip Fixture.no_dates Fixture.id_col TInt None
           (or_intror (conj eq_refl eq_refl))
           (FieldBuilder.__init__ "id") FilterBuilder.__init__
           (FilterBuilder.mk [Filter.mk "id" IN "1,-2,30"])
           [VInt 1; VInt (-2); VInt 30] [PyInt 1; PyInt (-2); PyInt 30]).
  - discriminate.
  - repeat constructor.
  - repeat constructor.
  - reflexivity.
Defined.

Lemma builder_between_round_trip_witness :
  exists f,
    FilterBuilder._filters (FilterBuilder.mk [Filter.mk "age" BETWEEN "20,40"])
    = FilterBuilder._filters FilterBuilder.__init__ ++ [f]
    /\ Filter.field f = FieldBuilder._field (FieldBuilder.__init__ "age")
    /\ FilterEngine.build_filter_condition
         (@FILTER_STRATEGIES Fixture.no_dates) Fixture.age_col f (Some TInt)
       = Ok (Some (PBetween (ECol Fixture.age_col) (PyInt 20) (PyInt 40))).
Proof.
  apply (@builder_between_round_trip Fixture.no_dates Fixture.age_col TInt
           (Some TInt) (or_introl eq_refl)
           (FieldBuilder.__init__ "age") FilterBuilder.__init__
           (FilterBuilder.mk [Filter.mk "age" BETWEEN "20,40"])
           (VInt 20) (VInt 40) (PyInt 20) (PyInt 40));
    first [exact I | reflexivity].
Defined.

(** A name with a comma as the lower bound. *)
Lemma builder_between_comma_dropped_witness :
  exists f,
    FieldBuilder.between (FieldBuilder.__init__ "name") FilterBuilder.__init__
      (VStr "Doe, Jane") (VStr "Roe")
    = Ok (FilterBuilder.mk (FilterBuilder._filters FilterBuilder.__init__
                            ++ [f]))
    /\ FilterEngine.build_filter_condition
         (@FILTER_STRATEGIES Fixture.no_dates) Fixture.name_col f (Some TStr)
       = Ok None.
Proof.
  apply (@builder_between_comma_dropped Fixture.no_dates Fixture.name_col
           (Some TStr) (FieldBuilder.__init__ "name") FilterBuilder.__init__
           (VStr "Doe, Jane") (VStr "Roe") "Doe, Jane" "Roe");
    [reflexivity | reflexivity | vm_compute; discriminate].
Defined.

(** The filter [in_([])] builds: an IN over the empty string. *)
Lemma in_condition_never_empty_witness :
  exists vals,
    length vals = S (count_char "," "")
    /\ Some (PIn (ECol Fixture.name_col) [PyStr ""])
       = Some (PIn (ECol Fixture.name_col) vals).
Proof.
  apply (@in_condition_never_empty Fixture.no_dates Fixture.name_col
           (Some TStr) (Filter.mk "name" IN "")
           (Some (PIn (ECol Fixture.name_col) [PyStr ""])));
    [left; reflexivity | reflexivity].
Defined.

Lemma get_column_type_memo_witness :
  FilterEngine.get_column_type
    (FilterEngine.mk false (<[3 := Some TInt]> ∅)) Fixture.age_col_plain
  = Ok (Some TInt, FilterEngine.mk false (<[3 := Some TInt]> ∅)).
Proof.
  destruct (get_column_type_memo (FilterEngine.__init__ false)
              (FilterEngine.mk false (<[3 := Some TInt]> ∅))
              Fixture.age_col (Some TInt) eq_refl)
    as (_ & _ & _ & _ & Hagain).
  exact (Hagain Fixture.age_col_plain eq_refl).
Defined.

Lemma apply_filters_frame_witness :
  exists query' self',
    FilterEngine.apply_filters (FilterEngine.__init__ false)
      (@FILTER_STRATEGIES Fixture.no_dates) Fixture.query Fixture.columns_map
      (Some Fixture.two_filters) = Ok (query', self')
    /\ order_by_clauses query' = order_by_clauses Fixture.query
    /\ exists added,
         whereclause query' = whereclause Fixture.query ++ added
         /\ (length added <= 2)%nat.
Proof.
  destruct (FilterEngine.apply_filters (FilterEngine.__init__ false)
              (@FILTER_STRATEGIES Fixture.no_dates) Fixture.query
              Fixture.columns_map (Some Fixture.two_filters))
    as [[query' self'] | e] eqn:Happly; [| vm_compute in Happly; discriminate].
  exists query', self'. split; [reflexivity |].
  destruct (apply_filters_frame _ _ _ _ _ _ _ Happly)
    as (_ & _ & Horder & Hwhere & _).
  split; [exact Horder | exact Hwhere].
Defined.

Lemma strict_answer_is_lenient_answer_witness :
  exists query' self',
    FilterEngine.apply_filters (FilterEngine.mk true ∅)
      (@FILTER_STRATEGIES Fixture.no_dates) Fixture.query Fixture.columns_map
      (Some Fixture.two_filters) = Ok (query', self')
    /\ FilterEngine.apply_filters (FilterEngine.mk false ∅)
         (@FILTER_STRATEGIES Fixture.no_dates) Fixture.query
         Fixture.columns_map (Some Fixture.two_filters)
       = Ok (query', FilterEngine.mk false (FilterEngine._type_cache self')).
Proof.
  destruct (FilterEngine.apply_filters (FilterEngine.mk true ∅)
              (@FILTER_STRATEGIES Fixture.no_dates) Fixture.query
              Fixture.columns_map (Some Fixture.two_filters))
    as [[query' self'] | e] eqn:Happly; [| vm_compute in Happly; discriminate].
  exists query', self'. split; [reflexivity |].
  exact (strict_answer_is_lenient_answer _ _ _ _ _ _ _ Happly).
Defined.

(** A strategy of one's own for LIKE, and filters that do not use LIKE. *)
Lemma register_strategy_scope_witness :
  FilterEngine.apply_filters (FilterEngine.__init__ false)
    (FilterEngine.register_strategy (@FILTER_STRATEGIES Fixture.no_dates)
       LIKE (fun column raw pytype => Ok None))
    Fixture.query Fixture.columns_map (Some Fixture.two_filters)
  = FilterEngine.apply_filters (FilterEngine.__init__ false)
      (@FILTER_STRATEGIES Fixture.no_dates) Fixture.query Fixture.columns_map
      (Some Fixture.two_filters).
Proof.
  apply (register_strategy_scope (@FILTER_STRATEGIES Fixture.no_dates) LIKE
           (fun column raw pytype => Ok None) Fixture.columns_map
           (FilterEngine.__init__ false) Fixture.query (Some Fixture.two_filters)).
  repeat constructor; discriminate.
Defined.

Lemma apply_sort_frame_witness :
  whereclause (order_by Fixture.query (ECol Fixture.name_col, DESC))
  = whereclause Fixture.query
  /\ exists keys,
       order_by_clauses (order_by Fixture.query (ECol Fixture.name_col, DESC))
       = order_by_clauses Fixture.query ++ keys
       /\ (length keys <= 1)%nat.
Proof.
  destruct (apply_sort_frame Fixture.columns_map (SortEngine.mk false)
              Fixture.query
              (order_by Fixture.query (ECol Fixture.name_col, DESC))
              (Some (SortingQuery.mk "name" DESC)) eq_refl)
    as (_ & _ & Hwhere & keys & Hkeys & Hlen & _).
  split; [exact Hwhere |]. exists keys. split; [exact Hkeys | exact Hlen].
Defined.

Lemma apply_sort_raises_witness :
  SortEngine.strict_mode (SortEngine.mk true) = true
  /\ resolves Fixture.query Fixture.columns_map "salary" = false.
Proof.
  destruct (apply_sort_raises Fixture.columns_map (SortEngine.mk true)
              Fixture.query (Some (SortingQuery.mk "salary" ASC))
              (HTTPException 400
                 "Unknown sort field 'salary'. Available fields: active, age, id, name")
              eq_refl)
    as (Hstrict & s & [= <-] & _ & Hunknown & _).
  split; [exact Hstrict | exact Hunknown].
Defined.

Lemma filter_and_sort_commute_witness :
  exists filtered self' both,
    FilterEngine.apply_filters (FilterEngine.__init__ false)
      (@FILTER_STRATEGIES Fixture.no_dates) Fixture.query Fixture.columns_map
      (Some Fixture.two_filters) = Ok (filtered, self')
    /\ SortEngine.apply_sort (SortEngine.mk false) filtered Fixture.columns_map
         (Some (SortingQuery.mk "name" DESC)) = Ok both
    /\ FilterEngine.apply_filters (FilterEngine.__init__ false)
         (@FILTER_STRATEGIES Fixture.no_dates)
         (order_by Fixture.query (ECol Fixture.name_col, DESC))
         Fixture.columns_map (Some Fixture.two_filters) = Ok (both, self').
Proof.
  destruct (FilterEngine.apply_filters (FilterEngine.__init__ false)
              (@FILTER_STRATEGIES Fixture.no_dates) Fixture.query
              Fixture.columns_map (Some Fixture.two_filters))
    as [[filtered self'] | e] eqn:Happly; [| vm_compute in Happly; discriminate].
  destruct (filter_and_sort_commute Fixture.columns_map
              (@FILTER_STRATEGIES Fixture.no_dates)
              (FilterEngine.__init__ false) self' (SortEngine.mk false)
              Fixture.query filtered
              (order_by Fixture.query (ECol Fixture.name_col, DESC))
              (Some Fixture.two_filters) (Some (SortingQuery.mk "name" DESC))
              Happly eq_refl) as (both & Hsort & Hfilter).
  exists filtered, self', both. split; [reflexivity |].
  split; [exact Hsort | exact Hfilter].
Defined.

(** Fifteen rows, five to a page: the pages 1, 2 and 3. *)
Lemma pages_cover_the_rows_witness :
  mjoin ((fun page =>
            PaginationEngine.paginate
              (engine_at Fixture.request None page 5) Fixture.query
              Fixture.pg_session)
         <$> seqZ 1 (Z.of_nat 3))
  = exec_result Fixture.query
      <$> take (Z.to_nat (Z.of_nat 3 * 5))
            (rows_of Fixture.pg_session Fixture.query).
Proof.
  apply (pages_cover_the_rows Fixture.request None Fixture.query
           Fixture.pg_session 5 3).
  lia.
Defined.

(** Page 3 of fifteen rows, five to a page, is the last one. *)
Lemma next_link_iff_next_page_has_rows_witness :
  exists response,
    PaginationEngine.build_response (engine_at Fixture.request None 3 5)
      (Some 15)
      (PaginationEngine.paginate (engine_at Fixture.request None 3 5)
         Fixture.query Fixture.pg_session) None None
    = Ok response
    /\ Links.next (PaginatedResponse.links response) = None.
Proof.
  destruct (next_link_iff_next_page_has_rows Fixture.request None
              Fixture.query Fixture.pg_session 3 5 None None)
    as (response & Hresponse & _ & _ & Hnext);
    [lia | lia | vm_compute; reflexivity |].
  exists response. split; [exact Hresponse |].
  destruct (Links.next (PaginatedResponse.links response)) as [url |];
    [| reflexivity].
  exfalso. apply (proj1 Hnext); [by eexists | reflexivity].
Defined.

(** Page 2 of fifteen rows of [select(Model)], five to a page: the same
    total and the same values, instances on one path and named tuples on the
    other.  Page 1 of two rows of [select(Model.name)]: the same answer. *)
Lemma paginate_with_count_paths_agree_witness :
  (exists total data_window data_fallback,
     PaginationEngine.paginate_with_count
       (PaginationEngine.mk (PaginationQuery.mk 2 5) Fixture.request
          (Some true))
       Fixture.query Fixture.pg_session
     = Ok (data_window, total)
     /\ PaginationEngine.paginate_with_count
          (PaginationEngine.mk (PaginationQuery.mk 2 5) Fixture.request
             (Some false))
          Fixture.query Fixture.pg_session
        = Ok (data_fallback, total)
     /\ item_values <$> data_window = item_values <$> data_fallback
     /\ data_window <> data_fallback)
  /\ PaginationEngine.paginate_with_count
       (PaginationEngine.mk (PaginationQuery.mk 1 10) Fixture.request
          (Some true))
       Fixture.name_query Fixture.name_session
     = PaginationEngine.paginate_with_count
         (PaginationEngine.mk (PaginationQuery.mk 1 10) Fixture.request
            (Some false))
         Fixture.name_query Fixture.name_session.
Proof.
  split.
  - destruct (paginate_with_count_paths_agree Fixture.request Fixture.query
                Fixture.pg_session (PaginationQuery.mk 2 5)
                ["id"; "name"; "age"; "active"])
      as (total & data_window & data_fallback & Hwindow & Hfallback & Hvalues
          & Hsame).
    + repeat first [apply List.Forall_nil | apply List.Forall_cons];
        reflexivity.
    + right. reflexivity.
    + discriminate.
    + vm_compute. discriminate.
    + exists total, data_window, data_fallback.
      split; [exact Hwindow |]. split; [exact Hfallback |].
      split; [exact Hvalues |].
      intros Heq. apply (proj1 Hsame) in Heq. discriminate.
  - destruct (paginate_with_count_paths_agree Fixture.request
                Fixture.name_query Fixture.name_session
                (PaginationQuery.mk 1 10) ["name"])
      as (total & data_window & data_fallback & Hwindow & Hfallback & _
          & Hsame).
    + repeat first [apply List.Forall_nil | apply List.Forall_cons];
        reflexivity.
    + left. reflexivity.
    + reflexivity.
    + vm_compute. discriminate.
    + rewrite Hwindow, Hfallback. by rewrite (proj2 Hsame eq_refl).
Defined.

(** [limited_pagination()] with its defaults, and page 7. *)
Lemma validate_page_bounds_witness :
  FSPPresets.limited_pagination 100 50
  = Ok (FSPConfig.mk 50 10 1 1 false false (Some 100))
  /\ FSPConfig.validate_page (FSPConfig.mk 50 10 1 1 false false (Some 100)) 7
     = Ok 7
  /\ 1 <= 7 <= 100.
Proof.
  destruct (validate_page_bounds
              (FSPConfig.mk 50 10 1 1 false false (Some 100)) 7 7
              eq_refl eq_refl) as (Hlow & _ & Hhigh).
  split; [reflexivity |]. split; [reflexivity |].
  split; [exact Hlow |].
  apply (Hhigh 100); [reflexivity .. | vm_compute; discriminate].
Defined.

(** A manager as FastAPI builds it, asked for 500 rows to a page, under
    the strict preset. *)
Lemma apply_config_result_witness :
  exists self',
    FSPManager.apply_config
      (FSPManager.__init__ Fixture.request None None
         (PaginationQuery.mk 1 500) None false None)
      (FSPConfig.mk 100 10 1 1 true true None) = Ok self'
    /\ FSPManager.strict_mode self' = true
    /\ PaginationQuery.per_page
         (PaginationEngine.pagination (FSPManager._pagination_engine self'))
       <= 100.
Proof.
  destruct (FSPManager.apply_config
              (FSPManager.__init__ Fixture.request None None
                 (PaginationQuery.mk 1 500) None false None)
              (FSPConfig.mk 100 10 1 1 true true None))
    as [self' | e] eqn:Happly; [| vm_compute in Happly; discriminate].
  exists self'. split; [reflexivity |].
  destruct (apply_config_result Fixture.request None None
              (PaginationQuery.mk 1 500) None false None
              (FSPConfig.mk 100 10 1 1 true true None) self' eq_refl Happly)
    as (Hstrict & _ & Hengine & _ & [_ Hmax] & _).
  split; [exact Hstrict |]. rewrite Hengine. exact Hmax.
Defined.

Lemma parse_filters_indexed_witness :
  _parse_filters Fixture.indexed_example
  = Ok (Some [Filter.mk "age" GTE "18"; Filter.mk "name" ILIKE "joy"]).
Proof.
  apply (parse_filters_indexed Fixture.indexed_example
           [Filter.mk "age" GTE "18"; Filter.mk "name" ILIKE "joy"]).
  - discriminate.
  - intros [| [| k]] f; [intros [= <-] .. | discriminate].
    + exists "0". repeat split; reflexivity.
    + exists "1". repeat split; reflexivity.
  - exists "2". split; reflexivity.
Defined.

Lemma parse_filters_bad_index_witness :
  _parse_filters
    [("filters[0][field]", "age"); ("filters[0][operator]", "gte");
     ("filters[0][value]", "18"); ("filters[1][field]", "name");
     ("filters[1][value]", "joy")]
  = Raise (HTTPException 400
             "Incomplete filter at index 1. Missing operator or value.").
Proof.
  apply (parse_filters_bad_index
           [("filters[0][field]", "age"); ("filters[0][operator]", "gte");
            ("filters[0][value]", "18"); ("filters[1][field]", "name");
            ("filters[1][value]", "joy")]
           [Filter.mk "age" GTE "18"] "1" "name").
  - intros [| k] f; [intros [= <-] | discriminate].
    exists "0". repeat split; reflexivity.
  - reflexivity.
  - reflexivity.
  - left. reflexivity.
Defined.

(** The query string of the docstring in the simple format, between two
    other parameters. *)
Lemma parse_filters_simple_round_trip_witness :
  _parse_filters
    ([("page", "2")]
     ++ simple_params [Filter.mk "age" GTE "18"; Filter.mk "name" ILIKE "joy"]
     ++ [("sort_by", "name")])
  = Ok (Some [Filter.mk "age" GTE "18"; Filter.mk "name" ILIKE "joy"]).
Proof.
  apply (parse_filters_simple_round_trip
           [Filter.mk "age" GTE "18"; Filter.mk "name" ILIKE "joy"]
           [("page", "2")] [("sort_by", "name")]).
  repeat first [apply List.Forall_nil | apply List.Forall_cons];
    vm_compute; intros Hin; repeat (inversion Hin as [| ? ? ? Hin']; clear Hin;
    rename Hin' into Hin); inversion Hin.
Defined.

(** A query string of the README, with white space and an empty piece in
    [search_fields]. *)
Lemma parse_search_groups_witness :
  search_field_names "name, email," = ["name"; "email"]
  /\ _parse_search [("search", "john"); ("search_fields", "name, email,")]
     = Ok (Some [OrFilterGroup.mk [Filter.mk "name" CONTAINS "john";
                                   Filter.mk "email" CONTAINS "john"]])
  /\ _parse_search [("search", "john"); ("search_fields", "name,email")]
     = Ok (Some [OrFilterGroup.mk [Filter.mk "name" CONTAINS "john";
                                   Filter.mk "email" CONTAINS "john"]]).
Proof.
  split; [reflexivity |]. split.
  - apply (proj1 (parse_search_groups
                    [("search", "john"); ("search_fields", "name, email,")])).
    exists "john", "name, email,".
    split; [reflexivity |]. split; [discriminate |].
    split; [reflexivity |]. split; [discriminate | reflexivity].
  - apply (proj2 (proj2 (parse_search_groups
                           [("search", "john");
                            ("search_fields", "name,email")]))
             "john" ["name"; "email"]);
      [reflexivity | discriminate | reflexivity | discriminate |].
    repeat first [apply List.Forall_nil | apply List.Forall_cons];
      (split; [split; reflexivity | discriminate]).
Defined.

Lemma boolean_presets_witness :
  map_result
    (fun f => FilterEngine.build_filter_condition
                (@FILTER_STRATEGIES Fixture.no_dates) Fixture.active_col f
                None)
    (CommonFilters.active "active")
  = Ok [Some (PEq (ECol Fixture.active_col) (PyBool false))].
Proof.
  destruct (@boolean_presets Fixture.no_dates Fixture.active_col None "active"
              (or_intror (conj eq_refl eq_refl))) as (Hactive & _).
  exact Hactive.
Defined.
